(** * Same Game (src/same.js): the board and cluster engine

    A shallow embedding of the class [SameGame] and the properties of its
    cluster analysis, removal, scoring and termination check.

    Conventions of the embedding.
    - JS numbers that the program uses as coordinates, sizes and scores are
      integers; they are modelled by [Z] (the program also produces the
      coordinate -1, as a neighbour of column or row 0).
    - [board] is the JS array of columns, [board[x][y]], row 0 on top.
    - A cell object is [{color, cluster}].  [color] is a palette string or
      [null] ([None]).  [cluster] is a reference to an array of coordinate
      pairs, or [undefined] ([None]).  The arrays live in [heap]: several
      cells (and [hoverCluster]) refer to the same array, and
      [updateClusters] grows an array through one of these references.
    - The exceptions the program can raise are the JS TypeError of a read or
      write through [undefined], and in the constructor the RangeError of
      [Array.from] for a width or a height of 2^32 or more; [Throw s] is
      such an exception, raised in state [s].
    - Of the DOM the game object itself holds the number shown in [#hover]
      and the number of "game over" alerts.  The table of the page is a
      second component, [World], with the methods that write to it.  The
      style of a cell takes a string as its background colour only when the
      string is a CSS colour; which strings are, is a parameter [css] of
      the methods that draw. *)

From Stdlib Require Import ZArith List Lia Bool String Ascii.
From stdpp Require Import base tactics option list strings relations sorting pretty.
Import ListNotations.

#[local] Open Scope Z_scope.

Module SameGame.

(** ** Data *)

Abbreviation Color := string (only parsing).
Abbreviation Pos := (Z * Z)%type (only parsing).
Abbreviation Ref := nat (only parsing).

(** A cell object [{ color: ..., cluster: ... }]. *)
Record Cell := mkCell {
  color : option Color;      (* None is null *)
  cluster : option Ref       (* None is undefined *)
}.

(** How a statement, a loop or a method ends. *)
Inductive completion (S : Type) : Type :=
| Normal (s : S)             (* ran to its end *)
| Throw (s : S)              (* exception raised in state s: a TypeError, or
                                the RangeError of the constructor *)
| OutOfFuel.                 (* the bound given to a while loop was too small *)
Arguments Normal {S} s.
Arguments Throw {S} s.
Arguments OutOfFuel {S}.

Definition andThen {S T : Type} (lift : S -> T)
    (c : completion S) (k : S -> completion T) : completion T :=
  match c with
  | Normal s => k s
  | Throw s => Throw (lift s)
  | OutOfFuel => OutOfFuel
  end.

(** [for (i of idx) body(i)], stopping at the first exception. *)
Fixpoint forEach {I S : Type} (body : I -> S -> completion S)
    (idx : list I) (s : S) : completion S :=
  match idx with
  | [] => Normal s
  | i :: rest =>
      match body i s with
      | Normal s' => forEach body rest s'
      | Throw s' => Throw s'
      | OutOfFuel => OutOfFuel
      end
  end.

(** The indices of [for (let i = 0; i < n; i += 1)]. *)
Definition zrange (n : Z) : list Z := map Z.of_nat (seq 0 (Z.to_nat n)).

(** [a[i]] for an integer [i]: [undefined] outside [0 .. length-1]. *)
Definition zget {A : Type} (l : list A) (i : Z) : option A :=
  if i <? 0 then None else l !! Z.to_nat i.

(** [m[x][y]]; [None] when the column or the entry is [undefined]. *)
Definition at2 {A : Type} (m : list (list A)) (x y : Z) : option A :=
  match zget m x with
  | Some col => zget col y
  | None => None
  end.

(** [board[x][y]]. *)
Definition getCell (b : list (list Cell)) (x y : Z) : option Cell := at2 b x y.

(** [board[x][y].cluster = v] on an existing cell. *)
Definition setCluster (b : list (list Cell)) (x y : Z) (v : option Ref)
    : list (list Cell) :=
  alter (alter (fun c => mkCell (color c) v) (Z.to_nat y)) (Z.to_nat x) b.

(** [board[x][y] = c] on an existing slot. *)
Definition setCell (b : list (list Cell)) (x y : Z) (c : Cell)
    : list (list Cell) :=
  alter (fun col => <[Z.to_nat y := c]> col) (Z.to_nat x) b.

(** The array a reference points to.  A reference always points to an
    allocated array; the default is never used on such references. *)
Definition deref (hp : list (list Pos)) (r : Ref) : list Pos :=
  default [] (hp !! r).

(** [arr.push(p)] through the reference [r]. *)
Definition push (hp : list (list Pos)) (r : Ref) (p : Pos) : list (list Pos) :=
  alter (fun a => a ++ [p]) r hp.

(** [{ color: null, cluster: [] }] with a freshly allocated array. *)
Definition emptyCell (hp : list (list Pos)) : Cell :=
  mkCell None (Some (length hp)).

(** Allocation of [[]]. *)
Definition alloc (hp : list (list Pos)) : list (list Pos) := hp ++ [[]].

(** ** The game object *)

Record State := mkState {
  width : Z;
  height : Z;
  board : list (list Cell);
  heap : list (list Pos);
  hoverCluster : option Ref;
  score : Z;
  numCells : Z;
  scoreLeft : option Z;        (* undefined before the first updateScore *)
  scoreTotal : option Z;
  hoverShown : Z;              (* the number written into #hover *)
  alerts : nat                 (* how many times "game over" was alerted *)
}.

Definition withBoard (st : State) (b : list (list Cell)) (hp : list (list Pos))
    : State :=
  mkState (width st) (height st) b hp (hoverCluster st) (score st)
    (numCells st) (scoreLeft st) (scoreTotal st) (hoverShown st) (alerts st).

Definition withHover (st : State) (hp : list (list Pos)) (r : option Ref)
    : State :=
  mkState (width st) (height st) (board st) hp r (score st)
    (numCells st) (scoreLeft st) (scoreTotal st) (hoverShown st) (alerts st).

Definition withNumCells (st : State) (n : Z) : State :=
  mkState (width st) (height st) (board st) (heap st) (hoverCluster st)
    (score st) n (scoreLeft st) (scoreTotal st) (hoverShown st) (alerts st).

(** ** draw (lines 95-102): reads every [board[x][y].color] *)

Definition draw (w h : Z) (b : list (list Cell)) : bool :=
  forallb (fun y => forallb (fun x => bool_decide (is_Some (getCell b x y)))
                      (zrange w)) (zrange h).

(** ** updateClusters (lines 106-148) *)

(** Lines 109-111: every cluster field becomes [undefined]. *)
Definition clearClusters (w h : Z) (b : list (list Cell))
    : completion (list (list Cell)) :=
  forEach (fun y => forEach (fun x b =>
      match getCell b x y with
      | Some _ => Normal (setCluster b x y None)
      | None => Throw b
      end) (zrange w)) (zrange h) b.

(** [neighbor.cluster && neighbor.cluster.length] *)
Definition hasMembers (hp : list (list Pos)) (cl : option Ref) : bool :=
  match cl with
  | Some r => negb (Nat.eqb (length (deref hp r)) 0)
  | None => false
  end.

Inductive visited : Type :=
| Skipped                                               (* continue *)
| Added (b : list (list Cell)) (hp : list (list Pos))   (* joined the cluster *)
| Failed (b : list (list Cell)) (hp : list (list Pos)). (* TypeError *)

(** One iteration of the while loop (lines 131-144) on the popped pair
    [(ox, oy)]; [(x, y)] is the position of [cell]. *)
Definition visitOne (w h x y : Z) (b : list (list Cell)) (hp : list (list Pos))
    (ox oy : Z) : visited :=
  if (oy <? 0) || (oy =? h) || (ox <? 0) || (ox =? w) then Skipped
  else
    match getCell b ox oy with
    | None => Failed b hp
    | Some neighbor =>
        if hasMembers hp (cluster neighbor) then Skipped
        else
          match getCell b x y with
          | None => Failed b hp
          | Some cell =>
              if bool_decide (color cell = color neighbor) then
                let b1 := setCluster b ox oy (cluster cell) in
                match cluster cell with
                | Some a => Added b1 (push hp a (ox, oy))
                | None => Failed b1 hp
                end
              else Skipped
          end
    end.

(** The four pairs pushed at line 143.  The stack [toVisit] is kept with its
    top first, so the pair pushed last, [(ox, oy + 1)], comes first. *)
Definition neighbours (ox oy : Z) : list Pos :=
  [(ox, oy + 1); (ox, oy - 1); (ox + 1, oy); (ox - 1, oy)].

(** The while loop of lines 130-145. *)
Fixpoint visit (fuel : nat) (w h x y : Z) (b : list (list Cell))
    (hp : list (list Pos)) (toVisit : list Pos)
    : completion (list (list Cell) * list (list Pos)) :=
  match toVisit with
  | [] => Normal (b, hp)
  | (ox, oy) :: rest =>
      match fuel with
      | O => OutOfFuel
      | S fuel' =>
          match visitOne w h x y b hp ox oy with
          | Skipped => visit fuel' w h x y b hp rest
          | Added b' hp' => visit fuel' w h x y b' hp' (neighbours ox oy ++ rest)
          | Failed b' hp' => Throw (b', hp')
          end
      end
  end.

(** The number of cells that are not yet in a cluster with members. *)
Definition unassigned (b : list (list Cell)) (hp : list (list Pos)) : nat :=
  length (filter (fun c => hasMembers hp (cluster c) = false) (concat b)).

(** A bound on the iterations of the while loop: an iteration pops one pair,
    and pushes four only when a cell joins a cluster. *)
Definition visitBound (b : list (list Cell)) (hp : list (list Pos))
    (toVisit : list Pos) : nat :=
  S (4 * unassigned b hp + length toVisit).

(** The body of the scan (lines 118-145) for the cell at [(x, y)]. *)
Definition scanCell (w h y x : Z) (s : list (list Cell) * list (list Pos))
    : completion (list (list Cell) * list (list Pos)) :=
  let '(b, hp) := s in
  match getCell b x y with
  | None => Throw s
  | Some cell =>
      match cluster cell with
      | Some _ => Normal s
      | None =>
          let b1 := setCluster b x y (Some (length hp)) in
          let hp1 := alloc hp in
          match color cell with
          | None => Normal (b1, hp1)
          | Some _ => visit (visitBound b1 hp1 [(x, y)]) w h x y b1 hp1 [(x, y)]
          end
      end
  end.

Definition updateClusters (w h : Z) (b : list (list Cell)) (hp : list (list Pos))
    : completion (list (list Cell) * list (list Pos)) :=
  if draw w h b then
    andThen (fun b' => (b', hp)) (clearClusters w h b) (fun b0 =>
      forEach (fun y => forEach (scanCell w h y) (zrange w)) (zrange h) (b0, hp))
  else Throw (b, hp).

(** ** Hovering (lines 156-183) *)

(** updateHoverScore (lines 181-183). *)
Definition updateHoverScore (ntiles : Z) (st : State) : State :=
  mkState (width st) (height st) (board st) (heap st) (hoverCluster st)
    (score st) (numCells st) (scoreLeft st) (scoreTotal st)
    (ntiles * ntiles) (alerts st).

(** handleHover (lines 156-168). *)
Definition handleHover (ox oy : Z) (st : State) : completion State :=
  match getCell (board st) ox oy with
  | None => Throw st
  | Some c =>
      match cluster c with
      | None => Throw (withHover st (heap st) None)
      | Some r =>
          if 1 <? Z.of_nat (length (deref (heap st) r)) then
            Normal (updateHoverScore (Z.of_nat (length (deref (heap st) r)))
                      (withHover st (heap st) (Some r)))
          else
            Normal (updateHoverScore 0
                      (withHover st (alloc (heap st)) (Some (length (heap st)))))
      end
  end.

(** handleOut (lines 172-177). *)
Definition handleOut (st : State) : completion State :=
  match hoverCluster st with
  | None => Throw st
  | Some r =>
      match deref (heap st) r with
      | [] => Normal st
      | _ :: _ => Normal (updateHoverScore 0 st)
      end
  end.

(** ** Score (lines 192-200) *)

Definition updateScore (ntiles : Z) (st : State) : State :=
  let score' := score st + ntiles * ntiles in
  let left' := Z.max ((50 - numCells st) * 100) 0 in
  mkState (width st) (height st) (board st) (heap st) (hoverCluster st)
    score' (numCells st) (Some left') (Some (score' + left'))
    (hoverShown st) (alerts st).

(** ** checkWin (lines 204-211); [None] is the TypeError *)

(** The pairs [(x, y)] in the order of the loops
    [for (y ...) for (x ...)]. *)
Definition positions (w h : Z) : list Pos :=
  concat (map (fun y => map (fun x => (x, y)) (zrange w)) (zrange h)).

(** The two loops of checkWin over the cells still to inspect: [Some false]
    at the first cell whose cluster has members. *)
Fixpoint checkCells (b : list (list Cell)) (hp : list (list Pos))
    (ps : list Pos) : option bool :=
  match ps with
  | [] => Some true
  | (x, y) :: rest =>
      match getCell b x y with
      | None => None
      | Some c =>
          match cluster c with
          | None => None
          | Some r =>
              if negb (Nat.eqb (length (deref hp r)) 0) then Some false
              else checkCells b hp rest
          end
      end
  end.

Definition checkWin (w h : Z) (b : list (list Cell)) (hp : list (list Pos))
    : option bool :=
  checkCells b hp (positions w h).

(** ** updateGame (lines 47-56) *)

Definition updateGame (st : State) : completion State :=
  andThen id (handleOut st) (fun st1 =>
    match hoverCluster st1 with
    | None => Throw st1
    | Some r =>
        let st2 := updateScore (Z.of_nat (length (deref (heap st1) r))) st1 in
        let st3 := withHover st2 (alloc (heap st2)) (Some (length (heap st2))) in
        andThen (fun s => withBoard st3 (fst s) (snd s))
          (updateClusters (width st3) (height st3) (board st3) (heap st3))
          (fun s =>
             let st4 := withBoard st3 (fst s) (snd s) in
             if draw (width st4) (height st4) (board st4) then
               match checkWin (width st4) (height st4) (board st4) (heap st4) with
               | None => Throw st4
               | Some true =>
                   Normal (mkState (width st4) (height st4) (board st4) (heap st4)
                             (hoverCluster st4) (score st4) (numCells st4)
                             (scoreLeft st4) (scoreTotal st4) (hoverShown st4)
                             (S (alerts st4)))
               | Some false => Normal st4
               end
             else Throw st4)
    end).

(** ** handleClick (lines 221-262) *)

(** [.sort((ax, bx) => bx - ax)]: the numbers in descending order. *)
Fixpoint insertDesc (y : Z) (l : list Z) : list Z :=
  match l with
  | [] => [y]
  | z :: rest => if z <=? y then y :: l else z :: insertDesc y rest
  end.

Definition sortDesc (l : list Z) : list Z := fold_right insertDesc [] l.

(** Lines 229-232: the rows of the cluster's cells of column [x]. *)
Definition clusterRows (hc : list Pos) (x : Z) : list Z :=
  sortDesc (map snd (filter (fun p => fst p =? x) hc)).

(** [col.splice(y, 1)]: a negative start counts from the end, a start past
    the end removes nothing. *)
Definition splice1 {A : Type} (l : list A) (y : Z) : list A :=
  let len := Z.of_nat (length l) in
  let start := if y <? 0 then Z.max (len + y) 0 else Z.min y len in
  take (Z.to_nat start) l ++ drop (S (Z.to_nat start)) l.

(** [n] times [col.unshift({ color: null, cluster: [] })]. *)
Fixpoint unshiftEmpty (n : nat) (col : list Cell) (hp : list (list Pos))
    : list Cell * list (list Pos) :=
  match n with
  | O => (col, hp)
  | S n' => unshiftEmpty n' (emptyCell hp :: col) (alloc hp)
  end.

(** Lines 241-243: the loop runs [height - length] times when the column is
    shorter than [height], and not at all otherwise. *)
Definition padTop (h : Z) (col : list Cell) (hp : list (list Pos))
    : list Cell * list (list Pos) :=
  unshiftEmpty (Z.to_nat (h - Z.of_nat (length col))) col hp.

(** [col.every(c => c.cluster.length === 0)]; [None] is the TypeError of a
    cell whose cluster is [undefined]. *)
Fixpoint everyEmpty (hp : list (list Pos)) (col : list Cell) : option bool :=
  match col with
  | [] => Some true
  | c :: rest =>
      match cluster c with
      | None => None
      | Some r =>
          if Nat.eqb (length (deref hp r)) 0 then everyEmpty hp rest
          else Some false
      end
  end.

(** [col[my] = c]: [my] counts up from 0, so it is at most the length of the
    column, and the column grows by one cell when it is equal. *)
Definition writeAt (col : list Cell) (my : Z) (c : Cell) : list Cell :=
  if my <? Z.of_nat (length col) then <[Z.to_nat my := c]> col else col ++ [c].

(** Lines 250-252, one assignment.  A column right of [x] has [height] cells
    or more when this runs (it was filled up at line 241 in an earlier
    iteration), so [board[mx + 1][my]] is a cell whenever the column exists. *)
Definition shiftCell (w mx my : Z) (s : list (list Cell) * list (list Pos))
    : completion (list (list Cell) * list (list Pos)) :=
  let '(b, hp) := s in
  match zget b mx with
  | None => Throw s
  | Some col =>
      if mx <? w - 1 then
        match getCell b (mx + 1) my with
        | None => Throw s
        | Some c => Normal (<[Z.to_nat mx := writeAt col my c]> b, hp)
        end
      else Normal (<[Z.to_nat mx := writeAt col my (emptyCell hp)]> b, alloc hp)
  end.

(** The indices of [for (let mx = x; mx < w; mx++)]. *)
Definition zfrom (x w : Z) : list Z :=
  map (fun k => x + Z.of_nat k) (seq 0 (Z.to_nat (w - x))).

(** Lines 247-254. *)
Definition shiftLeft (w h x : Z) (s : list (list Cell) * list (list Pos))
    : completion (list (list Cell) * list (list Pos)) :=
  forEach (fun mx => forEach (shiftCell w mx) (zrange h)) (zfrom x w) s.

(** The body of the loop over the columns (lines 228-255); [hc] is the array
    [hoverCluster] refers to. *)
Definition clickColumn (hc : list Pos) (x : Z) (st : State) : completion State :=
  match zget (board st) x with
  | None => Throw st
  | Some col =>
      let ys := clusterRows hc x in
      let col1 := fold_left splice1 ys col in
      let n1 := numCells st - Z.of_nat (length ys) in
      let '(col2, hp2) := padTop (height st) col1 (heap st) in
      let b2 := <[Z.to_nat x := col2]> (board st) in
      let st2 := withNumCells (withBoard st b2 hp2) n1 in
      match everyEmpty hp2 col2 with
      | None => Throw st2
      | Some false => Normal st2
      | Some true =>
          andThen (fun s => withBoard st2 (fst s) (snd s))
            (shiftLeft (width st) (height st) x (b2, hp2))
            (fun s => Normal (withBoard st2 (fst s) (snd s)))
      end
  end.

Definition handleClick (ox oy : Z) (st : State) : completion State :=
  match hoverCluster st with
  | None => Throw st
  | Some r =>
      let hc := deref (heap st) r in
      if Z.of_nat (length hc) <? 2 then Normal st
      else
        andThen id (forEach (clickColumn hc) (rev (zrange (width st))) st)
          (fun st1 => andThen id (updateGame st1) (handleHover ox oy))
  end.

(** ** The constructor (lines 24-43) and randomBoard (lines 63-71)

    [pick x y] is the colour that line 67 draws for the cell of column [x]
    and row [y]: an entry of the palette, the palette having [ncolors]
    entries or more. *)

Fixpoint newColumn (pick : Z -> Color) (ys : list Z) (hp : list (list Pos))
    : list Cell * list (list Pos) :=
  match ys with
  | [] => ([], hp)
  | y :: rest =>
      let c := mkCell (Some (pick y)) (Some (length hp)) in
      let '(col, hp') := newColumn pick rest (alloc hp) in
      (c :: col, hp')
  end.

Fixpoint newColumns (pick : Z -> Z -> Color) (h : Z) (xs : list Z)
    (hp : list (list Pos)) : list (list Cell) * list (list Pos) :=
  match xs with
  | [] => ([], hp)
  | x :: rest =>
      let '(col, hp1) := newColumn (pick x) (zrange h) hp in
      let '(cols, hp2) := newColumns pick h rest hp1 in
      (col :: cols, hp2)
  end.

(** [Array.from({ length: n }, ...)] makes an array for a length below
    2^32, of no entry when the length is negative, and throws a RangeError
    for a length of 2^32 or more. *)
Definition arrayLength (n : Z) : bool := n <? 2 ^ 32.

(** The lengths that randomBoard passes to Array.from: the width, and the
    height once for every column. *)
Definition boardSizes (w h : Z) : bool :=
  arrayLength w && ((w <=? 0) || arrayLength h).

(** randomBoard (lines 63-71); [None] is the RangeError. *)
Definition randomBoard (w h : Z) (pick : Z -> Z -> Color) (hp : list (list Pos))
    : option (list (list Cell) * list (list Pos)) :=
  if boardSizes w h then Some (newColumns pick h (zrange w) hp) else None.

(** The constructor; the RangeError of randomBoard ends it at line 38, with
    no board. *)
Definition construct (w h : Z) (pick : Z -> Z -> Color) : completion State :=
  match randomBoard w h pick [[]] with
  | None => Throw (mkState w h [] [[]] (Some 0%nat) 0 (h * w) None None 0 0)
  | Some (b, hp) =>
      let st0 := mkState w h b hp (Some 0%nat) 0 (h * w) None None 0 0 in
      andThen id (updateGame st0) (fun st => Normal (updateHoverScore 0 st))
  end.

(** ** Runs of the game: the handlers bound to the cells at lines 84-86 *)

Inductive event : Type :=
| Hover (x y : Z)
| Out
| Click (x y : Z).

Definition handle (e : event) (st : State) : completion State :=
  match e with
  | Hover x y => handleHover x y st
  | Out => handleOut st
  | Click x y => handleClick x y st
  end.

(** The state an event leaves behind; an uncaught exception leaves the state
    it was raised in. *)
Definition after (c : completion State) (st' : State) : Prop :=
  c = Normal st' \/ c = Throw st'.

Inductive reachable (w h : Z) (pick : Z -> Z -> Color) : State -> Prop :=
| reach_init st :
    construct w h pick = Normal st -> reachable w h pick st
| reach_step st e st' :
    reachable w h pick st -> after (handle e st) st' -> reachable w h pick st'.

(** ** Notions used to state the properties *)

(** A [w] by [h] array of columns. *)
Definition shaped {A : Type} (w h : Z) (m : list (list A)) : Prop :=
  length m = Z.to_nat w /\ Forall (fun col => length col = Z.to_nat h) m.

Definition inb (w h : Z) (p : Pos) : Prop :=
  0 <= fst p < w /\ 0 <= snd p < h.

(** The colours of a board, column by column. *)
Definition colorsOf (b : list (list Cell)) : list (list (option Color)) :=
  map (map color) b.

(** The colour at a position: [Some (Some c)] on a tile of colour [c],
    [Some None] on an empty cell, [None] outside the board. *)
Definition colorAt (g : list (list (option Color))) (p : Pos)
    : option (option Color) :=
  at2 g (fst p) (snd p).

(** The cell at a position. *)
Definition cellAt (b : list (list Cell)) (q : Pos) : option Cell :=
  getCell b (fst q) (snd q).

Definition adj (p q : Pos) : Prop := q ∈ neighbours (fst p) (snd p).

(** Two adjacent tiles of the same colour. *)
Definition link (g : list (list (option Color))) (p q : Pos) : Prop :=
  adj p q /\ exists c, colorAt g p = Some (Some c) /\ colorAt g q = Some (Some c).

(** [q] is reached from [p] through adjacent tiles of one colour. *)
Definition conn (g : list (list (option Color))) : relation Pos := rtc (link g).

(** The cell at [(x, y)] has its cluster: an empty array on an empty cell,
    and on a tile the array shared by the tiles connected to it, which
    lists exactly these tiles, each once. *)
Definition clusterOk (b : list (list Cell)) (hp : list (list Pos))
    (x y : Z) (c : Cell) (r : Ref) : Prop :=
  (r < length hp)%nat /\
  match color c with
  | None => deref hp r = []
  | Some _ =>
      NoDup (deref hp r) /\
      (forall q, q ∈ deref hp r <-> conn (colorsOf b) (x, y) q) /\
      (forall q cq, q ∈ deref hp r -> cellAt b q = Some cq ->
                    cluster cq = Some r)
  end.

(** Every cell that has a cluster has the right one. *)
Definition partial (b : list (list Cell)) (hp : list (list Pos)) : Prop :=
  forall x y c r, getCell b x y = Some c -> cluster c = Some r ->
    clusterOk b hp x y c r.

(** Every cell has its cluster. *)
Definition clustered (b : list (list Cell)) (hp : list (list Pos)) : Prop :=
  forall x y c, getCell b x y = Some c ->
    exists r, cluster c = Some r /\ clusterOk b hp x y c r.

(** The size of the cluster of the cell at [(x, y)]. *)
Definition clusterSize (st : State) (x y : Z) : option nat :=
  match getCell (board st) x y with
  | Some c =>
      match cluster c with
      | Some r => Some (length (deref (heap st) r))
      | None => None
      end
  | None => None
  end.

(** The tiles of a column and of a board. *)
Definition tiles (col : list (option Color)) : nat :=
  length (filter (fun c => c <> None) col).

Definition tilesOf (b : list (list Cell)) : Z :=
  Z.of_nat (tiles (concat (colorsOf b))).

(** A column without a tile. *)
Definition emptyCol (col : list (option Color)) : bool :=
  forallb (fun c => bool_decide (c = None)) col.

(** No column with a tile lies to the right of a column without one. *)
Definition emptySuffix (g : list (list (option Color))) : Prop :=
  forall i j ci cj, (i < j)%nat -> g !! i = Some ci -> g !! j = Some cj ->
    emptyCol ci = true -> emptyCol cj = true.

(** The array [hoverCluster] refers to. *)
Definition hoverArray (st : State) : list Pos :=
  match hoverCluster st with
  | Some r => deref (heap st) r
  | None => []
  end.

(** ** Invariants of the loops and of the game

    These are used in the proofs only. *)

(** The invariant of the while loop of updateClusters.  [b0] and [hp0] are
    the board and the arrays before line 123 runs for the cell at [(x, y)],
    a tile of colour [c0]; the array under construction is the one that
    line 123 allocates, at reference [length hp0]. *)
Record visitInvariant (w h x y : Z) (c0 : Color) (b0 : list (list Cell))
    (hp0 : list (list Pos)) (b : list (list Cell)) (hp : list (list Pos))
    (tv : list Pos) : Prop := {
  vi_colors : colorsOf b = colorsOf b0;
  vi_len : length hp = S (length hp0);
  vi_old : forall r, (r < length hp0)%nat -> hp !! r = hp0 !! r;
  vi_cells : forall q cq, cellAt b0 q = Some cq ->
      (cellAt b q = Some cq /\ (q ∉ deref hp (length hp0)) /\ q <> (x, y)) \/
      (cellAt b q = Some (mkCell (color cq) (Some (length hp0))) /\
       cluster cq = None /\
       (q ∈ deref hp (length hp0) \/ q = (x, y)));
  vi_nodup : NoDup (deref hp (length hp0));
  vi_conn : forall q, q ∈ deref hp (length hp0) -> conn (colorsOf b0) (x, y) q;
  vi_start : (deref hp (length hp0) = [] /\ tv = [(x, y)]) \/
             (x, y) ∈ deref hp (length hp0);
  vi_stack : forall t, t ∈ tv ->
      t = (x, y) \/ exists q, q ∈ deref hp (length hp0) /\ adj q t;
  vi_closed : forall q t, q ∈ deref hp (length hp0) -> adj q t ->
      t ∈ tv \/ ~ inb w h t \/ colorAt (colorsOf b0) t <> Some (Some c0) \/
      exists ct, cellAt b t = Some ct /\ hasMembers hp (cluster ct) = true
}.
Arguments vi_colors {w h x y c0 b0 hp0 b hp tv} _.
Arguments vi_len {w h x y c0 b0 hp0 b hp tv} _.
Arguments vi_old {w h x y c0 b0 hp0 b hp tv} _ _ _.
Arguments vi_cells {w h x y c0 b0 hp0 b hp tv} _ _ _ _.
Arguments vi_nodup {w h x y c0 b0 hp0 b hp tv} _.
Arguments vi_conn {w h x y c0 b0 hp0 b hp tv} _ _ _.
Arguments vi_start {w h x y c0 b0 hp0 b hp tv} _.
Arguments vi_stack {w h x y c0 b0 hp0 b hp tv} _ _ _.
Arguments vi_closed {w h x y c0 b0 hp0 b hp tv} _ _ _ _ _.

(** What the scan has established so far, [hp0] being the arrays before
    updateClusters ran. *)
Definition scanned (w h : Z) (g : list (list (option string)))
    (hp0 : list (list (Z * Z))) (done : list (Z * Z))
    (s : list (list Cell) * list (list (Z * Z))) : Prop :=
  colorsOf (fst s) = g /\ partial (fst s) (snd s) /\
  (length hp0 <= length (snd s))%nat /\
  (forall r, (r < length hp0)%nat -> snd s !! r = hp0 !! r) /\
  (forall q c, q ∈ done -> cellAt (fst s) q = Some c -> cluster c <> None).

(** Rows listed from the bottom of the column to its top, each once. *)
Definition descending (ys : list Z) : Prop :=
  StronglySorted (fun a b => b < a) ys.

(** The removed rows below row [t]. *)
Definition below (ys : list Z) (t : Z) : nat :=
  length (filter (fun r => t < r) ys).

(** The removed rows above row [t]. *)
Definition above (ys : list Z) (t : Z) : nat :=
  length (filter (fun r => r < t) ys).

(** The cluster of the cell is an array, which is empty exactly when the
    cell is. *)
Definition cellTidy (hp : list (list (Z * Z))) (c : Cell) : Prop :=
  exists r, cluster c = Some r /\ (r < length hp)%nat /\
            (color c = None <-> deref hp r = []).

(** This holds of every cell of the board. *)
Definition tidy (b : list (list Cell)) (hp : list (list (Z * Z))) : Prop :=
  Forall (Forall (cellTidy hp)) b.

(** [hp'] keeps the arrays of [hp]. *)
Definition extends (hp hp' : list (list (Z * Z))) : Prop :=
  (length hp <= length hp')%nat /\
  forall r, (r < length hp)%nat -> hp' !! r = hp !! r.

(** Gravity on the colours of column [x]. *)
Definition gravityColors (h : Z) (hc : list (Z * Z)) (x : Z)
    (cs : list (option string)) : list (option string) :=
  let cs1 := fold_left splice1 (clusterRows hc x) cs in
  repeat None (Z.to_nat (h - Z.of_nat (length cs1))) ++ cs1.

(** The fields a removal does not touch. *)
Definition sameSession (st st' : State) : Prop :=
  width st' = width st /\ height st' = height st /\
  hoverCluster st' = hoverCluster st /\ score st' = score st /\
  scoreLeft st' = scoreLeft st /\ scoreTotal st' = scoreTotal st /\
  hoverShown st' = hoverShown st /\ alerts st' = alerts st.

(** What lines 228-255 do to the colours, for column [x]. *)
Definition stepColors (h : Z) (hc : list (Z * Z)) (x : nat)
    (g : list (list (option string))) : list (list (option string)) :=
  match g !! x with
  | None => g
  | Some cs =>
      let cs' := gravityColors h hc (Z.of_nat x) cs in
      if emptyCol cs' then take x g ++ drop (S x) g ++ [repeat None (Z.to_nat h)]
      else <[x := cs']> g
  end.

(** The columns from [x0] on, once the loop has run over them, from the
    right to the left. *)
Fixpoint settle (h : Z) (hc : list (Z * Z)) (x0 : nat)
    (g : list (list (option string))) : list (list (option string)) :=
  match g with
  | [] => []
  | cs :: rest =>
      let rest' := settle h hc (S x0) rest in
      let cs' := gravityColors h hc (Z.of_nat x0) cs in
      if emptyCol cs' then rest' ++ [repeat None (Z.to_nat h)] else cs' :: rest'
  end.

(** The entries of the cluster in the columns [lo .. hi-1]. *)
Definition entriesIn (hc : list (Z * Z)) (lo hi : Z) : nat :=
  length (filter (fun p => lo <= fst p < hi) hc).

(** The gravity of every column, column [x0] first. *)
Fixpoint gravityAll (h : Z) (hc : list (Z * Z)) (x0 : nat)
    (g : list (list (option string))) : list (list (option string)) :=
  match g with
  | [] => []
  | cs :: rest =>
      gravityColors h hc (Z.of_nat x0) cs :: gravityAll h hc (S x0) rest
  end.

(** Column [x] loses its last tile when the cluster [hc] is removed: it has
    as many tiles as the cluster has cells in it. *)
Definition cleared (g : list (list (option Color))) (hc : list Pos) (x : Z)
    : bool :=
  bool_decide (tiles (default [] (zget g x)) =
               length (filter (fun p => fst p = x) hc)).

(** The columns left of column [x] that keep a tile: the index of column [x]
    once the gaps are closed. *)
Definition keptLeft (g : list (list (option Color))) (hc : list Pos) (x : Z)
    : Z :=
  Z.of_nat (length (filter (fun i => cleared g hc i = false) (zrange x))).

(** A run of events. *)
Inductive runs : State -> list event -> State -> Prop :=
| runs_nil st : runs st [] st
| runs_cons st e st1 es st2 :
    after (handle e st) st1 -> runs st1 es st2 -> runs st (e :: es) st2.

(** What holds of the game object between two events. *)
Record valid (st : State) : Prop := {
  v_width : 0 <= width st;
  v_height : 0 <= height st;
  v_shaped : shaped (width st) (height st) (board st);
  v_clustered : clustered (board st) (heap st);
  v_hover : exists r, hoverCluster st = Some r /\ (r < length (heap st))%nat /\
      (deref (heap st) r = [] \/
       exists x y c, getCell (board st) x y = Some c /\ cluster c = Some r);
  v_numCells : numCells st = tilesOf (board st);
  v_suffix : emptySuffix (colorsOf (board st));
  v_scoreLeft : scoreLeft st = Some (Z.max ((50 - numCells st) * 100) 0);
  v_scoreTotal :
    scoreTotal st = Some (score st + Z.max ((50 - numCells st) * 100) 0)
}.

(** ** Sample games *)

Definition noState : State := mkState 0 0 [] [] None 0 0 None None 0 0.

(** The state a handler leaves behind. *)
Definition stateOf (c : completion State) : State :=
  match c with
  | Normal s => s
  | Throw s => s
  | OutOfFuel => noState
  end.

(** One row [red, red]. *)
Definition twoReds (x y : Z) : string := "red".

(** One row [red, blue, red]. *)
Definition redBlueRed (x y : Z) : string := if x =? 1 then "blue" else "red".

(** One row [red, red, blue]. *)
Definition redRedBlue (x y : Z) : string := if x =? 2 then "blue" else "red".

(** One column, from the top: red, red, blue. *)
Definition redRedBlueColumn (x y : Z) : string :=
  if y =? 2 then "blue" else "red".

(** Columns [red, red], [blue, blue] and [red, green], from the top. *)
Definition threeColumns (x y : Z) : string :=
  if x =? 1 then "blue" else if (x =? 2) && (y =? 1) then "green" else "red".

(** The games the constructor builds from these colours. *)
Definition game21 : State := Eval vm_compute in stateOf (construct 2 1 twoReds).

Definition game31 : State := Eval vm_compute in stateOf (construct 3 1 redBlueRed).

Definition game31b : State := Eval vm_compute in stateOf (construct 3 1 redRedBlue).

Definition game13 : State :=
  Eval vm_compute in stateOf (construct 1 3 redRedBlueColumn).

Definition game32 : State := Eval vm_compute in stateOf (construct 3 2 threeColumns).

(** The same games with the pointer over the cell [(0, 0)]. *)
Definition game21h : State := Eval vm_compute in stateOf (handleHover 0 0 game21).

Definition game31bh : State := Eval vm_compute in stateOf (handleHover 0 0 game31b).

Definition game13h : State := Eval vm_compute in stateOf (handleHover 0 0 game13).

(** The pointer over the blue column. *)
Definition game32h : State := Eval vm_compute in stateOf (handleHover 1 0 game32).

(** The board of three columns after the blue column was removed. *)
Definition game32c : State := Eval vm_compute in stateOf (handleClick 1 0 game32h).

(** Columns [green, blue, blue], [blue, blue, blue] and [red, green, red],
    from the top. *)
Definition threeByThree (x y : Z) : string :=
  if x =? 1 then "blue"
  else if x =? 0 then (if y =? 0 then "green" else "blue")
  else (if y =? 1 then "green" else "red").

Definition game33 : State := Eval vm_compute in stateOf (construct 3 3 threeByThree).

(** The pointer over the five blue cells. *)
Definition game33h : State := Eval vm_compute in stateOf (handleHover 1 1 game33).

(** ** Further invariants of the game *)

(** [a] may lie above [b] in a column: it is empty, or [b] is a tile. *)
Definition tileOrder (a b : option Color) : Prop := a = None \/ b <> None.

(** The tiles of the column lie at its bottom. *)
Definition settledCol (col : list (option Color)) : Prop :=
  StronglySorted tileOrder col.

(** What holds besides [valid] between two events. *)
Record steady (st : State) : Prop := {
  s_gravity : Forall settledCol (colorsOf (board st));
  s_hover : hoverArray st = [] \/ (2 <= length (hoverArray st))%nat;
  s_shown : hoverShown st = 0 \/
            hoverShown st =
              Z.of_nat (length (hoverArray st)) * Z.of_nat (length (hoverArray st));
  s_alerts : alerts st = if decide (numCells st = 0) then 1%nat else 0%nat;
  s_cells : 0 <= numCells st <= width st * height st;
  s_score : 2 * (width st * height st - numCells st) <= score st /\
            score st <= (width st * height st - numCells st) *
                        (width st * height st - numCells st)
}.

(** The row [red, red] after the removal of its two cells. *)
Definition game21c : State := Eval vm_compute in stateOf (handleClick 0 0 game21h).

(** The row [red, blue, red] after a hover and a click on its first cell. *)
Definition game31x : State :=
  Eval vm_compute in
    stateOf (handleClick 0 0 (stateOf (handleHover 0 0 game31))).

(** The tiles of colour [c] among the cells [l]. *)
Definition countColor (c : Color) (l : list (option Color)) : nat :=
  length (filter (fun o => o = Some c) l).

(** ** The table of the page

    The rows of table cells that createHTMLTable appends to [#board].  Of a
    cell the program uses its id, the listeners it binds to it, the colour
    it writes to its style and the class "hovering", which it adds to its
    class list and removes from it.  The page has the elements [#board],
    [#hover], [#score], [#score-left] and [#score-total], and no element of
    its own with an id [c-x-y].

    The browser takes a string as the background colour of a cell only when
    it is a CSS colour: [css s] tells whether it takes [s]. *)

Record Td := mkTd {
  td_id : string;
  mouseover : event;                 (* handleHover.bind(this, x, y) *)
  mouseout : event;                  (* handleOut.bind(this, x, y) *)
  click : event;                     (* handleClick.bind(this, x, y) *)
  backgroundColor : option Color;    (* the colour of the style, as the string
                                        that set it; None when it has none *)
  hovering : bool                    (* "hovering" is in the class list *)
}.

(** The game object and the rows of [#board]. *)
Record World := mkWorld {
  game : State;
  page : list (list Td)
}.

(** The template literal [`c-${x}-${y}`] of lines 83, 98, 161 and 174. *)
Definition cellId (x y : Z) : string :=
  "c-" +:+ pretty x +:+ "-" +:+ pretty y.

(** Lines 80-88: the row [y] of the table. *)
Definition newRow (w y : Z) : list Td :=
  map (fun x => mkTd (cellId x y) (Hover x y) Out (Click x y) None false)
      (zrange w).

(** createHTMLTable (lines 78-91); [rows] are the rows [#board] has
    already. *)
Definition createHTMLTable (w h : Z) (rows : list (list Td)) : list (list Td) :=
  rows ++ map (newRow w) (zrange h).

(** [document.querySelector(`#${id}`)] and a write [f] to the cell found,
    which is the first one with this id; [None] when querySelector finds
    none and returns null. *)
Fixpoint updateRow (id : string) (f : Td -> Td) (row : list Td)
    : option (list Td) :=
  match row with
  | [] => None
  | td :: rest =>
      if decide (td_id td = id) then Some (f td :: rest)
      else cons td <$> updateRow id f rest
  end.

Fixpoint updateCell (id : string) (f : Td -> Td) (rows : list (list Td))
    : option (list (list Td)) :=
  match rows with
  | [] => None
  | row :: rest =>
      match updateRow id f row with
      | Some row' => Some (row' :: rest)
      | None => cons row <$> updateCell id f rest
      end
  end.

(** What the style holds after [style.backgroundColor = c], [old] being what
    it held before: null and the empty string take the colour away, a CSS
    colour replaces it, and any other string is dropped. *)
Definition setColor (css : string -> bool) (c : option Color)
    (old : option Color) : option Color :=
  match c with
  | None => None
  | Some s => if css s then Some s else if decide (s = "") then None else old
  end.

(** [cell.style.backgroundColor = c] *)
Definition paint (css : string -> bool) (c : option Color) (td : Td) : Td :=
  mkTd (td_id td) (mouseover td) (mouseout td) (click td)
    (setColor css c (backgroundColor td)) (hovering td).

(** [cell.classList.add("hovering")] and [cell.classList.remove("hovering")] *)
Definition setHovering (v : bool) (td : Td) : Td :=
  mkTd (td_id td) (mouseover td) (mouseout td) (click td) (backgroundColor td) v.

(** Lines 98-99, for the cell at [(x, y)]. *)
Definition drawCell (css : string -> bool) (b : list (list Cell)) (y x : Z)
    (rows : list (list Td)) : completion (list (list Td)) :=
  match getCell b x y with
  | None => Throw rows
  | Some c =>
      match updateCell (cellId x y) (paint css (color c)) rows with
      | None => Throw rows
      | Some rows' => Normal rows'
      end
  end.

(** draw (lines 95-102), with what it writes to the page. *)
Definition draw_dom (css : string -> bool) (w h : Z) (b : list (list Cell))
    (rows : list (list Td)) : completion (list (list Td)) :=
  forEach (fun y => forEach (drawCell css b y) (zrange w)) (zrange h) rows.

(** Lines 161 and 174, for one pair of the cluster. *)
Definition markCell (v : bool) (p : Pos) (rows : list (list Td))
    : completion (list (list Td)) :=
  match updateCell (cellId (fst p) (snd p)) (setHovering v) rows with
  | None => Throw rows
  | Some rows' => Normal rows'
  end.

(** handleHover (lines 156-168), with what it writes to the page. *)
Definition handleHover_dom (ox oy : Z) (wd : World) : completion World :=
  let st := game wd in
  match getCell (board st) ox oy with
  | None => Throw wd
  | Some c =>
      match cluster c with
      | None => Throw (mkWorld (withHover st (heap st) None) (page wd))
      | Some r =>
          let hc := deref (heap st) r in
          if 1 <? Z.of_nat (length hc) then
            let st1 := withHover st (heap st) (Some r) in
            match forEach (markCell true) hc (page wd) with
            | Normal rows' =>
                Normal (mkWorld (updateHoverScore (Z.of_nat (length hc)) st1) rows')
            | Throw rows' => Throw (mkWorld st1 rows')
            | OutOfFuel => OutOfFuel
            end
          else
            Normal (mkWorld
              (updateHoverScore 0
                 (withHover st (alloc (heap st)) (Some (length (heap st)))))
              (page wd))
      end
  end.

(** The body of the loop of handleOut (lines 174-175). *)
Definition outCell (p : Pos) (wd : World) : completion World :=
  match markCell false p (page wd) with
  | Normal rows' => Normal (mkWorld (updateHoverScore 0 (game wd)) rows')
  | Throw rows' => Throw (mkWorld (game wd) rows')
  | OutOfFuel => OutOfFuel
  end.

(** handleOut (lines 172-177), with what it writes to the page. *)
Definition handleOut_dom (wd : World) : completion World :=
  match hoverCluster (game wd) with
  | None => Throw wd
  | Some r => forEach outCell (deref (heap (game wd)) r) wd
  end.

(** updateGame (lines 47-56), with what it writes to the page; draw runs
    twice, at line 107 and at line 52. *)
Definition updateGame_dom (css : string -> bool) (wd : World)
    : completion World :=
  andThen id (handleOut_dom wd) (fun wd1 =>
    let st1 := game wd1 in
    match hoverCluster st1 with
    | None => Throw wd1
    | Some r =>
        let st2 := updateScore (Z.of_nat (length (deref (heap st1) r))) st1 in
        let st3 := withHover st2 (alloc (heap st2)) (Some (length (heap st2))) in
        match draw_dom css (width st3) (height st3) (board st3) (page wd1) with
        | Throw rows2 => Throw (mkWorld st3 rows2)
        | OutOfFuel => OutOfFuel
        | Normal rows2 =>
            match updateClusters (width st3) (height st3) (board st3) (heap st3) with
            | Throw s => Throw (mkWorld (withBoard st3 (fst s) (snd s)) rows2)
            | OutOfFuel => OutOfFuel
            | Normal s =>
                let st4 := withBoard st3 (fst s) (snd s) in
                match draw_dom css (width st4) (height st4) (board st4) rows2 with
                | Throw rows3 => Throw (mkWorld st4 rows3)
                | OutOfFuel => OutOfFuel
                | Normal rows3 =>
                    match checkWin (width st4) (height st4) (board st4) (heap st4) with
                    | None => Throw (mkWorld st4 rows3)
                    | Some true =>
                        Normal (mkWorld
                          (mkState (width st4) (height st4) (board st4) (heap st4)
                             (hoverCluster st4) (score st4) (numCells st4)
                             (scoreLeft st4) (scoreTotal st4) (hoverShown st4)
                             (S (alerts st4)))
                          rows3)
                    | Some false => Normal (mkWorld st4 rows3)
                    end
                end
            end
        end
    end).

(** handleClick (lines 221-262), with what it writes to the page. *)
Definition handleClick_dom (css : string -> bool) (ox oy : Z) (wd : World)
    : completion World :=
  let st := game wd in
  match hoverCluster st with
  | None => Throw wd
  | Some r =>
      let hc := deref (heap st) r in
      if Z.of_nat (length hc) <? 2 then Normal wd
      else
        match forEach (clickColumn hc) (rev (zrange (width st))) st with
        | Normal st1 =>
            andThen id (updateGame_dom css (mkWorld st1 (page wd)))
              (handleHover_dom ox oy)
        | Throw st1 => Throw (mkWorld st1 (page wd))
        | OutOfFuel => OutOfFuel
        end
  end.

(** The constructor (lines 24-43), with the table it creates; [rows] are
    the rows [#board] has before. *)
Definition construct_dom (css : string -> bool) (w h : Z)
    (pick : Z -> Z -> Color) (rows : list (list Td)) : completion World :=
  match randomBoard w h pick [[]] with
  | None =>
      Throw (mkWorld (mkState w h [] [[]] (Some 0%nat) 0 (h * w) None None 0 0)
               rows)
  | Some (b, hp) =>
      let st0 := mkState w h b hp (Some 0%nat) 0 (h * w) None None 0 0 in
      andThen id (updateGame_dom css (mkWorld st0 (createHTMLTable w h rows)))
        (fun wd => Normal (mkWorld (updateHoverScore 0 (game wd)) (page wd)))
  end.

(** The call that a listener makes. *)
Definition handle_dom (css : string -> bool) (e : event) (wd : World)
    : completion World :=
  match e with
  | Hover x y => handleHover_dom x y wd
  | Out => handleOut_dom wd
  | Click x y => handleClick_dom css x y wd
  end.

(** ** Notions used to state the properties of the page *)

(** The rows are the table of a board of [w] columns and [h] rows: row [y]
    holds the cells [c-0-y], [c-1-y], ... with their listeners. *)
Definition tablePage (w h : Z) (rows : list (list Td)) : Prop :=
  shaped h w rows /\
  forall x y td, at2 rows y x = Some td ->
    td_id td = cellId x y /\ mouseover td = Hover x y /\
    mouseout td = Out /\ click td = Click x y.

(** The colour that the cell of the table at position [p] shows. *)
Definition shownAt (rows : list (list Td)) (p : Pos) : option (option Color) :=
  backgroundColor <$> at2 rows (snd p) (fst p).

(** Whether the cell of the table at position [p] is highlighted. *)
Definition markedAt (rows : list (list Td)) (p : Pos) : option bool :=
  hovering <$> at2 rows (snd p) (fst p).

(** The tiles of [g] have CSS colours. *)
Definition cssColors (css : string -> bool) (g : list (list (option Color)))
    : Prop :=
  forall p c, colorAt g p = Some (Some c) -> css c = true.

(** The colours drawn for the cells of a board of [w] columns and [h] rows
    are CSS colours. *)
Definition cssPick (css : string -> bool) (w h : Z) (pick : Z -> Z -> Color)
    : Prop :=
  forall x y, inb w h (x, y) -> css (pick x y) = true.

(** The table shows the colours [g]. *)
Definition paintedAs (w h : Z) (g : list (list (option Color)))
    (rows : list (list Td)) : Prop :=
  forall p, inb w h p -> shownAt rows p = colorAt g p.

(** The highlighted cells of the table are the cells [hc]. *)
Definition markedAs (w h : Z) (hc : list Pos) (rows : list (list Td)) : Prop :=
  forall p, inb w h p -> markedAt rows p = Some (bool_decide (p ∈ hc)).

(** The game in the browser: the pointer is over the cell of the table at
    a position, or over none.  It enters a cell (mouseover), clicks on the
    cell it is over, and leaves it (mouseout); each event calls the listener
    that createHTMLTable has bound to the cell. *)
Inductive session (css : string -> bool) (w h : Z) (pick : Z -> Z -> Color)
    : option Pos -> World -> Prop :=
| session_new wd :
    construct_dom css w h pick [] = Normal wd -> session css w h pick None wd
| session_over p td wd wd' :
    session css w h pick None wd ->
    at2 (page wd) (snd p) (fst p) = Some td ->
    handle_dom css (mouseover td) wd = Normal wd' ->
    session css w h pick (Some p) wd'
| session_click p td wd wd' :
    session css w h pick (Some p) wd ->
    at2 (page wd) (snd p) (fst p) = Some td ->
    handle_dom css (click td) wd = Normal wd' ->
    session css w h pick (Some p) wd'
| session_out p td wd wd' :
    session css w h pick (Some p) wd ->
    at2 (page wd) (snd p) (fst p) = Some td ->
    handle_dom css (mouseout td) wd = Normal wd' ->
    session css w h pick None wd'.

(** The cells under the pointer that are highlighted in a session. *)
Definition highlighted (ptr : option Pos) (st : State) : list Pos :=
  match ptr with
  | Some _ => hoverArray st
  | None => []
  end.

(** No character of the string is a dash. *)
Fixpoint noDash (s : string) : Prop :=
  match s with
  | EmptyString => True
  | String a s' => a <> "-"%char /\ noDash s'
  end.

(** The page a method leaves behind. *)
Definition noWorld : World := mkWorld noState [].

Definition worldOf (c : completion World) : World :=
  match c with
  | Normal wd => wd
  | Throw wd => wd
  | OutOfFuel => noWorld
  end.

(** The colours of the vocabulary of line 28, which are CSS colours. *)
Definition vocabulary (s : string) : bool :=
  bool_decide (s ∈ ["green"; "blue"; "red"; "orange"; "brown"; "pink"]).

(** The board of three columns on its page: new, with the pointer over the
    blue column, after a click there, and after the pointer has left. *)
Definition world32 : World :=
  Eval vm_compute in worldOf (construct_dom vocabulary 3 2 threeColumns []).

Definition world32h : World :=
  Eval vm_compute in worldOf (handleHover_dom 1 0 world32).

Definition world32c : World :=
  Eval vm_compute in worldOf (handleClick_dom vocabulary 1 0 world32h).

Definition world32o : World :=
  Eval vm_compute in worldOf (handleOut_dom world32c).

(** ** The length of a game *)

(** The state after the events [es]. *)
Fixpoint play (es : list event) (st : State) : State :=
  match es with
  | [] => st
  | e :: rest => play rest (stateOf (handle e st))
  end.

(** The events among [es] that take tiles from the board, [st] being the
    state before them. *)
Fixpoint removals (es : list event) (st : State) : nat :=
  match es with
  | [] => 0
  | e :: rest =>
      let st' := stateOf (handle e st) in
      if numCells st' <? numCells st then S (removals rest st')
      else removals rest st'
  end.

(** ** Basic facts on indices, loops and the heap *)

Lemma zget_Some {A : Type} (l : list A) (i : Z) (a : A) :
  zget l i = Some a <-> 0 <= i /\ l !! Z.to_nat i = Some a.
Proof.
  unfold zget. destruct (Z.ltb_spec i 0); split.
  - discriminate.
  - intros [? _]. lia.
  - auto.
  - tauto.
Qed.

Lemma zget_range {A : Type} (l : list A) (i : Z) (a : A) :
  zget l i = Some a -> 0 <= i < Z.of_nat (length l).
Proof.
  intros [H0 H]%zget_Some. apply lookup_lt_Some in H. lia.
Qed.

Lemma zget_is_Some {A : Type} (l : list A) (i : Z) :
  0 <= i < Z.of_nat (length l) -> is_Some (zget l i).
Proof.
  intros H. unfold zget. destruct (Z.ltb_spec i 0); [lia|].
  apply lookup_lt_is_Some. lia.
Qed.

Lemma zget_None {A : Type} (l : list A) (i : Z) :
  ~ (0 <= i < Z.of_nat (length l)) -> zget l i = None.
Proof.
  intros H. destruct (zget l i) eqn:E; [|done].
  apply zget_range in E. lia.
Qed.

Lemma zget_map {A B : Type} (f : A -> B) (l : list A) (i : Z) :
  zget (map f l) i = f <$> zget l i.
Proof.
  unfold zget. destruct (i <? 0); [done|].
  change (map f l) with (f <$> l). apply list_lookup_fmap.
Qed.

Lemma at2_map {A B : Type} (f : A -> B) (m : list (list A)) (x y : Z) :
  at2 (map (map f) m) x y = f <$> at2 m x y.
Proof.
  unfold at2. rewrite zget_map. destruct (zget m x); simpl; [|done].
  apply zget_map.
Qed.

Lemma at2_Some {A : Type} (m : list (list A)) (x y : Z) (a : A) :
  at2 m x y = Some a <->
  exists col, 0 <= x /\ 0 <= y /\ m !! Z.to_nat x = Some col /\
              col !! Z.to_nat y = Some a.
Proof.
  unfold at2. split.
  - destruct (zget m x) as [col|] eqn:E; [|done]. intros H.
    apply zget_Some in E as [? ?]. apply zget_Some in H as [? ?]. eauto 6.
  - intros (col & ? & ? & Hc & Ha).
    assert (zget m x = Some col) as -> by (apply zget_Some; done).
    apply zget_Some; done.
Qed.

Lemma at2_inb {A : Type} (w h : Z) (m : list (list A)) (x y : Z) (a : A) :
  shaped w h m -> at2 m x y = Some a -> inb w h (x, y).
Proof.
  intros [Hw Hh] (col & ? & ? & Hc & Ha)%at2_Some.
  pose proof (lookup_lt_Some _ _ _ Hc).
  pose proof (lookup_lt_Some _ _ _ Ha).
  rewrite Forall_forall in Hh.
  assert (length col = Z.to_nat h) by (apply Hh; eapply list_elem_of_lookup_2; done).
  unfold inb; simpl. lia.
Qed.

Lemma at2_is_Some {A : Type} (w h : Z) (m : list (list A)) (x y : Z) :
  shaped w h m -> inb w h (x, y) -> is_Some (at2 m x y).
Proof.
  intros [Hw Hh] [Hx Hy]; simpl in *.
  destruct (lookup_lt_is_Some_2 m (Z.to_nat x)) as [col Hc]; [lia|].
  rewrite Forall_forall in Hh.
  assert (length col = Z.to_nat h) by (apply Hh; eapply list_elem_of_lookup_2; done).
  destruct (lookup_lt_is_Some_2 col (Z.to_nat y)) as [a Ha]; [lia|].
  exists a. apply at2_Some. exists col. repeat split; try done; lia.
Qed.

Lemma elem_of_zrange (n i : Z) : i ∈ zrange n <-> 0 <= i < n.
Proof.
  unfold zrange. change (map Z.of_nat) with (fmap (M:=list) Z.of_nat).
  rewrite list_elem_of_fmap. split.
  - intros (k & -> & Hk). apply elem_of_seq in Hk. lia.
  - intros H. exists (Z.to_nat i). split; [lia|]. apply elem_of_seq. lia.
Qed.

Lemma shaped_colorsOf (w h : Z) (b : list (list Cell)) :
  shaped w h (colorsOf b) <-> shaped w h b.
Proof.
  unfold shaped, colorsOf. rewrite length_map, Forall_map.
  split; intros [? H]; (split; [done|]); eapply Forall_impl; try exact H;
    simpl; intros col; rewrite length_map; done.
Qed.

Lemma colorAt_colorsOf (b : list (list Cell)) (x y : Z) :
  colorAt (colorsOf b) (x, y) = color <$> getCell b x y.
Proof. unfold colorAt, colorsOf, getCell. simpl. apply at2_map. Qed.

(** ** Loops *)

Lemma forEach_app {I S : Type} (body : I -> S -> completion S)
    (l1 l2 : list I) (s : S) :
  forEach body (l1 ++ l2) s =
  match forEach body l1 s with
  | Normal s' => forEach body l2 s'
  | Throw s' => Throw s'
  | OutOfFuel => OutOfFuel
  end.
Proof.
  revert s. induction l1 as [|i l1 IH]; intros s; simpl; [done|].
  destruct (body i s); auto.
Qed.

Lemma forEach_row {S : Type} (body : Z -> Z -> S -> completion S)
    (xs : list Z) (y : Z) (s : S) :
  forEach (body y) xs s =
  forEach (fun p => body (snd p) (fst p)) (map (fun x => (x, y)) xs) s.
Proof.
  revert s. induction xs as [|x xs IHx]; intros s; simpl; [done|].
  destruct (body y x s); [apply IHx|done|done].
Qed.

(** Two nested loops visit the pairs of indices in row order. *)
Lemma forEach_nested {S : Type} (body : Z -> Z -> S -> completion S)
    (xs ys : list Z) (s : S) :
  forEach (fun y => forEach (body y) xs) ys s =
  forEach (fun p => body (snd p) (fst p))
    (concat (map (fun y => map (fun x => (x, y)) xs) ys)) s.
Proof.
  revert s. induction ys as [|y ys IH]; intros s; simpl; [done|].
  rewrite forEach_app.
  rewrite forEach_row.
  destruct (forEach _ (map _ xs) s); [apply IH|done|done].
Qed.

(** A loop whose body keeps an invariant of the indices done so far ends
    normally. *)
Lemma forEach_invariant {I S : Type} (body : I -> S -> completion S)
    (P : list I -> S -> Prop) (rest : list I) :
  forall (done : list I) (s : S),
    P done s ->
    (forall d i s0, P d s0 -> i ∈ rest ->
       exists s', body i s0 = Normal s' /\ P (d ++ [i]) s') ->
    exists s', forEach body rest s = Normal s' /\ P (done ++ rest) s'.
Proof.
  induction rest as [|i rest IH]; intros done s HP Hbody; simpl.
  - exists s. rewrite app_nil_r. done.
  - destruct (Hbody done i s HP) as (s1 & -> & HP1); [left|].
    destruct (IH (done ++ [i]) s1 HP1) as (s2 & Hs2 & HP2).
    { intros d j s0 ? ?. apply Hbody; [done|]. by right. }
    exists s2. split; [done|]. by rewrite <- app_assoc in HP2.
Qed.

(** ** Cells and arrays *)

Lemma map_alter_same {A B : Type} (g : A -> B) (f : A -> A) (i : nat) (l : list A) :
  (forall a, g (f a) = g a) -> map g (alter f i l) = map g l.
Proof.
  intros Hf. revert i. induction l as [|a l IH]; intros [|i]; simpl; try done.
  - by rewrite Hf.
  - f_equal. apply IH.
Qed.

Lemma colorsOf_setCluster (b : list (list Cell)) (x y : Z) (v : option nat) :
  colorsOf (setCluster b x y v) = colorsOf b.
Proof.
  unfold colorsOf, setCluster. apply map_alter_same. intros col.
  apply map_alter_same. done.
Qed.

Lemma getCell_setCluster (b : list (list Cell)) (x y : Z) (v : option nat)
    (x' y' : Z) :
  0 <= x -> 0 <= y ->
  getCell (setCluster b x y v) x' y' =
  if decide ((x', y') = (x, y))
  then (fun c => mkCell (color c) v) <$> getCell b x y
  else getCell b x' y'.
Proof.
  intros Hx Hy. unfold getCell, setCluster, at2, zget.
  case_decide as Heq.
  - injection Heq as -> ->.
    destruct (Z.ltb_spec x 0); [lia|]. destruct (Z.ltb_spec y 0); [lia|].
    rewrite list_lookup_alter_eq. destruct (b !! Z.to_nat x) as [col|]; simpl; [|done].
    apply list_lookup_alter_eq.
  - destruct (Z.ltb_spec x' 0); [done|].
    destruct (decide (Z.to_nat x = Z.to_nat x')) as [Hxx|Hxx].
    + rewrite <- Hxx, list_lookup_alter_eq.
      destruct (b !! Z.to_nat x) as [col|]; simpl; [|done].
      destruct (Z.ltb_spec y' 0); [done|].
      apply list_lookup_alter_ne. intros Hyy.
      apply Heq. f_equal; lia.
    + by rewrite list_lookup_alter_ne.
Qed.

Lemma deref_alloc_old (hp : list (list (Z * Z))) (r : nat) :
  (r < length hp)%nat -> deref (alloc hp) r = deref hp r.
Proof. intros H. unfold deref, alloc. by rewrite lookup_app_l. Qed.

Lemma deref_alloc_new (hp : list (list (Z * Z))) :
  deref (alloc hp) (length hp) = [].
Proof.
  unfold deref, alloc. rewrite lookup_app_r by lia.
  by rewrite Nat.sub_diag.
Qed.

Lemma length_alloc (hp : list (list (Z * Z))) :
  length (alloc hp) = S (length hp).
Proof. unfold alloc. rewrite length_app. simpl. lia. Qed.

Lemma deref_unallocated (hp : list (list (Z * Z))) (r : nat) :
  (length hp <= r)%nat -> deref hp r = [].
Proof. intros H. unfold deref. by rewrite lookup_ge_None_2. Qed.

Lemma length_push (hp : list (list (Z * Z))) (a : nat) (p : Z * Z) :
  length (push hp a p) = length hp.
Proof. apply length_alter. Qed.

Lemma deref_push_eq (hp : list (list (Z * Z))) (a : nat) (p : Z * Z) :
  (a < length hp)%nat -> deref (push hp a p) a = deref hp a ++ [p].
Proof.
  intros H. unfold deref, push. rewrite list_lookup_alter_eq.
  destruct (lookup_lt_is_Some_2 hp a H) as [l ->]. done.
Qed.

Lemma deref_push_ne (hp : list (list (Z * Z))) (a r : nat) (p : Z * Z) :
  a <> r -> deref (push hp a p) r = deref hp r.
Proof. intros H. unfold deref, push. by rewrite list_lookup_alter_ne. Qed.

Lemma hasMembers_Some (hp : list (list (Z * Z))) (r : nat) :
  hasMembers hp (Some r) = true <-> deref hp r <> [].
Proof.
  simpl. destruct (deref hp r); simpl; split; congruence.
Qed.

Lemma hasMembers_false (hp : list (list (Z * Z))) (r : nat) :
  hasMembers hp (Some r) = false <-> deref hp r = [].
Proof.
  simpl. destruct (deref hp r); simpl; split; congruence.
Qed.

Lemma hasMembers_push (hp : list (list (Z * Z))) (a : nat) (p : Z * Z)
    (cl : option nat) :
  hasMembers hp cl = true -> hasMembers (push hp a p) cl = true.
Proof.
  destruct cl as [r|]; [|done]. rewrite !hasMembers_Some.
  destruct (decide (a = r)) as [->|Hne].
  - destruct (decide (r < length hp)%nat).
    + rewrite deref_push_eq by done. intros _. by destruct (deref hp r).
    + rewrite (deref_unallocated hp) by lia.
      rewrite deref_unallocated by (rewrite length_push; lia). done.
  - by rewrite deref_push_ne.
Qed.

Lemma hasMembers_push_new (hp : list (list (Z * Z))) (a : nat) (p : Z * Z) :
  (a < length hp)%nat -> hasMembers (push hp a p) (Some a) = true.
Proof.
  intros H. rewrite hasMembers_Some, deref_push_eq by done.
  by destruct (deref hp a).
Qed.

(** ** The bound of the while loop decreases *)

Lemma alter_middle {A : Type} (f : A -> A) (l1 l2 : list A) (a : A) :
  alter f (length l1) (l1 ++ a :: l2) = l1 ++ f a :: l2.
Proof.
  rewrite <- (Nat.add_0_r (length l1)) at 1. by rewrite alter_app_r.
Qed.

Lemma concat_alter_cell (b : list (list Cell)) (x y : Z) (c : Cell) :
  getCell b x y = Some c ->
  exists l1 l2, concat b = l1 ++ c :: l2 /\
    forall f, concat (alter (alter f (Z.to_nat y)) (Z.to_nat x) b) = l1 ++ f c :: l2.
Proof.
  intros (col & _ & _ & Hcol & Hc)%at2_Some.
  pose proof (take_drop_middle _ _ _ Hcol) as Hb.
  pose proof (take_drop_middle _ _ _ Hc) as Hcl.
  pose proof (lookup_lt_Some _ _ _ Hcol) as Hlx.
  pose proof (lookup_lt_Some _ _ _ Hc) as Hly.
  exists (concat (take (Z.to_nat x) b) ++ take (Z.to_nat y) col),
         (drop (S (Z.to_nat y)) col ++ concat (drop (S (Z.to_nat x)) b)).
  split.
  - rewrite <- Hb at 1. rewrite concat_app. simpl. rewrite <- Hcl at 1.
    by rewrite <- !app_assoc.
  - intros f. rewrite <- Hb at 1.
    replace (Z.to_nat x) with (length (take (Z.to_nat x) b)) at 1
      by (rewrite length_take; lia).
    rewrite alter_middle, concat_app. simpl. rewrite <- Hcl at 1.
    replace (Z.to_nat y) with (length (take (Z.to_nat y) col)) at 1
      by (rewrite length_take; lia).
    rewrite alter_middle. by rewrite <- !app_assoc.
Qed.

Lemma length_filter_mono {A : Type} (P Q : A -> Prop)
    `{!forall a, Decision (P a)} `{!forall a, Decision (Q a)} (l : list A) :
  (forall a, P a -> Q a) ->
  (length (filter P l) <= length (filter Q l))%nat.
Proof.
  intros HPQ. induction l as [|a l IH]; [done|].
  rewrite !filter_cons. destruct (decide (P a)) as [HP|HP].
  - rewrite decide_True by auto. simpl. lia.
  - destruct (decide (Q a)); simpl; lia.
Qed.

Lemma unassigned_decreases (b : list (list Cell)) (hp : list (list (Z * Z)))
    (ox oy : Z) (nb : Cell) (a : nat) :
  getCell b ox oy = Some nb ->
  hasMembers hp (cluster nb) = false ->
  (a < length hp)%nat ->
  (unassigned (setCluster b ox oy (Some a)) (push hp a (ox, oy)) < unassigned b hp)%nat.
Proof.
  intros Hnb Hno Ha. unfold unassigned, setCluster.
  destruct (concat_alter_cell _ _ _ _ Hnb) as (l1 & l2 & -> & ->).
  rewrite !filter_app, !filter_cons, !length_app.
  rewrite (decide_True _ _ Hno).
  rewrite decide_False
    by (cbn [cluster]; rewrite hasMembers_push_new; [discriminate|done]).
  cbn [length].
  pose proof (length_filter_mono
    (fun c => hasMembers (push hp a (ox, oy)) (cluster c) = false)
    (fun c => hasMembers hp (cluster c) = false) l1) as H1.
  pose proof (length_filter_mono
    (fun c => hasMembers (push hp a (ox, oy)) (cluster c) = false)
    (fun c => hasMembers hp (cluster c) = false) l2) as H2.
  assert (forall c, hasMembers (push hp a (ox, oy)) (cluster c) = false ->
                    hasMembers hp (cluster c) = false) as Hm.
  { intros c Hc. destruct (hasMembers hp (cluster c)) eqn:E; [|done].
    apply (hasMembers_push _ a (ox, oy)) in E. congruence. }
  specialize (H1 Hm). specialize (H2 Hm). lia.
Qed.

(** ** Adjacency and connection *)

Lemma adj_iff (p q : Z * Z) :
  adj p q <->
  q = (fst p, snd p + 1) \/ q = (fst p, snd p - 1) \/
  q = (fst p + 1, snd p) \/ q = (fst p - 1, snd p).
Proof.
  unfold adj, neighbours. rewrite !elem_of_cons, elem_of_nil. tauto.
Qed.

Lemma adj_sym (p q : Z * Z) : adj p q -> adj q p.
Proof.
  rewrite !adj_iff. destruct p as [px py], q as [qx qy]; simpl.
  intros [H|[H|[H|H]]]; injection H as -> ->;
    [right; left|left|right; right; right|right; right; left]; f_equal; lia.
Qed.

Lemma link_sym (g : list (list (option string))) (p q : Z * Z) :
  link g p q -> link g q p.
Proof.
  intros [Ha (c & Hp & Hq)]. split; [by apply adj_sym|]. eauto.
Qed.

Lemma conn_sym (g : list (list (option string))) (p q : Z * Z) :
  conn g p q -> conn g q p.
Proof.
  unfold conn. induction 1 as [|p q r Hl _ IH]; [done|].
  eapply rtc_r; [exact IH|]. by apply link_sym.
Qed.

Lemma conn_trans (g : list (list (option string))) (p q r : Z * Z) :
  conn g p q -> conn g q r -> conn g p r.
Proof. apply rtc_trans. Qed.

Lemma conn_color (g : list (list (option string))) (p q : Z * Z) (c : string) :
  conn g p q -> colorAt g p = Some (Some c) -> colorAt g q = Some (Some c).
Proof.
  unfold conn. induction 1 as [|p q r Hl _ IH]; [done|].
  intros Hp. apply IH. destruct Hl as [_ (c' & Hp' & Hq')]. congruence.
Qed.

Lemma colorAt_inb (w h : Z) (g : list (list (option string))) (p : Z * Z)
    (c : option string) :
  shaped w h g -> colorAt g p = Some c -> inb w h p.
Proof.
  intros Hs Hc. destruct p as [px py]. eapply at2_inb; [exact Hs|exact Hc].
Qed.

Lemma colorAt_cellAt (b : list (list Cell)) (q : Z * Z) :
  colorAt (colorsOf b) q = color <$> cellAt b q.
Proof. destruct q. apply colorAt_colorsOf. Qed.

Lemma cellAt_setCluster (b : list (list Cell)) (p : Z * Z) (v : option nat)
    (q : Z * Z) :
  0 <= fst p -> 0 <= snd p ->
  cellAt (setCluster b (fst p) (snd p) v) q =
  if decide (q = p) then (fun c => mkCell (color c) v) <$> cellAt b p
  else cellAt b q.
Proof.
  intros H1 H2. unfold cellAt. rewrite getCell_setCluster by done.
  destruct p, q; simpl. done.
Qed.

Lemma cellAt_nonneg (b : list (list Cell)) (q : Z * Z) (c : Cell) :
  cellAt b q = Some c -> 0 <= fst q /\ 0 <= snd q.
Proof. intros (col & ? & ? & _)%at2_Some. done. Qed.

Lemma cellAt_same_shape (b b' : list (list Cell)) (q : Z * Z) (c : Cell) :
  colorsOf b = colorsOf b' -> cellAt b q = Some c ->
  exists c', cellAt b' q = Some c' /\ color c' = color c.
Proof.
  intros Hg Hc. pose proof (colorAt_cellAt b q) as H1.
  pose proof (colorAt_cellAt b' q) as H2. rewrite Hg, H2, Hc in H1.
  destruct (cellAt b' q) as [c'|]; [|done]. exists c'. split; [done|].
  simpl in H1. congruence.
Qed.

(** ** The while loop of updateClusters

    [b0] and [hp0] are the board and the arrays before line 123 runs for the
    cell at [(x, y)], a tile of colour [c0] whose cluster is still
    undefined; line 123 gives it the new array at reference [length hp0]. *)

Section Visit.
Variables (w h x y : Z) (c0 : string).
Variables (b0 : list (list Cell)) (hp0 : list (list (Z * Z))).
Variable cell0 : Cell.
Hypothesis Hshape : shaped w h b0.
Hypothesis Hpartial : partial b0 hp0.
Hypothesis Hcell0 : cellAt b0 (x, y) = Some cell0.
Hypothesis Hcolor0 : color cell0 = Some c0.
Hypothesis Hfresh0 : cluster cell0 = None.

#[local] Abbreviation g := (colorsOf b0).
#[local] Abbreviation a := (length hp0).

#[local] Abbreviation visitInv := (visitInvariant w h x y c0 b0 hp0).

Lemma start_inb : inb w h (x, y).
Proof. eapply at2_inb; [exact Hshape|exact Hcell0]. Qed.

Lemma start_color : colorAt g (x, y) = Some (Some c0).
Proof. rewrite colorAt_cellAt, Hcell0. simpl. by rewrite Hcolor0. Qed.

Lemma shaped_g : shaped w h g.
Proof. by apply shaped_colorsOf. Qed.

Lemma visitInv_init :
  visitInv (setCluster b0 x y (Some a)) (alloc hp0) [(x, y)].
Proof.
  destruct (cellAt_nonneg _ _ _ Hcell0) as [Hx Hy]; simpl in Hx, Hy.
  split.
  - apply colorsOf_setCluster.
  - apply length_alloc.
  - intros r Hr. unfold alloc. by rewrite lookup_app_l.
  - intros q cq Hq. rewrite deref_alloc_new.
    rewrite (cellAt_setCluster b0 (x, y)) by done.
    case_decide as Hqp.
    + right. subst q. rewrite Hcell0 in Hq. injection Hq as <-.
      rewrite Hcell0. simpl. auto.
    + left. split; [done|]. split; [apply not_elem_of_nil|done].
  - rewrite deref_alloc_new. constructor.
  - rewrite deref_alloc_new. intros q Hq. by apply elem_of_nil in Hq.
  - left. by rewrite deref_alloc_new.
  - intros t Ht. apply list_elem_of_singleton in Ht. by left.
  - rewrite deref_alloc_new. intros q t Hq. by apply elem_of_nil in Hq.
Qed.

Section Facts.
Variables (b : list (list Cell)) (hp : list (list (Z * Z))).
Variable tv : list (Z * Z).
Hypothesis HI : visitInv b hp tv.

Lemma vi_shaped : shaped w h b.
Proof. apply shaped_colorsOf. rewrite (vi_colors HI). apply shaped_g. Qed.

Lemma vi_a_lt : (a < length hp)%nat.
Proof. rewrite (vi_len HI). lia. Qed.

Lemma vi_start_cell : cellAt b (x, y) = Some (mkCell (Some c0) (Some a)).
Proof.
  destruct (vi_cells HI _ _ Hcell0) as [(_ & _ & Hne)|(Hc & _ & _)];
    [done|]. by rewrite Hcolor0 in Hc.
Qed.

Lemma vi_member (q : Z * Z) :
  q ∈ deref hp a ->
  colorAt g q = Some (Some c0) /\ inb w h q /\
  exists cq, cellAt b0 q = Some cq /\ cluster cq = None /\
             color cq = Some c0 /\
             cellAt b q = Some (mkCell (Some c0) (Some a)).
Proof.
  intros Hq.
  pose proof (conn_color _ _ _ _ (vi_conn HI _ Hq) start_color) as Hc.
  split; [done|]. split; [by eapply colorAt_inb; [apply shaped_g|]|].
  pose proof Hc as Hc'. rewrite colorAt_cellAt in Hc'.
  destruct (cellAt b0 q) as [cq|] eqn:Hcq; [|done].
  simpl in Hc'. injection Hc' as Hc'.
  exists cq. split; [done|].
  destruct (vi_cells HI _ _ Hcq) as [(_ & Hn & _)|(Hb & Hcl & _)];
    [done|]. rewrite Hc' in Hb. done.
Qed.
End Facts.

Section Step.
Variables (b : list (list Cell)) (hp : list (list (Z * Z))).
Variables (ox oy : Z) (rest : list (Z * Z)).
#[local] Abbreviation t := (ox, oy).
Hypothesis HI : visitInv b hp (t :: rest).

Lemma vi_top_range :
  -1 <= ox <= w /\ -1 <= oy <= h.
Proof.
  destruct (vi_stack HI t) as [Ht|(q & Hq & Hadj)]; [by left| |].
  - pose proof start_inb as [? ?]. injection Ht as -> ->. simpl in *. lia.
  - destruct (vi_member _ _ _ HI q Hq) as (_ & [? ?] & _).
    apply adj_iff in Hadj.
    destruct Hadj as [Ht|[Ht|[Ht|Ht]]]; injection Ht as -> ->; lia.
Qed.

Lemma vi_bounds_check :
  (oy <? 0) || (oy =? h) || (ox <? 0) || (ox =? w) = true
  <-> ~ inb w h t.
Proof.
  pose proof vi_top_range. unfold inb. simpl.
  rewrite !orb_true_iff, !Z.ltb_lt, !Z.eqb_eq. lia.
Qed.

(** The popped pair is skipped. *)
Lemma visitInv_skip :
  (~ inb w h t \/ colorAt g t <> Some (Some c0) \/
   exists ct, cellAt b t = Some ct /\ hasMembers hp (cluster ct) = true) ->
  (t = (x, y) -> deref hp a <> []) ->
  visitInv b hp rest.
Proof.
  intros Hwhy Hst. destruct HI as [H1 H2 H3 H4 H5 H6 H7 H8 H9].
  split; try done.
  - destruct H7 as [[HA Htv]|H7]; [|by right].
    injection Htv as -> -> ->. by destruct Hst.
  - intros t' Ht'. apply H8. by right.
  - intros q t' Hq Hadj.
    destruct (H9 q t' Hq Hadj) as [Hin|Hother]; [|by right].
    apply elem_of_cons in Hin as [->|Hin]; [by right|by left].
Qed.

(** The popped pair joins the cluster. *)
Lemma visitInv_add (nb : Cell) :
  cellAt b t = Some nb ->
  hasMembers hp (cluster nb) = false ->
  color nb = Some c0 ->
  visitInv (setCluster b ox oy (Some a)) (push hp a t)
    (neighbours ox oy ++ rest).
Proof.
  intros Hnb Hno Hcol.
  pose proof (vi_a_lt _ _ _ HI) as Ha.
  destruct (cellAt_nonneg _ _ _ Hnb) as [Htx Hty]. simpl in Htx, Hty.
  (* the popped cell was not in a cluster before *)
  destruct (cellAt_same_shape b b0 t nb (vi_colors HI) Hnb)
    as (nb0 & Hnb0 & Hcol0).
  assert ((t ∉ deref hp a) /\ cluster nb0 = None) as [HtA Hnone].
  { destruct (vi_cells HI _ _ Hnb0) as [(Hb & Hn & Hne)|(Hb & Hcl & Hin)].
    - split; [done|]. rewrite Hnb in Hb. injection Hb as ->.
      destruct (cluster nb0) as [r|] eqn:Hr; [|done]. exfalso.
      pose proof (Hpartial ox oy nb0 r Hnb0 Hr) as [Hlt Hok].
      rewrite Hcol in Hok. destruct Hok as (_ & Hmem & _).
      apply hasMembers_false in Hno.
      assert (t ∈ deref hp r) as Hin.
      { unfold deref. rewrite (vi_old HI) by done.
        apply Hmem. apply rtc_refl. }
      rewrite Hno in Hin. by apply elem_of_nil in Hin.
    - split; [|done]. rewrite Hnb in Hb. injection Hb as ->.
      simpl in Hno. apply hasMembers_false in Hno. rewrite Hno.
      apply not_elem_of_nil. }
  assert (colorAt g t = Some (Some c0)) as Hct.
  { rewrite colorAt_cellAt, Hnb0. simpl. congruence. }
  destruct HI as [H1 H2 H3 H4 H5 H6 H7 H8 H9].
  split.
  - by rewrite colorsOf_setCluster.
  - by rewrite length_push.
  - intros r Hr. unfold push. rewrite list_lookup_alter_ne by lia. auto.
  - intros q cq Hq. rewrite deref_push_eq by done.
    rewrite (cellAt_setCluster b t _ q) by done.
    case_decide as Hqt.
    + right. subst q. rewrite Hnb0 in Hq. injection Hq as <-.
      rewrite Hnb. simpl. rewrite Hcol0.
      split; [done|]. split; [done|]. left. apply elem_of_app. right.
      by apply list_elem_of_singleton.
    + destruct (H4 q cq Hq) as [(Hb & Hn & Hne)|(Hb & Hcl & Hin)].
      * left. split; [done|]. split; [|done].
        rewrite elem_of_app, list_elem_of_singleton. tauto.
      * right. split; [done|]. split; [done|].
        rewrite elem_of_app. tauto.
  - rewrite deref_push_eq by done. apply NoDup_app. split; [done|].
    split; [|apply NoDup_singleton].
    intros q Hq Hq'. apply list_elem_of_singleton in Hq'. by subst q.
  - intros q. rewrite deref_push_eq by done.
    rewrite elem_of_app, list_elem_of_singleton. intros [Hq| ->]; [auto|].
    destruct (H8 t) as [Ht|(q & Hq & Hadj)];
      [by left|rewrite Ht; apply rtc_refl|].
    eapply rtc_r; [apply H6; exact Hq|].
    split; [done|]. exists c0. split; [|done].
    eapply conn_color; [apply H6; exact Hq|apply start_color].
  - right. rewrite deref_push_eq by done. apply elem_of_app.
    destruct H7 as [[HA Htv]|H7]; [|by left].
    right. injection Htv as -> -> _. by apply list_elem_of_singleton.
  - intros t' Ht'. rewrite deref_push_eq by done.
    apply elem_of_app in Ht' as [Ht'|Ht'].
    + right. exists t. split; [|done].
      apply elem_of_app. right. by apply list_elem_of_singleton.
    + destruct (H8 t') as [->|(q & Hq & Hadj)]; [by right|by left|].
      right. exists q. split; [|done]. apply elem_of_app. by left.
  - intros q t'. rewrite deref_push_eq by done.
    rewrite elem_of_app, list_elem_of_singleton.
    assert (exists ct, cellAt (setCluster b ox oy (Some a)) t = Some ct /\
               hasMembers (push hp a t) (cluster ct) = true) as Hnew.
    { rewrite (cellAt_setCluster b t _ t) by done.
      rewrite decide_True by done. rewrite Hnb. simpl.
      eexists. split; [done|]. simpl cluster.
      by apply hasMembers_push_new. }
    intros [Hq| ->] Hadj.
    + destruct (H9 q t' Hq Hadj) as [Hin|[Hout|[Hc|(ct & Hct' & Hm)]]].
      * apply elem_of_cons in Hin as [->|Hin].
        -- right. right. right. done.
        -- left. apply elem_of_app. by right.
      * right. by left.
      * right. right. by left.
      * right. right. right.
        destruct (decide (t' = t)) as [->|Hne]; [done|].
        exists ct. rewrite (cellAt_setCluster b t _ t') by done.
        rewrite decide_False by done. split; [done|].
        by apply hasMembers_push.
    + left. apply elem_of_app. by left.
Qed.

(** One iteration keeps the invariant, and makes the bound smaller. *)
Lemma visitOne_inv :
  match visitOne w h x y b hp ox oy with
  | Skipped => visitInv b hp rest
  | Added b' hp' =>
      visitInv b' hp' (neighbours ox oy ++ rest) /\
      (unassigned b' hp' < unassigned b hp)%nat
  | Failed _ _ => False
  end.
Proof.
  unfold visitOne.
  destruct ((oy <? 0) || (oy =? h) || (ox <? 0) || (ox =? w)) eqn:Hchk.
  { apply vi_bounds_check in Hchk. apply visitInv_skip; [by left|].
    intros Ht. destruct Hchk. rewrite Ht. apply start_inb. }
  assert (inb w h t) as Hin.
  { destruct (decide (inb w h t)) as [|Hn]; [done|].
    apply vi_bounds_check in Hn. congruence. }
  destruct (at2_is_Some w h b ox oy (vi_shaped _ _ _ HI) Hin) as [nb Hnb].
  change (at2 b ox oy) with (cellAt b t) in Hnb.
  change (getCell b ox oy) with (cellAt b t). rewrite Hnb.
  destruct (hasMembers hp (cluster nb)) eqn:Hm.
  { apply visitInv_skip; [right; right; eauto|].
    intros Ht. rewrite Ht, (vi_start_cell _ _ _ HI) in Hnb. injection Hnb as <-.
    by apply hasMembers_Some in Hm. }
  change (getCell b x y) with (cellAt b (x, y)). rewrite (vi_start_cell _ _ _ HI).
  cbn [color cluster]. case_bool_decide as Hc.
  - split.
    + by apply (visitInv_add nb).
    + apply (unassigned_decreases b hp ox oy nb); [done|done|apply (vi_a_lt _ _ _ HI)].
  - apply visitInv_skip.
    + right. left. rewrite <- (vi_colors HI), colorAt_cellAt, Hnb.
      simpl. congruence.
    + intros Ht. rewrite Ht, (vi_start_cell _ _ _ HI) in Hnb. injection Hnb as <-.
      by destruct Hc.
Qed.
End Step.

(** The loop ends normally when the bound is large enough. *)
Lemma visit_total (fuel : nat) :
  forall b hp tv,
    visitInv b hp tv ->
    (visitBound b hp tv <= fuel)%nat ->
    exists b' hp', visit fuel w h x y b hp tv = Normal (b', hp') /\
                   visitInv b' hp' [].
Proof.
  induction fuel as [|fuel IH]; intros b hp tv HI Hf.
  { unfold visitBound in Hf. lia. }
  destruct tv as [|[ox oy] rest]; [by exists b, hp|].
  simpl. pose proof (visitOne_inv b hp ox oy rest HI) as Hstep.
  unfold visitBound in *.
  destruct (visitOne w h x y b hp ox oy) as [|b' hp'|]; [| |done].
  - apply IH; [done|]. simpl in Hf. lia.
  - destruct Hstep as [HI' Hlt]. apply IH; [done|].
    simpl in *. lia.
Qed.

(** What holds when the stack is empty. *)
Lemma visitInv_closed (b : list (list Cell)) (hp : list (list (Z * Z))) :
  visitInv b hp [] ->
  forall q, q ∈ deref hp a <-> conn g (x, y) q.
Proof.
  intros HI q. split; [apply (vi_conn HI)|].
  assert ((x, y) ∈ deref hp a) as Hst.
  { by destruct (vi_start HI) as [[_ ?]|?]. }
  unfold conn. revert q. apply rtc_ind_r; [done|].
  intros q t' _ Hl Hq. destruct Hl as [Hadj (c & Hcq & Hct)].
  destruct (vi_member _ _ _ HI q Hq) as (Hcq' & _ & cq0 & Hq0 & Hq0n & _).
  assert (c = c0) as -> by congruence.
  destruct (vi_closed HI q t' Hq Hadj)
    as [Hin|[Hout|[Hc|(ct & Hct' & Hm)]]].
  - by apply elem_of_nil in Hin.
  - destruct Hout. eapply colorAt_inb; [apply shaped_g|exact Hct].
  - done.
  - destruct (cellAt_same_shape b b0 t' ct (vi_colors HI) Hct')
      as (ct0 & Hct0 & Hcol0).
    destruct (vi_cells HI _ _ Hct0) as [(Hb & Hn & Hne)|(Hb & Hcl & Hin)].
    + exfalso. rewrite Hct' in Hb. injection Hb as ->.
      destruct (cluster ct0) as [r|] eqn:Hr; [|done].
      destruct t' as [tx ty].
      pose proof (Hpartial tx ty ct0 r Hct0 Hr) as [Hlt Hok].
      assert (color ct0 = Some c0) as Hcc.
      { rewrite colorAt_cellAt, Hct0 in Hct. simpl in Hct. congruence. }
      rewrite Hcc in Hok. destruct Hok as (_ & Hmem & Hsame).
      assert (q ∈ deref hp0 r) as Hqr.
      { apply Hmem. apply rtc_once. apply link_sym. split; [done|]. eauto. }
      pose proof (Hsame q cq0 Hqr Hq0) as Hbad. congruence.
    + destruct Hin as [Hin| ->]; done.
Qed.

Lemma visitInv_final (b : list (list Cell)) (hp : list (list (Z * Z))) :
  visitInv b hp [] ->
  partial b hp /\ colorsOf b = g /\ length hp = S a /\
  (forall r, (r < a)%nat -> hp !! r = hp0 !! r) /\
  (forall q c, cellAt b0 q = Some c -> cluster c <> None ->
               cellAt b q = Some c) /\
  cellAt b (x, y) = Some (mkCell (Some c0) (Some a)).
Proof.
  intros HI. pose proof (visitInv_closed b hp HI) as Hclosed.
  split; [|split; [apply (vi_colors HI)|split; [apply (vi_len HI)|
    split; [apply (vi_old HI)|split; [|apply (vi_start_cell _ _ _ HI)]]]]].
  - intros qx qy c r Hc Hr.
    change (getCell b qx qy) with (cellAt b (qx, qy)) in Hc.
    destruct (cellAt_same_shape b b0 _ c (vi_colors HI) Hc)
      as (cq0 & Hq0 & Hcol0).
    unfold clusterOk. rewrite (vi_colors HI).
    destruct (vi_cells HI _ _ Hq0) as [(Hb & Hn & Hne)|(Hb & Hcl & Hin)].
    + rewrite Hc in Hb. injection Hb as ->.
      pose proof (Hpartial qx qy cq0 r Hq0 Hr) as [Hlt Hok].
      assert (deref hp r = deref hp0 r) as Hd.
      { unfold deref. by rewrite (vi_old HI). }
      rewrite Hd. split; [rewrite (vi_len HI); lia|].
      destruct (color cq0); [|done].
      destruct Hok as (Hnd & Hmem & Hsame). split; [done|]. split; [done|].
      intros q' cq' Hq' Hcq'.
      destruct (cellAt_same_shape b b0 _ cq' (vi_colors HI) Hcq')
        as (cq0' & Hq0' & _).
      pose proof (Hsame q' cq0' Hq' Hq0') as Hr'.
      destruct (vi_cells HI _ _ Hq0') as [(Hb' & _)|(_ & Hcl' & _)];
        congruence.
    + rewrite Hc in Hb. injection Hb as ->. simpl in Hr. injection Hr as <-.
      split; [apply (vi_a_lt _ _ _ HI)|]. simpl.
      assert (conn g (x, y) (qx, qy)) as Hconn.
      { destruct Hin as [Hin| ->]; [by apply (vi_conn HI)|apply rtc_refl]. }
      assert (color cq0 = Some c0) as ->.
      { pose proof (conn_color _ _ _ _ Hconn start_color) as Hcc.
        rewrite colorAt_cellAt, Hq0 in Hcc. simpl in Hcc. congruence. }
      split; [apply (vi_nodup HI)|]. split.
      * intros q'. rewrite Hclosed. split; intros Hq'.
        -- eapply conn_trans; [by apply conn_sym|done].
        -- eapply conn_trans; done.
      * intros q' cq' Hq' Hcq'.
        destruct (vi_member _ _ _ HI q' Hq') as (_ & _ & cq0' & _ & _ & _ & Hb').
        rewrite Hcq' in Hb'. by injection Hb' as ->.
  - intros q c Hq Hsome.
    destruct (vi_cells HI _ _ Hq) as [(Hb & _)|(_ & Hcl & _)]; done.
Qed.
End Visit.

(** ** updateClusters ends normally and computes the clusters *)

Lemma elem_of_concat {A : Type} (x : A) (ls : list (list A)) :
  x ∈ concat ls <-> exists l, x ∈ l /\ l ∈ ls.
Proof.
  induction ls as [|l ls IH]; simpl.
  - split; [by intros ?%elem_of_nil|]. by intros (l & _ & ?%elem_of_nil).
  - rewrite elem_of_app, IH. split.
    + intros [H|(l' & H1 & H2)]; [exists l; split; [done|left]|].
      exists l'. split; [done|by right].
    + intros (l' & H1 & H2). apply elem_of_cons in H2 as [->|H2]; [by left|].
      right. eauto.
Qed.

Lemma elem_of_positions (w h : Z) (p : Z * Z) :
  p ∈ positions w h <-> inb w h p.
Proof.
  unfold positions, inb. destruct p as [x y]. simpl.
  rewrite elem_of_concat. split.
  - intros (l & Hp & Hl).
    change (map ?f ?k) with (f <$> k) in Hl.
    apply list_elem_of_fmap in Hl as (y' & -> & Hy').
    change (map ?f ?k) with (f <$> k) in Hp.
    apply list_elem_of_fmap in Hp as (x' & Heq & Hx').
    injection Heq as -> ->.
    apply elem_of_zrange in Hx', Hy'. done.
  - intros [Hx Hy]. exists (map (fun x0 => (x0, y)) (zrange w)). split.
    + change (map ?f ?k) with (f <$> k). apply list_elem_of_fmap.
      exists x. split; [done|]. by apply elem_of_zrange.
    + change (map ?f (zrange h)) with (f <$> zrange h). apply list_elem_of_fmap.
      exists y. split; [done|]. by apply elem_of_zrange.
Qed.

Lemma shaped_same_colors (w h : Z) (b b' : list (list Cell)) :
  colorsOf b' = colorsOf b -> shaped w h b -> shaped w h b'.
Proof.
  intros Hc Hs. apply shaped_colorsOf. rewrite Hc. by apply shaped_colorsOf.
Qed.

Lemma draw_shaped (w h : Z) (b : list (list Cell)) :
  shaped w h b -> draw w h b = true.
Proof.
  intros Hs. unfold draw. apply forallb_forall. intros y Hy.
  apply forallb_forall. intros x Hx.
  apply bool_decide_eq_true. apply (at2_is_Some w h); [done|].
  apply list_elem_of_In, elem_of_zrange in Hx, Hy. done.
Qed.

Lemma clearClusters_spec (w h : Z) (b : list (list Cell)) :
  shaped w h b ->
  exists b', clearClusters w h b = Normal b' /\ colorsOf b' = colorsOf b /\
             forall q c, cellAt b' q = Some c -> cluster c = None.
Proof.
  intros Hs. unfold clearClusters.
  rewrite (forEach_nested (fun y x b1 =>
    match getCell b1 x y with
    | Some _ => Normal (setCluster b1 x y None)
    | None => Throw b1
    end)).
  fold (positions w h).
  destruct (forEach_invariant
    (fun p b1 => match getCell b1 (fst p) (snd p) with
                 | Some _ => Normal (setCluster b1 (fst p) (snd p) None)
                 | None => Throw b1
                 end)
    (fun done b1 => colorsOf b1 = colorsOf b /\
       forall q c, q ∈ done -> cellAt b1 q = Some c -> cluster c = None)
    (positions w h) [] b) as (b' & Hrun & Hcol & Hnone).
  - split; [done|]. intros q c Hq. by apply elem_of_nil in Hq.
  - intros d p b1 [Hcol Hnone] Hp. apply elem_of_positions in Hp.
    destruct (at2_is_Some w h b1 (fst p) (snd p)) as [c Hc].
    { by eapply shaped_same_colors. }
    { by destruct p. }
    unfold getCell. rewrite Hc. eexists. split; [done|].
    destruct (cellAt_nonneg b1 p c Hc) as [? ?].
    split; [by rewrite colorsOf_setCluster|].
    intros q cq Hq. rewrite cellAt_setCluster by done.
    case_decide as Hqp.
    + unfold cellAt, getCell. rewrite Hc. simpl. by intros [= <-].
    + intros Hcq. apply elem_of_app in Hq as [Hq|Hq]; [eauto|].
      by apply list_elem_of_singleton in Hq.
  - exists b'. split; [done|]. split; [done|].
    intros q c Hc. apply (Hnone q c); [|done].
    apply elem_of_positions. destruct q. eapply at2_inb; [|exact Hc].
    by eapply shaped_same_colors.
Qed.

Lemma clusterOk_alloc (b : list (list Cell)) (hp : list (list (Z * Z)))
    (p : Z * Z) (x y : Z) (c c' : Cell) (r : nat) :
  cellAt b p = Some c' -> cluster c' = None -> 0 <= fst p -> 0 <= snd p ->
  clusterOk b hp x y c r ->
  clusterOk (setCluster b (fst p) (snd p) (Some (length hp))) (alloc hp) x y c r.
Proof.
  intros Hp Hnone Hpx Hpy [Hlt Hok]. split; [rewrite length_alloc; lia|].
  rewrite colorsOf_setCluster, deref_alloc_old by done.
  destruct (color c); [|done].
  destruct Hok as (Hnd & Hmem & Hsame). split; [done|]. split; [done|].
  intros q cq Hq. rewrite cellAt_setCluster by done.
  case_decide as Hqp; [|by apply Hsame].
  subst q. pose proof (Hsame p c' Hq Hp). congruence.
Qed.

Lemma scanCell_spec (w h : Z) (b : list (list Cell)) (hp : list (list (Z * Z)))
    (x y : Z) :
  shaped w h b -> partial b hp -> inb w h (x, y) ->
  exists b' hp',
    scanCell w h y x (b, hp) = Normal (b', hp') /\
    colorsOf b' = colorsOf b /\ partial b' hp' /\
    (length hp <= length hp')%nat /\
    (forall r, (r < length hp)%nat -> hp' !! r = hp !! r) /\
    (forall q c, cellAt b q = Some c -> cluster c <> None -> cellAt b' q = Some c) /\
    (exists c, cellAt b' (x, y) = Some c /\ cluster c <> None).
Proof.
  intros Hs Hpart Hin. unfold scanCell.
  destruct (at2_is_Some w h b x y Hs Hin) as [cell Hcell].
  unfold getCell at 1. rewrite Hcell.
  change (at2 b x y) with (cellAt b (x, y)) in Hcell.
  destruct (cluster cell) as [r|] eqn:Hcl.
  { exists b, hp. split; [done|]. split; [done|]. split; [done|].
    split; [lia|]. split; [done|]. split; [done|].
    exists cell. split; [done|]. congruence. }
  destruct (cellAt_nonneg b (x, y) cell Hcell) as [Hx Hy]. simpl in Hx, Hy.
  destruct (color cell) as [c0|] eqn:Hcol.
  - destruct (visit_total w h x y c0 b hp cell Hs Hpart Hcell Hcol
      (visitBound (setCluster b x y (Some (length hp))) (alloc hp) [(x, y)])
      _ _ _ (visitInv_init w h x y c0 b hp cell Hcell Hcl))
      as (b' & hp' & Hrun & HI); [done|].
    destruct (visitInv_final w h x y c0 b hp cell Hs Hpart Hcell Hcol b' hp' HI)
      as (Hp' & Hc' & Hl' & Ho' & Hd' & Hst').
    exists b', hp'. split; [done|]. split; [done|]. split; [done|].
    split; [lia|]. split; [done|]. split; [done|].
    eexists. split; [exact Hst'|done].
  - exists (setCluster b x y (Some (length hp))), (alloc hp).
    split; [done|]. split; [apply colorsOf_setCluster|]. split; [|split; [|split; [|split]]].
    + intros qx qy c r. unfold getCell.
      change (at2 ?m qx qy) with (cellAt m (qx, qy)).
      rewrite (cellAt_setCluster b (x, y)) by done.
      case_decide as Hq.
      * injection Hq as -> ->. rewrite Hcell. simpl. intros [= <-] [= <-].
        split; [rewrite length_alloc; lia|]. simpl. rewrite Hcol.
        apply deref_alloc_new.
      * intros Hc Hr. apply (clusterOk_alloc b hp (x, y) qx qy c cell); try done.
        by apply Hpart.
    + rewrite length_alloc. lia.
    + intros r Hr. unfold alloc. by rewrite lookup_app_l.
    + intros q c Hq Hsome. rewrite (cellAt_setCluster b (x, y)) by done.
      case_decide as Hqp; [|done]. subst q. rewrite Hcell in Hq. congruence.
    + rewrite (cellAt_setCluster b (x, y)) by done. rewrite decide_True by done.
      rewrite Hcell. simpl. eexists. split; [done|]. done.
Qed.

Lemma updateClusters_spec (w h : Z) (b : list (list Cell))
    (hp : list (list (Z * Z))) :
  shaped w h b ->
  exists b' hp',
    updateClusters w h b hp = Normal (b', hp') /\
    colorsOf b' = colorsOf b /\ clustered b' hp' /\
    (length hp <= length hp')%nat /\
    (forall r, (r < length hp)%nat -> hp' !! r = hp !! r).
Proof.
  intros Hs. unfold updateClusters. rewrite draw_shaped by done.
  destruct (clearClusters_spec w h b Hs) as (b1 & -> & Hcol1 & Hnone1). simpl.
  rewrite (forEach_nested (scanCell w h)). fold (positions w h).
  destruct (forEach_invariant
    (fun p => scanCell w h (snd p) (fst p))
    (scanned w h (colorsOf b) hp) (positions w h) [] (b1, hp))
    as ([b' hp'] & Hrun & Hc' & Hp' & Hl' & Ho' & Hd').
  - split; [done|]. split; [|split; [done|split; [done|]]].
    + intros x y c r Hc Hr. apply (Hnone1 (x, y)) in Hc. congruence.
    + intros q c Hq. by apply elem_of_nil in Hq.
  - intros d [x y] [b2 hp2] (Hc2 & Hp2 & Hl2 & Ho2 & Hd2) Hin.
    apply elem_of_positions in Hin. simpl in *.
    assert (shaped w h b2) as Hs2.
    { apply (shaped_same_colors w h b); [done|done]. }
    destruct (scanCell_spec w h b2 hp2 x y Hs2 Hp2 Hin)
      as (b3 & hp3 & Hrun & Hc3 & Hp3 & Hl3 & Ho3 & Hk3 & c3 & Hcell3 & Hsome3).
    exists (b3, hp3). split; [done|]. split; [simpl; congruence|].
    split; [done|]. split; [simpl; lia|]. split.
    + simpl. intros r Hr. rewrite Ho3 by lia. by apply Ho2.
    + simpl. intros q c Hq Hcq. apply elem_of_app in Hq as [Hq|Hq].
      * destruct (cellAt_same_shape b3 b2 q c Hc3 Hcq) as (c2 & Hc2' & _).
        pose proof (Hd2 q c2 Hq Hc2') as Hsome2.
        pose proof (Hk3 q c2 Hc2' Hsome2). congruence.
      * apply list_elem_of_singleton in Hq. subst q. congruence.
  - simpl in *. exists b', hp'. split; [done|]. split; [done|].
    split; [|done]. intros x y c Hc.
    assert (inb w h (x, y)) as Hin.
    { eapply at2_inb; [|exact Hc]. by apply (shaped_same_colors w h b). }
    destruct (cluster c) as [r|] eqn:Hr.
    + exists r. split; [done|]. by apply Hp'.
    + destruct (Hd' (x, y) c); [by apply elem_of_positions|done|done].
Qed.

(** ** Sorting the rows of a cluster *)

Lemma insertDesc_perm (y : Z) (l : list Z) : insertDesc y l ≡ₚ y :: l.
Proof.
  induction l as [|z l IH]; simpl; [done|].
  destruct (z <=? y); [done|]. rewrite IH. apply Permutation_swap.
Qed.

Lemma sortDesc_perm (l : list Z) : sortDesc l ≡ₚ l.
Proof.
  induction l as [|y l IH]; simpl; [done|].
  rewrite insertDesc_perm. by rewrite IH.
Qed.

Lemma insertDesc_sorted (y : Z) (l : list Z) :
  StronglySorted (fun a b => b <= a) l ->
  StronglySorted (fun a b => b <= a) (insertDesc y l).
Proof.
  induction 1 as [|z l Hs IH Hz]; simpl.
  - repeat constructor.
  - destruct (Z.leb_spec z y).
    + constructor; [by constructor|]. constructor; [done|].
      eapply Forall_impl; [exact Hz|]. simpl. lia.
    + constructor; [done|]. rewrite insertDesc_perm.
      constructor; [lia|done].
Qed.

Lemma sortDesc_sorted (l : list Z) :
  StronglySorted (fun a b => b <= a) (sortDesc l).
Proof.
  induction l as [|y l IH]; simpl; [constructor|]. by apply insertDesc_sorted.
Qed.

Lemma sortDesc_descending (l : list Z) : NoDup l -> descending (sortDesc l).
Proof.
  intros Hnd. rewrite <- sortDesc_perm in Hnd.
  pose proof (sortDesc_sorted l) as Hs. unfold descending.
  induction Hs as [|z k Hs IH Hz]; [constructor|].
  apply NoDup_cons in Hnd as [Hnot Hnd]. constructor; [auto|].
  rewrite Forall_forall in Hz |- *. intros r Hr.
  specialize (Hz r Hr). simpl in Hz.
  assert (r <> z) by (intros ->; done). lia.
Qed.

Lemma Is_true_Zeqb (a b : Z) : Is_true (a =? b) <-> a = b.
Proof. by rewrite Is_true_true, Z.eqb_eq. Qed.

Lemma elem_of_clusterRows (hc : list (Z * Z)) (x y : Z) :
  y ∈ clusterRows hc x <-> (x, y) ∈ hc.
Proof.
  unfold clusterRows. rewrite sortDesc_perm.
  change (map snd ?l) with (snd <$> l). rewrite list_elem_of_fmap. split.
  - intros ([px py] & -> & Hp). apply list_elem_of_filter in Hp as [Hx Hp].
    simpl in *. apply Is_true_Zeqb in Hx. by subst.
  - intros Hp. exists (x, y). split; [done|]. apply list_elem_of_filter.
    split; [|done]. simpl. by apply Is_true_Zeqb.
Qed.

Lemma clusterRows_descending (hc : list (Z * Z)) (x : Z) :
  NoDup hc -> descending (clusterRows hc x).
Proof.
  intros Hnd. apply sortDesc_descending.
  change (map snd ?l) with (snd <$> l).
  apply NoDup_fmap_2_strong; [|by apply NoDup_filter].
  intros [px py] [qx qy] Hp Hq Heq. simpl in Heq. subst.
  apply list_elem_of_filter in Hp as [Hp _], Hq as [Hq _]. simpl in *.
  apply Is_true_Zeqb in Hp, Hq. congruence.
Qed.

(** The entries of a cluster in column [x], one row each. *)
Lemma length_clusterRows (hc : list (Z * Z)) (x : Z) :
  length (clusterRows hc x) = length (filter (fun p => fst p = x) hc).
Proof.
  unfold clusterRows. rewrite sortDesc_perm, length_map.
  induction hc as [|p hc IH]; [done|].
  rewrite !filter_cons. destruct (decide (fst p = x)) as [He|He].
  - rewrite decide_True by (by apply Is_true_Zeqb). simpl. by rewrite IH.
  - by rewrite decide_False by (by rewrite Is_true_Zeqb).
Qed.

(** ** splice *)

Lemma splice1_in {A : Type} (l : list A) (y : Z) :
  0 <= y < Z.of_nat (length l) ->
  splice1 l y = take (Z.to_nat y) l ++ drop (S (Z.to_nat y)) l.
Proof.
  intros H. unfold splice1. destruct (Z.ltb_spec y 0); [lia|].
  by rewrite Z.min_l by lia.
Qed.

Lemma splice1_length_le {A : Type} (l : list A) (y : Z) :
  (length (splice1 l y) <= length l)%nat.
Proof.
  unfold splice1. rewrite length_app, length_take, length_drop. lia.
Qed.

Lemma splice1_length {A : Type} (l : list A) (y : Z) :
  0 <= y < Z.of_nat (length l) ->
  length (splice1 l y) = pred (length l).
Proof.
  intros H. rewrite splice1_in by done.
  rewrite length_app, length_take, length_drop. lia.
Qed.

Lemma splice1_map {A B : Type} (f : A -> B) (l : list A) (y : Z) :
  map f (splice1 l y) = splice1 (map f l) y.
Proof.
  unfold splice1. rewrite length_map, map_app.
  change (map f) with (fmap (M:=list) f). by rewrite fmap_take, fmap_drop.
Qed.

Lemma fold_splice_map {A B : Type} (f : A -> B) (ys : list Z) (l : list A) :
  map f (fold_left splice1 ys l) = fold_left splice1 ys (map f l).
Proof.
  revert l. induction ys as [|y ys IH]; intros l; simpl; [done|].
  by rewrite IH, splice1_map.
Qed.

Lemma fold_splice_length_le {A : Type} (ys : list Z) (l : list A) :
  (length (fold_left splice1 ys l) <= length l)%nat.
Proof.
  revert l. induction ys as [|y ys IH]; intros l; simpl; [done|].
  etrans; [apply IH|apply splice1_length_le].
Qed.

Lemma splice1_app_l {A : Type} (l1 l2 : list A) (y : Z) :
  0 <= y < Z.of_nat (length l1) ->
  splice1 (l1 ++ l2) y = splice1 l1 y ++ l2.
Proof.
  intros H. rewrite !splice1_in by (rewrite ?length_app; lia).
  rewrite take_app_le, drop_app_le by lia. by rewrite <- app_assoc.
Qed.

Lemma descending_cons (y : Z) (ys : list Z) :
  descending (y :: ys) <-> (forall r, r ∈ ys -> r < y) /\ descending ys.
Proof.
  unfold descending. rewrite StronglySorted_cons, Forall_forall. done.
Qed.

Lemma fold_splice_app {A : Type} (ys : list Z) (l1 l2 : list A) :
  descending ys ->
  (forall r, r ∈ ys -> 0 <= r < Z.of_nat (length l1)) ->
  fold_left splice1 ys (l1 ++ l2) = fold_left splice1 ys l1 ++ l2.
Proof.
  revert l1. induction ys as [|y ys IH]; intros l1 Hd Hr; simpl; [done|].
  apply descending_cons in Hd as [Hlt Hd].
  assert (0 <= y < Z.of_nat (length l1)) as Hy by (apply Hr; left).
  rewrite splice1_app_l by done. apply IH; [done|].
  intros r Hin. rewrite splice1_length by done.
  specialize (Hlt r Hin). specialize (Hr r (list_elem_of_further _ _ _ Hin)). lia.
Qed.

Lemma fold_splice_cons {A : Type} (y : Z) (ys : list Z) (l : list A) :
  descending (y :: ys) ->
  (forall r, r ∈ y :: ys -> 0 <= r < Z.of_nat (length l)) ->
  fold_left splice1 (y :: ys) l =
  fold_left splice1 ys (take (Z.to_nat y) l) ++ drop (S (Z.to_nat y)) l.
Proof.
  intros Hd Hr. simpl.
  assert (0 <= y < Z.of_nat (length l)) as Hy by (apply Hr; left).
  apply descending_cons in Hd as [Hlt Hd].
  rewrite splice1_in by done. apply fold_splice_app; [done|].
  intros r Hin. rewrite length_take.
  specialize (Hlt r Hin). specialize (Hr r (list_elem_of_further _ _ _ Hin)). lia.
Qed.

Lemma fold_splice_length {A : Type} (ys : list Z) (l : list A) :
  descending ys ->
  (forall r, r ∈ ys -> 0 <= r < Z.of_nat (length l)) ->
  (length (fold_left splice1 ys l) + length ys = length l)%nat.
Proof.
  revert l. induction ys as [|y ys IH]; intros l Hd Hr; [simpl; lia|].
  rewrite fold_splice_cons by done.
  assert (0 <= y < Z.of_nat (length l)) as Hy by (apply Hr; left).
  apply descending_cons in Hd as [Hlt Hd].
  rewrite length_app, length_drop. simpl.
  specialize (IH (take (Z.to_nat y) l) Hd). rewrite length_take in IH.
  assert (length (fold_left splice1 ys (take (Z.to_nat y) l)) + length ys
          = Z.to_nat y `min` length l)%nat as IH'.
  { apply IH. intros r Hin. specialize (Hlt r Hin).
    specialize (Hr r (list_elem_of_further _ _ _ Hin)). lia. }
  lia.
Qed.

Lemma above_below (ys : list Z) (t : Z) :
  t ∉ ys -> (above ys t + below ys t = length ys)%nat.
Proof.
  unfold above, below. induction ys as [|r ys IH]; intros Ht; [done|].
  apply not_elem_of_cons in Ht as [Hne Ht]. specialize (IH Ht).
  rewrite !filter_cons. repeat case_decide; simpl; lia.
Qed.

Lemma above_all (ys : list Z) (t : Z) :
  (forall r, r ∈ ys -> r < t) -> above ys t = length ys.
Proof.
  unfold above. induction ys as [|r ys IH]; intros H; [done|].
  rewrite filter_cons, decide_True by (apply H; left). simpl.
  rewrite IH; [done|]. intros r' Hr'. apply H. by right.
Qed.

Lemma descending_filter (P : Z -> Prop) `{!forall r, Decision (P r)} (ys : list Z) :
  descending ys -> descending (filter P ys).
Proof.
  induction ys as [|y ys IH]; intros Hd; [constructor|].
  apply descending_cons in Hd as [Hlt Hd]. rewrite filter_cons.
  case_decide; [|auto]. apply descending_cons. split; [|auto].
  intros r Hr. apply list_elem_of_filter in Hr as [_ Hr]. auto.
Qed.

(** Distinct rows between [lo] and [hi]. *)
Lemma descending_interval (ys : list Z) (lo hi : Z) :
  descending ys -> (forall r, r ∈ ys -> lo <= r < hi) ->
  Z.of_nat (length ys) <= Z.max 0 (hi - lo).
Proof.
  revert hi. induction ys as [|y ys IH]; intros hi Hd Hr; [simpl; lia|].
  apply descending_cons in Hd as [Hlt Hd].
  pose proof (Hr y (list_elem_of_here _ _)).
  specialize (IH y Hd). simpl length.
  assert (Z.of_nat (length ys) <= Z.max 0 (y - lo)); [|lia].
  apply IH. intros r Hin. specialize (Hlt r Hin).
  specialize (Hr r (list_elem_of_further _ _ _ Hin)). lia.
Qed.

Lemma above_le (ys : list Z) (t : Z) :
  descending ys -> (forall r, r ∈ ys -> 0 <= r) -> 0 <= t ->
  Z.of_nat (above ys t) <= t.
Proof.
  intros Hd Hr Ht. unfold above.
  pose proof (descending_interval (filter (fun r => r < t) ys) 0 t) as H.
  rewrite Z.max_r in H by lia. rewrite Z.sub_0_r in H. apply H.
  - by apply descending_filter.
  - intros r [Hrt Hin]%list_elem_of_filter. specialize (Hr r Hin). lia.
Qed.

(** A cell that stays moves up by the number of removed rows above it. *)
Lemma fold_splice_lookup {A : Type} (ys : list Z) (l : list A) (t : Z) (i : nat) :
  descending ys ->
  (forall r, r ∈ ys -> 0 <= r < Z.of_nat (length l)) ->
  0 <= t < Z.of_nat (length l) -> t ∉ ys ->
  (i + above ys t = Z.to_nat t)%nat ->
  fold_left splice1 ys l !! i = l !! Z.to_nat t.
Proof.
  revert l. induction ys as [|y ys IH]; intros l Hd Hr Ht Hnot Hi.
  { simpl. unfold above in Hi. simpl in Hi. by rewrite Nat.add_0_r in Hi; subst. }
  rewrite fold_splice_cons by done.
  assert (0 <= y < Z.of_nat (length l)) as Hy by (apply Hr; left).
  apply descending_cons in Hd as [Hlt Hd].
  apply not_elem_of_cons in Hnot as [Hne Hnot].
  assert (forall r, r ∈ ys -> 0 <= r < Z.of_nat (length (take (Z.to_nat y) l))) as Hr'.
  { intros r Hin. rewrite length_take. specialize (Hlt r Hin).
    specialize (Hr r (list_elem_of_further _ _ _ Hin)). lia. }
  pose proof (fold_splice_length ys (take (Z.to_nat y) l) Hd Hr') as Hlen.
  rewrite length_take in Hlen.
  destruct (Z.lt_ge_cases t y) as [Hty|Hty].
  - assert (above (y :: ys) t = above ys t) as Hab.
    { unfold above. by rewrite filter_cons, decide_False by lia. }
    rewrite Hab in Hi.
    assert (fold_left splice1 ys (take (Z.to_nat y) l) !! i = l !! Z.to_nat t) as Hfold.
    { rewrite (IH (take (Z.to_nat y) l)); [|done|done|rewrite length_take; lia|done|done].
      apply lookup_take_lt. lia. }
    destruct (lookup_lt_is_Some_2 l (Z.to_nat t)) as [c Hc]; [lia|].
    rewrite Hc in Hfold |- *. by apply lookup_app_l_Some.
  - assert (above (y :: ys) t = S (length ys)) as Hab.
    { unfold above. rewrite filter_cons, decide_True by lia. simpl. f_equal.
      apply above_all. intros r Hin. specialize (Hlt r Hin). lia. }
    rewrite Hab in Hi. rewrite lookup_app_r by lia.
    rewrite lookup_drop. f_equal. lia.
Qed.

(** The tiles that stay. *)
Lemma tiles_app (l1 l2 : list (option string)) :
  tiles (l1 ++ l2) = (tiles l1 + tiles l2)%nat.
Proof. unfold tiles. by rewrite filter_app, length_app. Qed.

Lemma fold_splice_tiles (ys : list Z) (cs : list (option string)) :
  descending ys ->
  (forall r, r ∈ ys -> exists c, cs !! Z.to_nat r = Some (Some c) /\ 0 <= r) ->
  (tiles (fold_left splice1 ys cs) + length ys = tiles cs)%nat.
Proof.
  revert cs. induction ys as [|y ys IH]; intros cs Hd Hr; [simpl; lia|].
  assert (forall r, r ∈ y :: ys -> 0 <= r < Z.of_nat (length cs)) as Hrange.
  { intros r Hin. destruct (Hr r Hin) as (c & Hc & ?).
    apply lookup_lt_Some in Hc. lia. }
  rewrite fold_splice_cons by done.
  destruct (Hr y (list_elem_of_here _ _)) as (c & Hc & Hy0).
  apply descending_cons in Hd as [Hlt Hd].
  rewrite <- (take_drop_middle cs (Z.to_nat y) (Some c) Hc) at 3.
  rewrite !tiles_app. simpl length.
  assert (tiles (Some c :: drop (S (Z.to_nat y)) cs)
          = S (tiles (drop (S (Z.to_nat y)) cs))) as ->.
  { unfold tiles. by rewrite filter_cons, decide_True by done. }
  specialize (IH (take (Z.to_nat y) cs) Hd).
  assert (tiles (fold_left splice1 ys (take (Z.to_nat y) cs)) + length ys
          = tiles (take (Z.to_nat y) cs))%nat as IH'; [|lia].
  apply IH. intros r Hin. destruct (Hr r (list_elem_of_further _ _ _ Hin)) as (c' & Hc' & ?).
  exists c'. split; [|done]. rewrite lookup_take_lt; [done|].
  specialize (Hlt r Hin). lia.
Qed.

(** ** Cells whose cluster tells whether they are empty *)

Lemma extends_refl (hp : list (list (Z * Z))) : extends hp hp.
Proof. split; [lia|done]. Qed.

Lemma extends_trans (hp1 hp2 hp3 : list (list (Z * Z))) :
  extends hp1 hp2 -> extends hp2 hp3 -> extends hp1 hp3.
Proof.
  intros [Hl1 Ho1] [Hl2 Ho2]. split; [lia|].
  intros r Hr. rewrite Ho2 by lia. by apply Ho1.
Qed.

Lemma extends_app (hp ext : list (list (Z * Z))) : extends hp (hp ++ ext).
Proof.
  split; [rewrite length_app; lia|]. intros r Hr. by apply lookup_app_l.
Qed.

Lemma extends_alloc (hp : list (list (Z * Z))) : extends hp (alloc hp).
Proof. apply extends_app. Qed.

Lemma extends_deref (hp hp' : list (list (Z * Z))) (r : nat) :
  extends hp hp' -> (r < length hp)%nat -> deref hp' r = deref hp r.
Proof. intros [_ Ho] Hr. unfold deref. by rewrite Ho. Qed.

Lemma cellTidy_extends (hp hp' : list (list (Z * Z))) (c : Cell) :
  extends hp hp' -> cellTidy hp c -> cellTidy hp' c.
Proof.
  intros He (r & Hr & Hlt & Hiff). exists r. split; [done|].
  split; [destruct He; lia|]. by rewrite (extends_deref hp hp').
Qed.

Lemma tidy_extends (hp hp' : list (list (Z * Z))) (b : list (list Cell)) :
  extends hp hp' -> tidy b hp -> tidy b hp'.
Proof.
  intros He Ht. eapply Forall_impl; [exact Ht|]. intros col Hcol.
  eapply Forall_impl; [exact Hcol|]. intros c. by apply cellTidy_extends.
Qed.

Lemma cellTidy_emptyCell (hp : list (list (Z * Z))) :
  cellTidy (alloc hp) (emptyCell hp).
Proof.
  exists (length hp). split; [done|]. split; [rewrite length_alloc; lia|].
  simpl. by rewrite deref_alloc_new.
Qed.

Lemma clustered_tidy (w h : Z) (b : list (list Cell)) (hp : list (list (Z * Z))) :
  clustered b hp -> tidy b hp.
Proof.
  intros Hc. apply Forall_forall. intros col Hcol.
  apply Forall_forall. intros c Hcin.
  apply list_elem_of_lookup in Hcol as [i Hi].
  apply list_elem_of_lookup in Hcin as [j Hj].
  assert (getCell b (Z.of_nat i) (Z.of_nat j) = Some c) as Hcell.
  { apply at2_Some. exists col. rewrite !Nat2Z.id. repeat split; try done; lia. }
  destruct (Hc _ _ _ Hcell) as (r & Hr & Hlt & Hok).
  exists r. split; [done|]. split; [done|].
  destruct (color c) as [cc|]; [|done].
  destruct Hok as (_ & Hmem & _). split; [done|]. intros Hnil.
  assert ((Z.of_nat i, Z.of_nat j) ∈ deref hp r) as Hin by (apply Hmem, rtc_refl).
  rewrite Hnil in Hin. by apply elem_of_nil in Hin.
Qed.

(** ** The steps on one column *)

Lemma everyEmpty_tidy (hp : list (list (Z * Z))) (col : list Cell) :
  Forall (cellTidy hp) col ->
  everyEmpty hp col = Some (emptyCol (map color col)).
Proof.
  induction 1 as [|c col (r & Hr & Hlt & Hiff) _ IH]; [done|].
  cbn [everyEmpty map]. rewrite Hr. unfold emptyCol in *. cbn [forallb].
  destruct (color c) as [cc|] eqn:Hc.
  - rewrite bool_decide_eq_false_2 by done.
    destruct (deref hp r) eqn:Hd; [|reflexivity].
    destruct Hiff as [_ Hiff]. specialize (Hiff eq_refl). done.
  - destruct Hiff as [Hiff _]. rewrite (Hiff eq_refl).
    rewrite bool_decide_eq_true_2 by done. exact IH.
Qed.

Lemma unshiftEmpty_spec (n : nat) (col : list Cell) (hp : list (list (Z * Z))) :
  exists new,
    unshiftEmpty n col hp = (new ++ col, hp ++ repeat [] n) /\
    length new = n /\ map color new = repeat None n /\
    Forall (cellTidy (hp ++ repeat [] n)) new.
Proof.
  revert col hp. induction n as [|n IH]; intros col hp.
  { exists []. simpl. by rewrite app_nil_r. }
  simpl. destruct (IH (emptyCell hp :: col) (alloc hp))
    as (new & -> & Hlen & Hcol & Hty).
  exists (new ++ [emptyCell hp]). unfold alloc in *.
  rewrite <- !app_assoc in Hty. rewrite <- !app_assoc. simpl in *. split; [done|].
  split; [rewrite length_app; simpl; lia|]. split.
  - rewrite map_app, Hcol. simpl. by rewrite <- repeat_cons.
  - apply Forall_app. split; [done|]. constructor; [|done].
    eapply cellTidy_extends; [|apply cellTidy_emptyCell].
    unfold alloc. change ([] :: repeat [] n) with ([[]] ++ repeat (@nil (Z * Z)) n).
    rewrite app_assoc. apply extends_app.
Qed.

Lemma length_gravityColors (h : Z) (hc : list (Z * Z)) (x : Z)
    (cs : list (option string)) :
  length cs = Z.to_nat h -> length (gravityColors h hc x cs) = Z.to_nat h.
Proof.
  intros Hl. unfold gravityColors. rewrite length_app, repeat_length.
  pose proof (fold_splice_length_le (clusterRows hc x) cs). lia.
Qed.

Lemma padTop_spec (h : Z) (hc : list (Z * Z)) (x : Z) (col : list Cell)
    (hp : list (list (Z * Z))) :
  Forall (cellTidy hp) col ->
  exists col' hp',
    padTop h (fold_left splice1 (clusterRows hc x) col) hp = (col', hp') /\
    map color col' = gravityColors h hc x (map color col) /\
    Forall (cellTidy hp') col' /\ extends hp hp'.
Proof.
  intros Hty. unfold padTop.
  destruct (unshiftEmpty_spec
    (Z.to_nat (h - Z.of_nat (length (fold_left splice1 (clusterRows hc x) col))))
    (fold_left splice1 (clusterRows hc x) col) hp) as (new & -> & Hlen & Hcol & Hnew).
  eexists _, _. split; [done|]. split; [|split; [|apply extends_app]].
  - unfold gravityColors. rewrite map_app, Hcol, <- fold_splice_map, length_map. done.
  - apply Forall_app. split; [done|].
    assert (Forall (cellTidy hp) (fold_left splice1 (clusterRows hc x) col)) as Hf.
    { clear -Hty. revert col Hty.
      induction (clusterRows hc x) as [|y ys IH]; intros col Hty; [done|].
      simpl. apply IH. unfold splice1. apply Forall_app.
      split; [by apply Forall_take|by apply Forall_drop]. }
    eapply Forall_impl; [exact Hf|]. intros c.
    apply cellTidy_extends, extends_app.
Qed.

(** ** Loops over a range of indices *)

Lemma forEach_seq {I S : Type} (f : nat -> I) (body : I -> S -> completion S)
    (P : nat -> S -> Prop) (n : nat) (s : S) :
  P 0%nat s ->
  (forall k s0, (k < n)%nat -> P k s0 ->
     exists s', body (f k) s0 = Normal s' /\ P (Datatypes.S k) s') ->
  exists s', forEach body (map f (seq 0 n)) s = Normal s' /\ P n s'.
Proof.
  intros H0 Hstep. induction n as [|n IH].
  - exists s. done.
  - destruct IH as (s1 & Hrun & HP); [intros k s0 Hk; apply Hstep; lia|].
    rewrite seq_S, map_app, forEach_app, Hrun. simpl.
    destruct (Hstep n s1) as (s2 & -> & HP2); [lia|done|].
    exists s2. done.
Qed.

Lemma rev_zrange (n : nat) :
  rev (zrange (Z.of_nat n)) =
  map (fun k => Z.of_nat n - 1 - Z.of_nat k) (seq 0 n).
Proof.
  unfold zrange. rewrite Nat2Z.id. induction n as [|n IH]; [done|].
  rewrite seq_S at 1. rewrite map_app, rev_app_distr. simpl.
  rewrite IH. f_equal; [lia|].
  rewrite <- seq_shift, map_map. apply map_ext. intros k. lia.
Qed.

(** ** Moving the columns to the left (lines 247-254) *)

Lemma insert_take_drop_next {A : Type} (src dst : list A) (k : nat) (c : A) :
  src !! k = Some c -> length dst = length src ->
  <[k := c]> (take k src ++ drop k dst) = take (S k) src ++ drop (S k) dst.
Proof.
  intros Hc Hl. pose proof (lookup_lt_Some _ _ _ Hc) as Hk.
  rewrite insert_app_r_alt by (rewrite length_take; lia).
  rewrite length_take, Nat.min_l, Nat.sub_diag by lia.
  destruct (lookup_lt_is_Some_2 dst k) as [d Hd]; [lia|].
  rewrite (drop_S dst d k Hd). simpl.
  rewrite (take_S_r src k c Hc), <- app_assoc. done.
Qed.

Lemma writeAt_in (col : list Cell) (k : nat) (c : Cell) :
  (k < length col)%nat -> writeAt col (Z.of_nat k) c = <[k := c]> col.
Proof.
  intros Hk. unfold writeAt. destruct (Z.ltb_spec (Z.of_nat k) (Z.of_nat (length col))); [|lia].
  by rewrite Nat2Z.id.
Qed.

Lemma zget_nat {A : Type} (l : list A) (i : nat) : zget l (Z.of_nat i) = l !! i.
Proof.
  unfold zget. destruct (Z.ltb_spec (Z.of_nat i) 0); [lia|]. by rewrite Nat2Z.id.
Qed.

Lemma shift_copy (w h : Z) (mx : nat) (b : list (list Cell))
    (hp : list (list (Z * Z))) (src dst : list Cell) :
  Z.of_nat mx < w - 1 ->
  b !! mx = Some dst -> b !! S mx = Some src ->
  length dst = Z.to_nat h -> length src = Z.to_nat h ->
  forEach (shiftCell w (Z.of_nat mx)) (zrange h) (b, hp) =
  Normal (<[mx := src]> b, hp).
Proof.
  intros Hmx Hdst Hsrc Hld Hls.
  pose proof (lookup_lt_Some _ _ _ Hdst) as Hlt.
  destruct (forEach_seq Z.of_nat (shiftCell w (Z.of_nat mx))
    (fun k s => s = (<[mx := take k src ++ drop k dst]> b, hp))
    (Z.to_nat h) (b, hp)) as (s' & Hrun & ->).
  - simpl. by rewrite list_insert_id.
  - intros k s0 Hk ->. unfold shiftCell.
    rewrite zget_nat, list_lookup_insert_eq by done.
    destruct (Z.ltb_spec (Z.of_nat mx) (w - 1)); [|lia].
    unfold getCell, at2. replace (Z.of_nat mx + 1) with (Z.of_nat (S mx)) by lia.
    rewrite zget_nat, list_lookup_insert_ne, Hsrc by lia.
    rewrite zget_nat.
    destruct (lookup_lt_is_Some_2 src k) as [c Hc]; [lia|]. rewrite Hc.
    eexists. split; [done|]. rewrite Nat2Z.id.
    rewrite list_insert_insert_eq. do 2 f_equal.
    rewrite writeAt_in by (rewrite length_app, length_take, length_drop; lia).
    apply insert_take_drop_next; [done|lia].
  - unfold zrange. rewrite Hrun. do 2 f_equal.
    rewrite take_ge, drop_ge by lia. by rewrite app_nil_r.
Qed.

Lemma shift_fresh (w h : Z) (mx : nat) (b : list (list Cell))
    (hp : list (list (Z * Z))) (dst : list Cell) :
  Z.of_nat mx = w - 1 ->
  b !! mx = Some dst -> length dst = Z.to_nat h ->
  exists new hp',
    forEach (shiftCell w (Z.of_nat mx)) (zrange h) (b, hp) =
      Normal (<[mx := new]> b, hp') /\
    map color new = repeat None (Z.to_nat h) /\
    Forall (cellTidy hp') new /\ extends hp hp'.
Proof.
  intros Hmx Hdst Hld.
  pose proof (lookup_lt_Some _ _ _ Hdst) as Hlt.
  destruct (forEach_seq Z.of_nat (shiftCell w (Z.of_nat mx))
    (fun k s => exists new,
       s = (<[mx := new ++ drop k dst]> b, hp ++ repeat [] k) /\
       length new = k /\ map color new = repeat None k /\
       Forall (cellTidy (hp ++ repeat [] k)) new)
    (Z.to_nat h) (b, hp)) as (s' & Hrun & new & -> & Hlen & Hcol & Hty).
  - exists []. simpl. rewrite list_insert_id, app_nil_r by done. done.
  - intros k s0 Hk (new & -> & Hlen & Hcol & Hty). unfold shiftCell.
    rewrite zget_nat, list_lookup_insert_eq by done.
    destruct (Z.ltb_spec (Z.of_nat mx) (w - 1)); [lia|].
    eexists. split; [done|]. rewrite Nat2Z.id, list_insert_insert_eq.
    exists (new ++ [emptyCell (hp ++ repeat [] k)]).
    split; [|split; [|split]].
    + f_equal.
      * f_equal. rewrite writeAt_in by (rewrite length_app, length_drop; lia).
        rewrite insert_app_r_alt by lia. rewrite Hlen, Nat.sub_diag.
        destruct (lookup_lt_is_Some_2 dst k) as [d Hd]; [lia|].
        rewrite (drop_S dst d k Hd). simpl. by rewrite <- app_assoc.
      * unfold alloc. rewrite <- app_assoc. f_equal.
        change [[]] with (repeat (@nil (Z * Z)) 1). rewrite <- repeat_app.
        f_equal. lia.
    + rewrite length_app. simpl. lia.
    + rewrite map_app, Hcol. simpl. by rewrite <- repeat_cons.
    + assert (extends (hp ++ repeat [] k) (hp ++ repeat [] (S k))) as He.
      { replace (S k) with (k + 1)%nat by lia. rewrite repeat_app, app_assoc.
        apply extends_app. }
      apply Forall_app. split.
      * eapply Forall_impl; [exact Hty|]. intros c. by apply cellTidy_extends.
      * constructor; [|done].
        replace (S k) with (k + 1)%nat by lia. rewrite repeat_app, app_assoc.
        apply cellTidy_emptyCell.
  - exists new, (hp ++ repeat [] (Z.to_nat h)). unfold zrange. rewrite Hrun.
    rewrite drop_ge, app_nil_r by lia.
    split; [done|]. split; [done|]. split; [done|apply extends_app].
Qed.

Lemma shiftLeft_spec (w h : Z) (x : nat) (b : list (list Cell))
    (hp : list (list (Z * Z))) :
  shaped w h b -> Z.of_nat x < w ->
  exists new hp',
    shiftLeft w h (Z.of_nat x) (b, hp) =
      Normal (take x b ++ drop (S x) b ++ [new], hp') /\
    map color new = repeat None (Z.to_nat h) /\
    Forall (cellTidy hp') new /\ extends hp hp'.
Proof.
  intros [Hw Hh] Hx. rewrite Forall_forall in Hh.
  assert (forall i col, b !! i = Some col -> length col = Z.to_nat h) as Hcol.
  { intros i col Hi. apply Hh. by eapply list_elem_of_lookup_2. }
  unfold shiftLeft, zfrom.
  replace (Z.to_nat (w - Z.of_nat x)) with (S (Z.to_nat w - 1 - x)) by lia.
  rewrite seq_S, map_app, forEach_app. simpl.
  destruct (forEach_seq (fun k => Z.of_nat x + Z.of_nat k)
    (fun mx => forEach (shiftCell w mx) (zrange h))
    (fun k s => s = (take x b ++ take k (drop (S x) b) ++ drop (x + k) b, hp))
    (Z.to_nat w - 1 - x) (b, hp)) as (s' & -> & ->).
  - simpl. by rewrite Nat.add_0_r, take_drop.
  - intros k s0 Hk ->.
    destruct (lookup_lt_is_Some_2 b (x + k)) as [dst Hdst]; [lia|].
    destruct (lookup_lt_is_Some_2 b (S (x + k))) as [src Hsrc]; [lia|].
    assert (length (take x b) = x) as Hl1 by (rewrite length_take; lia).
    assert (length (take k (drop (S x) b)) = k) as Hl2
      by (rewrite length_take, length_drop; lia).
    replace (Z.of_nat x + Z.of_nat k) with (Z.of_nat (x + k)) by lia.
    rewrite (shift_copy w h (x + k) _ hp src dst).
    + eexists. split; [done|]. f_equal.
      rewrite insert_app_r_alt by lia. rewrite Hl1.
      rewrite insert_app_r_alt by lia. rewrite Hl2.
      replace (x + k - x - k)%nat with 0%nat by lia.
      rewrite (drop_S b dst (x + k) Hdst). simpl.
      rewrite (take_S_r (drop (S x) b) k src)
        by (rewrite lookup_drop; rewrite <- Hsrc; f_equal; lia).
      rewrite <- !app_assoc. simpl. do 3 f_equal. f_equal. lia.
    + lia.
    + rewrite lookup_app_r by lia. rewrite Hl1.
      rewrite lookup_app_r by lia. rewrite Hl2.
      rewrite lookup_drop. rewrite <- Hdst. f_equal. lia.
    + rewrite lookup_app_r by lia. rewrite Hl1.
      rewrite lookup_app_r by lia. rewrite Hl2.
      rewrite lookup_drop. rewrite <- Hsrc. f_equal. lia.
    + by eapply Hcol.
    + by eapply Hcol.
  - destruct (lookup_lt_is_Some_2 b (Z.to_nat w - 1)) as [dst Hdst]; [lia|].
    assert (take (Z.to_nat w - 1 - x) (drop (S x) b) = drop (S x) b) as Ht
      by (apply take_ge; rewrite length_drop; lia).
    assert (drop (x + (Z.to_nat w - 1 - x)) b = [dst]) as Hd.
    { replace (x + (Z.to_nat w - 1 - x))%nat with (Z.to_nat w - 1)%nat by lia.
      rewrite (drop_S b dst _ Hdst). rewrite drop_ge by lia. done. }
    rewrite Ht, Hd.
    replace (Z.of_nat x + Z.of_nat (Z.to_nat w - 1 - x)) with
      (Z.of_nat (Z.to_nat w - 1)) by lia.
    destruct (shift_fresh w h (Z.to_nat w - 1) (take x b ++ drop (S x) b ++ [dst])
      hp dst) as (new & hp' & -> & Hc & Hty & He).
    + lia.
    + rewrite app_assoc. rewrite lookup_app_r
        by (rewrite length_app, length_take, length_drop; lia).
      rewrite length_app, length_take, length_drop.
      replace (Z.to_nat w - 1 - (x `min` length b + (length b - S x)))%nat
        with 0%nat by lia. done.
    + by eapply Hcol.
    + exists new, hp'. split; [|done]. do 2 f_equal.
      rewrite app_assoc. rewrite insert_app_r_alt
        by (rewrite length_app, length_take, length_drop; lia).
      rewrite length_app, length_take, length_drop.
      replace (Z.to_nat w - 1 - (x `min` length b + (length b - S x)))%nat
        with 0%nat by lia. simpl. by rewrite <- app_assoc.
Qed.

(** ** One column of the removal, on the colours *)

Lemma sameSession_refl (st : State) : sameSession st st.
Proof. by repeat split. Qed.

Lemma sameSession_trans (st1 st2 st3 : State) :
  sameSession st1 st2 -> sameSession st2 st3 -> sameSession st1 st3.
Proof.
  unfold sameSession. intros (?&?&?&?&?&?&?&?) (?&?&?&?&?&?&?&?).
  repeat split; congruence.
Qed.

Lemma shaped_lookup {A : Type} (w h : Z) (m : list (list A)) (i : nat)
    (col : list A) :
  shaped w h m -> m !! i = Some col -> length col = Z.to_nat h.
Proof.
  intros [_ Hh] Hi. rewrite Forall_forall in Hh. apply Hh.
  by eapply list_elem_of_lookup_2.
Qed.

Lemma map_color_length (col : list Cell) (n : nat) :
  map color col = repeat None n -> length col = n.
Proof. intros H. by rewrite <- (length_map color), H, repeat_length. Qed.

Lemma clickColumn_spec (hc : list (Z * Z)) (x : nat) (st : State) :
  shaped (width st) (height st) (board st) ->
  tidy (board st) (heap st) ->
  Z.of_nat x < width st ->
  exists st',
    clickColumn hc (Z.of_nat x) st = Normal st' /\
    colorsOf (board st') = stepColors (height st) hc x (colorsOf (board st)) /\
    shaped (width st) (height st) (board st') /\
    tidy (board st') (heap st') /\ extends (heap st) (heap st') /\
    numCells st' =
      numCells st - Z.of_nat (length (clusterRows hc (Z.of_nat x))) /\
    sameSession st st'.
Proof.
  intros Hs Ht Hx. unfold clickColumn. rewrite zget_nat.
  destruct (lookup_lt_is_Some_2 (board st) x) as [col Hcol]; [destruct Hs; lia|].
  rewrite Hcol.
  assert (Forall (cellTidy (heap st)) col) as Htc.
  { unfold tidy in Ht. rewrite Forall_forall in Ht. apply Ht.
    by eapply list_elem_of_lookup_2. }
  destruct (padTop_spec (height st) hc (Z.of_nat x) col (heap st) Htc)
    as (col2 & hp2 & -> & Hc2 & Ht2 & He2).
  pose proof (shaped_lookup _ _ _ _ _ Hs Hcol) as Hlcol.
  assert (length col2 = Z.to_nat (height st)) as Hl2.
  { rewrite <- (length_map color), Hc2. apply length_gravityColors.
    by rewrite length_map. }
  rewrite (everyEmpty_tidy hp2 col2 Ht2), Hc2, Nat2Z.id.
  assert (shaped (width st) (height st) (<[x := col2]> (board st))) as Hs2.
  { destruct Hs as [Hw Hh]. split; [by rewrite length_insert|].
    by apply Forall_insert. }
  assert (tidy (<[x := col2]> (board st)) hp2) as Htb2.
  { apply Forall_insert; [|done]. by apply (tidy_extends (heap st)). }
  unfold stepColors, colorsOf at 2.
  change (map (map color) (board st)) with (map color <$> board st).
  rewrite list_lookup_fmap, Hcol. simpl.
  destruct (emptyCol (gravityColors (height st) hc (Z.of_nat x) (map color col))).
  - destruct (shiftLeft_spec (width st) (height st) x (<[x := col2]> (board st)) hp2 Hs2 Hx)
      as (new & hp3 & -> & Hc3 & Ht3 & He3).
    simpl. eexists. split; [done|]. simpl.
    rewrite take_insert_ge, drop_insert_lt by lia.
    split; [|split; [|split; [|split; [|split]]]].
    + unfold colorsOf. rewrite !map_app. simpl. rewrite Hc3.
      change (map (map color)) with (fmap (M:=list) (map color)).
      by rewrite fmap_take, fmap_drop.
    + destruct Hs as [Hw Hh]. split.
      * rewrite !length_app, length_take, length_drop. simpl. lia.
      * apply Forall_app. split; [by apply Forall_take|].
        apply Forall_app. split; [by apply Forall_drop|].
        constructor; [|done]. by apply map_color_length in Hc3.
    + assert (tidy (board st) hp3) as Ht'.
      { eapply tidy_extends; [|exact Ht]. by eapply extends_trans. }
      apply Forall_app. split; [by apply Forall_take|].
      apply Forall_app. split; [by apply Forall_drop|]. by constructor.
    + by eapply extends_trans.
    + done.
    + by repeat split.
  - eexists. split; [done|]. simpl.
    split; [|split; [done|split; [done|split; [done|split; [done|by repeat split]]]]].
    unfold colorsOf. change (map (map color)) with (fmap (M:=list) (map color)).
    by rewrite list_fmap_insert, Hc2.
Qed.

Lemma length_settle (h : Z) (hc : list (Z * Z)) (x0 : nat)
    (g : list (list (option string))) :
  length (settle h hc x0 g) = length g.
Proof.
  revert x0. induction g as [|cs g IH]; intros x0; simpl; [done|].
  destruct (emptyCol _); [rewrite length_app|]; simpl; rewrite IH; lia.
Qed.

Lemma stepColors_settle (h : Z) (hc : list (Z * Z)) (x : nat)
    (g : list (list (option string))) (cs : list (option string)) :
  g !! x = Some cs ->
  stepColors h hc x (take (S x) g ++ settle h hc (S x) (drop (S x) g)) =
  take x g ++ settle h hc x (drop x g).
Proof.
  intros Hcs. pose proof (lookup_lt_Some _ _ _ Hcs) as Hlt.
  unfold stepColors.
  assert (length (take (S x) g) = S x) as Hl by (rewrite length_take; lia).
  rewrite lookup_app_l by lia. rewrite lookup_take_lt by lia. rewrite Hcs.
  rewrite (drop_S g cs x Hcs). simpl.
  destruct (emptyCol (gravityColors h hc (Z.of_nat x) cs)).
  - rewrite take_app_le by lia. rewrite take_take, Nat.min_l by lia.
    rewrite drop_app_length' by done. done.
  - rewrite insert_app_l by lia. rewrite (take_S_r g x cs Hcs).
    rewrite insert_app_r_alt by (rewrite length_take; lia).
    rewrite length_take, Nat.min_l, Nat.sub_diag by lia. simpl.
    by rewrite <- app_assoc.
Qed.

Lemma entriesIn_step (hc : list (Z * Z)) (lo hi : Z) :
  lo < hi ->
  entriesIn hc lo hi =
  (length (clusterRows hc lo) + entriesIn hc (lo + 1) hi)%nat.
Proof.
  intros Hlt. rewrite length_clusterRows. unfold entriesIn.
  induction hc as [|p hc IH]; [done|].
  rewrite !filter_cons. repeat case_decide; simpl; lia.
Qed.

Lemma entriesIn_all (hc : list (Z * Z)) (lo hi : Z) :
  (forall p, p ∈ hc -> lo <= fst p < hi) -> entriesIn hc lo hi = length hc.
Proof.
  unfold entriesIn. induction hc as [|p hc IH]; intros H; [done|].
  rewrite filter_cons, decide_True by (apply H; left). simpl.
  rewrite IH; [done|]. intros q Hq. apply H. by right.
Qed.

(** The loop over the columns (lines 226-256). *)
Lemma clickLoop_spec (hc : list (Z * Z)) (st : State) :
  shaped (width st) (height st) (board st) ->
  tidy (board st) (heap st) ->
  0 <= width st ->
  exists st',
    forEach (clickColumn hc) (rev (zrange (width st))) st = Normal st' /\
    colorsOf (board st') = settle (height st) hc 0 (colorsOf (board st)) /\
    shaped (width st) (height st) (board st') /\
    tidy (board st') (heap st') /\ extends (heap st) (heap st') /\
    numCells st' = numCells st - Z.of_nat (entriesIn hc 0 (width st)) /\
    sameSession st st'.
Proof.
  intros Hs Ht Hw.
  set (n := Z.to_nat (width st)).
  assert (rev (zrange (width st)) =
          map (fun k => Z.of_nat n - 1 - Z.of_nat k) (seq 0 n)) as ->.
  { rewrite <- rev_zrange. unfold n. by rewrite Z2Nat.id. }
  destruct (forEach_seq (fun k => Z.of_nat n - 1 - Z.of_nat k) (clickColumn hc)
    (fun k st' =>
       colorsOf (board st') =
         take (n - k) (colorsOf (board st)) ++
         settle (height st) hc (n - k) (drop (n - k) (colorsOf (board st))) /\
       shaped (width st) (height st) (board st') /\
       tidy (board st') (heap st') /\ extends (heap st) (heap st') /\
       numCells st' =
         numCells st - Z.of_nat (entriesIn hc (Z.of_nat (n - k)) (width st)) /\
       sameSession st st')
    n st) as (st' & Hrun & Hc & Hs' & Ht' & He' & Hn' & Hsame).
  - assert (length (colorsOf (board st)) = n) as Hl.
    { unfold colorsOf. rewrite length_map. by destruct Hs. }
    rewrite Nat.sub_0_r, take_ge, drop_ge by lia. simpl. rewrite app_nil_r.
    split; [done|]. split; [done|]. split; [done|]. split; [apply extends_refl|].
    split; [|apply sameSession_refl].
    assert (entriesIn hc (Z.of_nat n) (width st) = 0%nat) as ->; [|lia].
    unfold entriesIn. induction hc as [|p hc IH]; [done|].
    rewrite filter_cons, decide_False by lia. done.
  - intros k st1 Hk (Hc1 & Hs1 & Ht1 & He1 & Hn1 & Hsame1).
    pose proof Hsame1 as (Hw1 & Hh1 & _).
    replace (Z.of_nat n - 1 - Z.of_nat k) with (Z.of_nat (n - 1 - k)) by lia.
    destruct (clickColumn_spec hc (n - 1 - k) st1)
      as (st2 & Hrun & Hc2 & Hs2 & Ht2 & He2 & Hn2 & Hsame2).
    { by rewrite Hw1, Hh1. }
    { done. }
    { rewrite Hw1. lia. }
    exists st2. split; [done|]. rewrite Hw1, Hh1 in *.
    assert (length (colorsOf (board st)) = n) as Hl.
    { unfold colorsOf. rewrite length_map. by destruct Hs. }
    destruct (lookup_lt_is_Some_2 (colorsOf (board st)) (n - 1 - k)) as [cs Hcs];
      [lia|].
    split; [|split; [done|split; [done|split; [by eapply extends_trans|split]]]].
    + rewrite Hc2, Hc1. replace (n - k)%nat with (S (n - 1 - k)) by lia.
      replace (n - S k)%nat with (n - 1 - k)%nat by lia.
      by apply stepColors_settle with cs.
    + rewrite Hn2, Hn1.
      rewrite (entriesIn_step hc (Z.of_nat (n - S k))) by lia.
      replace (Z.of_nat (n - S k) + 1) with (Z.of_nat (n - k)) by lia.
      replace (n - 1 - k)%nat with (n - S k)%nat by lia. lia.
    + by eapply sameSession_trans.
  - exists st'. split; [done|]. rewrite Nat.sub_diag in Hc, Hn'.
    rewrite take_0, drop_0 in Hc. done.
Qed.

(** ** The settled columns *)

Lemma tiles_repeat_None (n : nat) : tiles (repeat None n) = 0%nat.
Proof.
  unfold tiles. induction n as [|n IH]; [done|]. simpl.
  by rewrite filter_cons, decide_False by (intros H; by apply H).
Qed.

Lemma emptyCol_repeat_None (n : nat) : emptyCol (repeat None n) = true.
Proof. unfold emptyCol. induction n as [|n IH]; [done|]. simpl. exact IH. Qed.

Lemma emptyCol_tiles (cs : list (option string)) :
  emptyCol cs = true -> tiles cs = 0%nat.
Proof.
  unfold emptyCol, tiles. induction cs as [|c cs IH]; [done|]. simpl.
  intros [Hc Hcs]%andb_true_iff. apply bool_decide_eq_true in Hc. subst c.
  rewrite filter_cons, decide_False by (intros H; by apply H). auto.
Qed.

Lemma emptySuffix_settle (h : Z) (hc : list (Z * Z)) (x0 : nat)
    (g : list (list (option string))) :
  emptySuffix (settle h hc x0 g).
Proof.
  revert x0. induction g as [|cs g IH]; intros x0; simpl.
  { intros i j ci cj _ Hi. by rewrite lookup_nil in Hi. }
  destruct (emptyCol (gravityColors h hc (Z.of_nat x0) cs)) eqn:He.
  - intros i j ci cj Hij Hi Hj Hci.
    pose proof (lookup_lt_Some _ _ _ Hj) as Hlj.
    rewrite length_app in Hlj. simpl in Hlj.
    destruct (decide (j < length (settle h hc (S x0) g))%nat) as [Hjl|Hjl].
    + rewrite lookup_app_l in Hi, Hj by lia. by eapply (IH (S x0) i j).
    + rewrite lookup_app_r in Hj by lia.
      replace (j - length (settle h hc (S x0) g))%nat with 0%nat in Hj by lia.
      injection Hj as <-. apply emptyCol_repeat_None.
  - intros [|i] [|j] ci cj Hij Hi Hj Hci; simpl in *; try lia.
    + injection Hi as <-. congruence.
    + eapply (IH (S x0) i j); [lia|done|done|done].
Qed.

Lemma gravityColors_tiles (h : Z) (hc : list (Z * Z)) (x : Z)
    (cs : list (option string)) :
  NoDup hc ->
  (forall y, (x, y) ∈ hc -> exists c, zget cs y = Some (Some c)) ->
  (tiles (gravityColors h hc x cs) + length (clusterRows hc x) = tiles cs)%nat.
Proof.
  intros Hnd Hin. unfold gravityColors.
  rewrite tiles_app, tiles_repeat_None. simpl.
  apply fold_splice_tiles; [by apply clusterRows_descending|].
  intros r Hr. apply elem_of_clusterRows in Hr.
  destruct (Hin r Hr) as (c & Hc). apply zget_Some in Hc as [? ?]. eauto.
Qed.

Lemma zget_cons_succ {A : Type} (a : A) (l : list A) (i : Z) :
  0 <= i -> zget (a :: l) (i + 1) = zget l i.
Proof.
  intros Hi. unfold zget.
  destruct (Z.ltb_spec (i + 1) 0); [lia|]. destruct (Z.ltb_spec i 0); [lia|].
  replace (Z.to_nat (i + 1)) with (S (Z.to_nat i)) by lia. done.
Qed.

Lemma entriesIn_none (hc : list (Z * Z)) (lo hi : Z) :
  hi <= lo -> entriesIn hc lo hi = 0%nat.
Proof.
  intros H. unfold entriesIn. induction hc as [|p hc IH]; [done|].
  by rewrite filter_cons, decide_False by lia.
Qed.

Lemma settle_tiles (h : Z) (hc : list (Z * Z)) (x0 : nat)
    (g : list (list (option string))) :
  NoDup hc ->
  (forall x y, (x, y) ∈ hc ->
     Z.of_nat x0 <= x < Z.of_nat x0 + Z.of_nat (length g) ->
     exists c, at2 g (x - Z.of_nat x0) y = Some (Some c)) ->
  (tiles (concat (settle h hc x0 g)) +
   entriesIn hc (Z.of_nat x0) (Z.of_nat x0 + Z.of_nat (length g)) =
   tiles (concat g))%nat.
Proof.
  intros Hnd. revert x0. induction g as [|cs g IH]; intros x0 Hin.
  { simpl. rewrite entriesIn_none by lia. done. }
  cbn [settle concat length]. rewrite tiles_app.
  rewrite (entriesIn_step hc (Z.of_nat x0)) by lia.
  assert (tiles (gravityColors h hc (Z.of_nat x0) cs) +
          length (clusterRows hc (Z.of_nat x0)) = tiles cs)%nat as Hcol.
  { apply gravityColors_tiles; [done|]. intros y Hy.
    destruct (Hin _ _ Hy) as (c & Hc); [simpl; lia|].
    rewrite Z.sub_diag in Hc. eauto. }
  assert (tiles (concat (settle h hc (S x0) g)) +
          entriesIn hc (Z.of_nat (S x0)) (Z.of_nat (S x0) + Z.of_nat (length g)) =
          tiles (concat g))%nat as Hrest.
  { apply IH. intros x y Hxy Hx.
    destruct (Hin _ _ Hxy) as (c & Hc); [simpl; lia|].
    exists c. rewrite <- Hc. unfold at2.
    replace (x - Z.of_nat x0) with (x - Z.of_nat (S x0) + 1) by lia.
    rewrite zget_cons_succ by lia. done. }
  replace (Z.of_nat x0 + 1) with (Z.of_nat (S x0)) by lia.
  replace (Z.of_nat x0 + Z.of_nat (S (length g))) with
    (Z.of_nat (S x0) + Z.of_nat (length g)) by lia.
  destruct (emptyCol (gravityColors h hc (Z.of_nat x0) cs)) eqn:He.
  - apply emptyCol_tiles in He. rewrite concat_app, tiles_app. simpl.
    rewrite app_nil_r, tiles_repeat_None. lia.
  - cbn [concat]. rewrite tiles_app. lia.
Qed.

(** The columns with a tile keep their order, the columns without one are
    gathered at the right. *)
Lemma settle_gravityAll (h : Z) (hc : list (Z * Z)) (x0 : nat)
    (g : list (list (option string))) :
  settle h hc x0 g =
  filter (fun cs => emptyCol cs = false) (gravityAll h hc x0 g) ++
  repeat (repeat None (Z.to_nat h))
    (length (filter (fun cs => emptyCol cs = true) (gravityAll h hc x0 g))).
Proof.
  revert x0. induction g as [|cs g IH]; intros x0; [done|].
  cbn [settle gravityAll]. rewrite !filter_cons, IH.
  destruct (emptyCol (gravityColors h hc (Z.of_nat x0) cs)) eqn:He.
  - rewrite decide_False by done. rewrite decide_True by done.
    rewrite <- app_assoc. f_equal. simpl. by rewrite <- repeat_cons.
  - rewrite decide_True by done. rewrite decide_False by done. done.
Qed.

(** ** The states of a game *)

Lemma clusterOk_extends (b : list (list Cell)) (hp hp' : list (list (Z * Z)))
    (x y : Z) (c : Cell) (r : nat) :
  extends hp hp' -> clusterOk b hp x y c r -> clusterOk b hp' x y c r.
Proof.
  intros He [Hlt Hok]. split; [destruct He; lia|].
  by rewrite (extends_deref hp hp').
Qed.

Lemma clustered_extends (b : list (list Cell)) (hp hp' : list (list (Z * Z))) :
  extends hp hp' -> clustered b hp -> clustered b hp'.
Proof.
  intros He Hc x y c Hcell. destruct (Hc x y c Hcell) as (r & Hr & Hok).
  exists r. split; [done|]. by eapply clusterOk_extends.
Qed.

(** The members of a cluster that has members are distinct tiles. *)
Lemma cluster_members (w h : Z) (b : list (list Cell)) (hp : list (list (Z * Z)))
    (x y : Z) (c : Cell) (r : nat) :
  shaped w h b -> clustered b hp ->
  getCell b x y = Some c -> cluster c = Some r -> deref hp r <> [] ->
  NoDup (deref hp r) /\
  forall p, p ∈ deref hp r ->
    inb w h p /\ exists cc, colorAt (colorsOf b) p = Some (Some cc).
Proof.
  intros Hs Hcl Hcell Hr Hne.
  destruct (Hcl x y c Hcell) as (r' & Hr' & Hlt & Hok).
  assert (r' = r) as -> by congruence.
  destruct (color c) as [cc|] eqn:Hcol; [|done].
  destruct Hok as (Hnd & Hmem & _). split; [done|].
  intros p Hp. apply Hmem in Hp.
  assert (colorAt (colorsOf b) p = Some (Some cc)) as Hcp.
  { eapply conn_color; [exact Hp|]. rewrite colorAt_colorsOf, Hcell. simpl.
    by rewrite Hcol. }
  split; [|eauto]. eapply colorAt_inb; [|exact Hcp]. by apply shaped_colorsOf.
Qed.

Lemma hover_members (st : State) :
  valid st -> hoverArray st <> [] ->
  NoDup (hoverArray st) /\
  forall p, p ∈ hoverArray st ->
    inb (width st) (height st) p /\
    exists cc, colorAt (colorsOf (board st)) p = Some (Some cc).
Proof.
  intros Hv Hne. destruct (v_hover st Hv) as (r & Hr & Hlt & Hcase).
  unfold hoverArray in *. rewrite Hr in *.
  destruct Hcase as [Hnil|(x & y & c & Hcell & Hcl)]; [done|].
  eapply cluster_members; eauto using v_shaped, v_clustered.
Qed.

(** ** checkWin *)

Lemma tidy_cellAt (b : list (list Cell)) (hp : list (list (Z * Z)))
    (p : Z * Z) (c : Cell) :
  tidy b hp -> cellAt b p = Some c -> cellTidy hp c.
Proof.
  intros Ht (col & _ & _ & Hcol & Hc)%at2_Some.
  unfold tidy in Ht. rewrite Forall_forall in Ht.
  specialize (Ht col (list_elem_of_lookup_2 _ _ _ Hcol)).
  rewrite Forall_forall in Ht. apply Ht. by eapply list_elem_of_lookup_2.
Qed.

Lemma checkCells_tidy (b : list (list Cell)) (hp : list (list (Z * Z)))
    (ps : list (Z * Z)) :
  tidy b hp -> (forall p, p ∈ ps -> is_Some (cellAt b p)) ->
  checkCells b hp ps =
  Some (forallb (fun p => bool_decide (colorAt (colorsOf b) p = Some None)) ps).
Proof.
  intros Ht. induction ps as [|[x y] ps IH]; intros Hin; [done|].
  cbn [checkCells forallb].
  destruct (Hin (x, y)) as [c Hc]; [left|].
  change (getCell b x y) with (cellAt b (x, y)). rewrite Hc.
  destruct (tidy_cellAt b hp _ c Ht Hc) as (r & -> & Hlt & Hiff).
  rewrite colorAt_cellAt, Hc. simpl.
  destruct (color c) as [cc|] eqn:Hcol.
  - rewrite bool_decide_eq_false_2 by (intros [=]).
    destruct (deref hp r) eqn:Hd; [|done].
    destruct Hiff as [_ Hiff]. by specialize (Hiff eq_refl).
  - destruct Hiff as [Hiff _]. rewrite (Hiff eq_refl).
    rewrite bool_decide_eq_true_2 by done. simpl. apply IH.
    intros p Hp. apply Hin. by right.
Qed.

Lemma checkWin_total (w h : Z) (b : list (list Cell)) (hp : list (list (Z * Z))) :
  shaped w h b -> clustered b hp ->
  checkWin w h b hp =
  Some (forallb (fun p => bool_decide (colorAt (colorsOf b) p = Some None))
          (positions w h)).
Proof.
  intros Hs Hc. unfold checkWin. apply checkCells_tidy.
  - by eapply clustered_tidy.
  - intros [x y] Hp. apply elem_of_positions in Hp. by apply (at2_is_Some w h).
Qed.

(** ** updateGame *)

Lemma updateGame_spec (st : State) (r : nat) :
  shaped (width st) (height st) (board st) ->
  hoverCluster st = Some r ->
  exists st',
    updateGame st = Normal st' /\
    colorsOf (board st') = colorsOf (board st) /\
    clustered (board st') (heap st') /\
    (exists r', hoverCluster st' = Some r' /\ (r' < length (heap st'))%nat /\
                deref (heap st') r' = []) /\
    score st' = score st +
      Z.of_nat (length (deref (heap st) r)) * Z.of_nat (length (deref (heap st) r)) /\
    numCells st' = numCells st /\
    scoreLeft st' = Some (Z.max ((50 - numCells st) * 100) 0) /\
    scoreTotal st' = Some (score st' + Z.max ((50 - numCells st) * 100) 0) /\
    width st' = width st /\ height st' = height st.
Proof.
  intros Hs Hr. unfold updateGame, handleOut. rewrite Hr.
  assert (exists st1, (match deref (heap st) r with
                       | [] => Normal st
                       | _ :: _ => Normal (updateHoverScore 0 st)
                       end) = Normal st1 /\
            width st1 = width st /\ height st1 = height st /\
            board st1 = board st /\ heap st1 = heap st /\
            hoverCluster st1 = Some r /\ score st1 = score st /\
            numCells st1 = numCells st) as (st1 & -> & Hw1 & Hh1 & Hb1 & Hp1 & Hr1 & Hsc1 & Hn1).
  { destruct (deref (heap st) r); eexists; (split; [done|]); by repeat split. }
  cbn [andThen id]. rewrite Hr1. unfold withBoard, withHover, updateScore. cbn.
  rewrite ?Hw1, ?Hh1, ?Hb1, ?Hp1, ?Hsc1, ?Hn1.
  destruct (updateClusters_spec (width st) (height st) (board st)
    (heap st ++ [[]]) Hs) as (b' & hp' & -> & Hcol & Hcl & Hle & Hold).
  fold (alloc (heap st)) in Hle, Hold.
  unfold withBoard, withHover, updateScore. cbn.
  rewrite ?Hw1, ?Hh1, ?Hb1, ?Hp1, ?Hsc1, ?Hn1.
  assert (shaped (width st) (height st) b') as Hs' by by eapply shaped_same_colors.
  rewrite draw_shaped, (checkWin_total _ _ _ _ Hs' Hcl) by done.
  assert (exists r', Some (length (heap st)) = Some r' /\ (r' < length hp')%nat /\
            deref hp' r' = []) as Hhover.
  { exists (length (heap st)). split; [done|]. rewrite length_alloc in Hle, Hold.
    split; [lia|]. unfold deref. rewrite Hold by lia.
    apply deref_alloc_new. }
  destruct (forallb _ (positions (width st) (height st)));
    eexists; (split; [done|]); cbn; rewrite ?Hsc1, ?Hn1; by repeat split.
Qed.

(** ** handleHover *)

Lemma valid_updateHoverScore (n : Z) (st : State) :
  valid st -> valid (updateHoverScore n st).
Proof. intros [? ? ? ? ? ? ? ? ?]. by split. Qed.

Lemma handleHover_inb (ox oy : Z) (st : State) :
  valid st -> inb (width st) (height st) (ox, oy) ->
  exists c r st',
    getCell (board st) ox oy = Some c /\ cluster c = Some r /\
    handleHover ox oy st = Normal st' /\ valid st' /\
    board st' = board st /\ score st' = score st /\
    numCells st' = numCells st /\ width st' = width st /\
    height st' = height st /\
    (2 <= length (deref (heap st) r) ->
       hoverCluster st' = Some r /\ heap st' = heap st)%nat /\
    (length (deref (heap st) r) < 2 -> hoverArray st' = [])%nat.
Proof.
  intros Hv Hin.
  destruct (at2_is_Some _ _ _ ox oy (v_shaped st Hv) Hin) as [c Hc].
  destruct (v_clustered st Hv ox oy c Hc) as (r & Hr & Hlt & Hok).
  exists c, r. unfold handleHover. unfold getCell at 2. rewrite Hc, Hr.
  destruct (Z.ltb_spec 1 (Z.of_nat (length (deref (heap st) r)))) as [Hn|Hn].
  - eexists. split; [done|]. split; [done|]. split; [done|].
    split; [|cbn; repeat split; try done; lia].
    apply valid_updateHoverScore. destruct Hv as [? ? ? ? ? ? ? ? ?].
    split; try done. exists r. split; [done|]. split; [done|]. right. eauto.
  - eexists. split; [done|]. split; [done|]. split; [done|].
    split; [|cbn; repeat split; try done; try lia].
    + apply valid_updateHoverScore. destruct Hv as [? ? ? ? ? ? ? ? ?].
      split; try done; cbn.
      * eapply clustered_extends; [apply extends_alloc|done].
      * exists (length (heap st)). split; [done|]. rewrite length_alloc.
        split; [lia|]. left. apply deref_alloc_new.
    + intros _. unfold hoverArray. cbn. apply deref_alloc_new.
Qed.

Lemma handleHover_outside (ox oy : Z) (st : State) :
  shaped (width st) (height st) (board st) ->
  ~ inb (width st) (height st) (ox, oy) ->
  handleHover ox oy st = Throw st.
Proof.
  intros Hs Hout. unfold handleHover.
  destruct (getCell (board st) ox oy) as [c|] eqn:Hc; [|done].
  destruct Hout. by eapply at2_inb.
Qed.

(** ** handleClick *)

Lemma handleClick_small (ox oy : Z) (st : State) (r : nat) :
  hoverCluster st = Some r ->
  (length (deref (heap st) r) < 2)%nat ->
  handleClick ox oy st = Normal st.
Proof.
  intros Hr Hn. unfold handleClick. rewrite Hr.
  destruct (Z.ltb_spec (Z.of_nat (length (deref (heap st) r))) 2); [done|lia].
Qed.

Lemma handleClick_removal (ox oy : Z) (st : State) :
  valid st -> (2 <= length (hoverArray st))%nat ->
  exists st2,
    valid st2 /\ handleClick ox oy st = handleHover ox oy st2 /\
    colorsOf (board st2) =
      settle (height st) (hoverArray st) 0 (colorsOf (board st)) /\
    numCells st2 = numCells st - Z.of_nat (length (hoverArray st)) /\
    score st2 = score st +
      Z.of_nat (length (hoverArray st)) * Z.of_nat (length (hoverArray st)) /\
    width st2 = width st /\ height st2 = height st.
Proof.
  intros Hv Hn.
  destruct (hover_members st Hv) as [Hnd Hmem].
  { intros H. rewrite H in Hn. simpl in Hn. lia. }
  destruct (v_hover st Hv) as (r & Hr & Hlt & _).
  unfold hoverArray in *. rewrite Hr in *.
  set (hc := deref (heap st) r) in *.
  unfold handleClick. rewrite Hr. fold hc.
  destruct (Z.ltb_spec (Z.of_nat (length hc)) 2); [lia|].
  destruct (clickLoop_spec hc st (v_shaped st Hv)
    (clustered_tidy (width st) (height st) _ _ (v_clustered st Hv)) (v_width st Hv))
    as (st1 & -> & Hc1 & Hs1 & Ht1 & He1 & Hn1 & Hsame1).
  destruct Hsame1 as (Hw1 & Hh1 & Hr1 & Hsc1 & _).
  rewrite Hr in Hr1. cbn [andThen id].
  destruct (updateGame_spec st1 r) as (st2 & -> & Hc2 & Hcl2 & Hhov2 & Hsc2 & Hn2 &
    Hsl2 & Hst2 & Hw2 & Hh2); [by rewrite Hw1, Hh1|done|].
  cbn [andThen id].
  assert (deref (heap st1) r = hc) as Hd1 by by apply extends_deref.
  rewrite Hd1 in Hsc2.
  assert (entriesIn hc 0 (width st) = length hc) as Hall.
  { apply entriesIn_all. intros p Hp. by destruct (Hmem p Hp) as [[? _] _]. }
  assert (length (colorsOf (board st)) = Z.to_nat (width st)) as Hlg.
  { unfold colorsOf. rewrite length_map. by destruct (v_shaped st Hv). }
  pose proof (settle_tiles (height st) hc 0 (colorsOf (board st)) Hnd) as Htiles.
  rewrite Hlg in Htiles. simpl in Htiles.
  rewrite Z2Nat.id in Htiles by apply (v_width st Hv).
  change (Z.of_nat 0) with 0 in Htiles. rewrite Z.add_0_l, Hall in Htiles.
  exists st2. split; [|split; [done|split; [congruence|split; [|split; [|split]]]]];
    try lia; try congruence.
  split; try (rewrite ?Hw2, ?Hh2, ?Hw1, ?Hh1; try done).
  - apply (v_width st Hv).
  - apply (v_height st Hv).
  - eapply shaped_same_colors; [exact Hc2|done].
  - destruct Hhov2 as (r' & Hr' & Hlt' & Hnil). exists r'. auto.
  - rewrite Hn2, Hn1, Hall, (v_numCells st Hv). unfold tilesOf.
    rewrite Hc2, Hc1.
    assert (tiles (concat (settle (height st) hc 0 (colorsOf (board st)))) +
            length hc = tiles (concat (colorsOf (board st))))%nat; [|lia].
    apply Htiles. intros x y Hxy _.
    destruct (Hmem (x, y) Hxy) as [_ (cc & Hcc)]. exists cc.
    by rewrite Z.sub_0_r.
  - rewrite Hc2, Hc1. apply emptySuffix_settle.
  - by rewrite Hsl2, Hn2.
  - by rewrite Hst2, Hn2.
Qed.

(** ** The constructor *)

Lemma newColumn_spec (pick : Z -> string) (ys : list Z) (hp : list (list (Z * Z))) :
  exists col hp',
    newColumn pick ys hp = (col, hp') /\
    map color col = map (fun y => Some (pick y)) ys /\ extends hp hp'.
Proof.
  revert hp. induction ys as [|y ys IH]; intros hp.
  { exists [], hp. simpl. split; [done|]. split; [done|apply extends_refl]. }
  simpl. destruct (IH (alloc hp)) as (col & hp' & -> & Hc & He).
  eexists _, _. split; [done|]. simpl. rewrite Hc. split; [done|].
  eapply extends_trans; [apply extends_alloc|done].
Qed.

Lemma newColumns_spec (pick : Z -> Z -> string) (h : Z) (xs : list Z)
    (hp : list (list (Z * Z))) :
  exists b hp',
    newColumns pick h xs hp = (b, hp') /\
    colorsOf b = map (fun x => map (fun y => Some (pick x y)) (zrange h)) xs /\
    extends hp hp'.
Proof.
  revert hp. induction xs as [|x xs IH]; intros hp.
  { exists [], hp. simpl. split; [done|]. split; [done|apply extends_refl]. }
  simpl. destruct (newColumn_spec (pick x) (zrange h) hp) as (col & hp1 & -> & Hc & He).
  destruct (IH hp1) as (b & hp2 & -> & Hc2 & He2).
  eexists _, _. split; [done|]. simpl. rewrite Hc, Hc2. split; [done|].
  by eapply extends_trans.
Qed.

Lemma length_zrange (n : Z) : length (zrange n) = Z.to_nat n.
Proof. unfold zrange. by rewrite length_map, length_seq. Qed.

Lemma tiles_full (f : Z -> string) (ys : list Z) :
  tiles (map (fun y => Some (f y)) ys) = length ys.
Proof.
  unfold tiles. induction ys as [|y ys IH]; [done|]. cbn [map].
  rewrite filter_cons, decide_True by done. cbn [length]. by rewrite IH.
Qed.

Lemma boardSizes_lt (w h : Z) : w < 2 ^ 32 -> h < 2 ^ 32 -> boardSizes w h = true.
Proof.
  intros Hw Hh. unfold boardSizes, arrayLength.
  destruct (Z.ltb_spec w (2 ^ 32)); [|lia].
  destruct (Z.ltb_spec h (2 ^ 32)); [|lia]. by rewrite orb_true_r.
Qed.

(** A game was built: the sizes were lengths of arrays. *)
Lemma construct_sizes (w h : Z) (pick : Z -> Z -> string) (st : State) :
  construct w h pick = Normal st -> boardSizes w h = true.
Proof. unfold construct, randomBoard. by destruct (boardSizes w h). Qed.

Lemma construct_valid (w h : Z) (pick : Z -> Z -> string) :
  0 <= w -> 0 <= h -> boardSizes w h = true ->
  exists st, construct w h pick = Normal st /\ valid st /\
             width st = w /\ height st = h.
Proof.
  intros Hw Hh Hsz. unfold construct, randomBoard. rewrite Hsz.
  destruct (newColumns_spec pick h (zrange w) [[]]) as (b & hp & -> & Hc & He).
  assert (shaped w h b) as Hs.
  { apply shaped_colorsOf. rewrite Hc. split.
    - by rewrite length_map, length_zrange.
    - apply Forall_forall. intros col Hcol.
      change (map ?f ?l) with (f <$> l) in Hcol.
      apply list_elem_of_fmap in Hcol as (x & -> & _).
      by rewrite length_map, length_zrange. }
  destruct (updateGame_spec (mkState w h b hp (Some 0%nat) 0 (h * w) None None 0 0) 0%nat)
    as (st & -> & Hc1 & Hcl1 & Hhov1 & Hsc1 & Hn1 & Hsl1 & Hst1 & Hw1 & Hh1);
    [done|done|].
  cbn [andThen id]. eexists. split; [done|].
  change (colorsOf (board st) = colorsOf b) in Hc1.
  simpl in Hw1, Hh1, Hn1, Hsl1, Hst1, Hsc1.
  split; [|done]. apply valid_updateHoverScore. split; rewrite ?Hw1, ?Hh1; try done.
  - eapply shaped_same_colors; [exact Hc1|done].
  - destruct Hhov1 as (r' & Hr' & Hlt' & Hnil). exists r'. auto.
  - rewrite Hn1. unfold tilesOf. rewrite Hc1, Hc.
    assert (forall xs : list Z,
      tiles (concat (map (fun x => map (fun y => Some (pick x y)) (zrange h)) xs))
      = (length xs * Z.to_nat h)%nat) as Hcount.
    { induction xs as [|x xs IH]; [done|]. simpl.
      by rewrite tiles_app, IH, tiles_full, length_zrange. }
    rewrite Hcount, length_zrange. lia.
  - rewrite Hc1, Hc. intros i j ci cj _ Hi Hj Hci.
    change (map ?f ?l) with (f <$> l) in Hi, Hj.
    rewrite list_lookup_fmap in Hi, Hj.
    destruct (zrange w !! i) as [xi|]; [|done].
    destruct (zrange w !! j) as [xj|]; [|done].
    simpl in Hi, Hj. injection Hi as <-. injection Hj as <-.
    destruct (zrange h) as [|y ys]; [done|]. simpl in Hci. done.
  - by rewrite Hsl1, Hn1.
  - by rewrite Hst1, Hn1.
Qed.

(** ** Every state of a run is valid *)

Lemma handle_valid (e : event) (st : State) :
  valid st ->
  exists st', after (handle e st) st' /\ valid st' /\
              width st' = width st /\ height st' = height st /\
              score st <= score st'.
Proof.
  intros Hv. destruct e as [x y| |x y]; simpl.
  - destruct (decide (inb (width st) (height st) (x, y))) as [Hin|Hout].
    + destruct (handleHover_inb x y st Hv Hin)
        as (c & r & st' & _ & _ & -> & Hv' & _ & Hsc & _ & Hw & Hh & _).
      exists st'. split; [by left|]. split; [done|]. split; [done|]. split; [done|]. lia.
    + rewrite (handleHover_outside x y st (v_shaped st Hv) Hout).
      exists st. split; [by right|]. split; [done|]. split; [done|]. split; [done|]. lia.
  - unfold handleOut. destruct (v_hover st Hv) as (r & -> & _).
    destruct (deref (heap st) r).
    + exists st. split; [by left|]. split; [done|]. split; [done|]. split; [done|]. lia.
    + eexists. split; [by left|]. split; [by apply valid_updateHoverScore|].
      cbn. split; [done|]. split; [done|]. lia.
  - destruct (decide (2 <= length (hoverArray st))%nat) as [Hn|Hn].
    + destruct (handleClick_removal x y st Hv Hn)
        as (st2 & Hv2 & -> & _ & _ & Hsc2 & Hw2 & Hh2).
      destruct (decide (inb (width st2) (height st2) (x, y))) as [Hin|Hout].
      * destruct (handleHover_inb x y st2 Hv2 Hin)
          as (c & r & st' & _ & _ & -> & Hv' & _ & Hsc & _ & Hw & Hh & _).
        exists st'. split; [by left|]. split; [done|].
        split; [congruence|]. split; [congruence|]. nia.
      * rewrite (handleHover_outside x y st2 (v_shaped st2 Hv2) Hout).
        exists st2. split; [by right|]. split; [done|].
        split; [done|]. split; [done|]. nia.
    + destruct (v_hover st Hv) as (r & Hr & _).
      unfold hoverArray in Hn. rewrite Hr in Hn.
      rewrite (handleClick_small x y st r Hr) by lia.
      exists st. split; [by left|]. split; [done|]. split; [done|]. split; [done|]. lia.
Qed.

Lemma after_inj (c : completion State) (st1 st2 : State) :
  after c st1 -> after c st2 -> st1 = st2.
Proof. intros [->| ->] [H|H]; congruence. Qed.

Lemma reachable_valid (w h : Z) (pick : Z -> Z -> string) (st : State) :
  0 <= w -> 0 <= h -> reachable w h pick st ->
  valid st /\ width st = w /\ height st = h.
Proof.
  intros Hw Hh. induction 1 as [st Hinit|st e st' _ IH Hstep].
  - destruct (construct_valid w h pick Hw Hh (construct_sizes w h pick st Hinit))
      as (st0 & Hrun & Hv & ? & ?).
    rewrite Hrun in Hinit. injection Hinit as <-. done.
  - destruct IH as (Hv & Hwst & Hhst).
    destruct (handle_valid e st Hv) as (st1 & Hafter & Hv1 & Hw1 & Hh1 & _).
    rewrite (after_inj _ _ _ Hstep Hafter). split; [done|]. split; congruence.
Qed.

(** ** Sample games *)

Lemma game21_reachable : reachable 2 1 twoReds game21.
Proof. apply reach_init. vm_compute. reflexivity. Qed.

Lemma game31_reachable : reachable 3 1 redBlueRed game31.
Proof. apply reach_init. vm_compute. reflexivity. Qed.

(** ** The while loop always ends within its bound *)

Lemma forEach_fuel {I S : Type} (body : I -> S -> completion S)
    (idx : list I) (s : S) :
  (forall i s0, body i s0 <> OutOfFuel) -> forEach body idx s <> OutOfFuel.
Proof.
  intros Hbody. revert s. induction idx as [|i idx IH]; intros s; simpl; [done|].
  destruct (body i s) eqn:E; [apply IH|done|]. by destruct (Hbody i s).
Qed.

Lemma andThen_fuel {S T : Type} (lift : S -> T) (c : completion S)
    (k : S -> completion T) :
  c <> OutOfFuel -> (forall s, k s <> OutOfFuel) -> andThen lift c k <> OutOfFuel.
Proof. intros Hc Hk. destruct c; simpl; [apply Hk|done|done]. Qed.

(** When the cluster of [cell] is an allocated array, the bound is enough. *)
Lemma visit_fuel (w h x y : Z) (fuel : nat) :
  forall b hp tv,
    (forall c a, getCell b x y = Some c -> cluster c = Some a ->
       (a < length hp)%nat) ->
    (visitBound b hp tv <= fuel)%nat ->
    visit fuel w h x y b hp tv <> OutOfFuel.
Proof.
  induction fuel as [|fuel IH]; intros b hp tv HK Hf.
  { unfold visitBound in Hf. lia. }
  destruct tv as [|[ox oy] rest]; [done|]. simpl.
  unfold visitBound in *. simpl in Hf.
  destruct (visitOne w h x y b hp ox oy) as [|b' hp'|b' hp'] eqn:Hone; [| |done].
  - apply IH; [done|lia].
  - unfold visitOne in Hone.
    destruct ((oy <? 0) || (oy =? h) || (ox <? 0) || (ox =? w)); [done|].
    destruct (getCell b ox oy) as [nb|] eqn:Hnb; [|done].
    destruct (hasMembers hp (cluster nb)) eqn:Hm; [done|].
    destruct (getCell b x y) as [cell|] eqn:Hcell; [|done].
    case_bool_decide; [|done].
    destruct (cluster cell) as [a|] eqn:Ha; [|done].
    injection Hone as <- <-.
    pose proof (HK cell a eq_refl Ha) as Hlt.
    pose proof (unassigned_decreases b hp ox oy nb a Hnb Hm Hlt) as Hdec.
    apply IH.
    + intros c a' Hc Ha'. rewrite length_push.
      apply at2_Some in Hnb as Hnn. destruct Hnn as (_ & Hox & Hoy & _).
      rewrite getCell_setCluster in Hc by done.
      case_decide as Heq; [|rewrite Hcell in Hc; by apply (HK c a')].
      injection Heq as -> ->. rewrite Hnb in Hc. simpl in Hc.
      injection Hc as <-. simpl in Ha'. by injection Ha' as <-.
    + unfold neighbours. cbn [length app]. lia.
Qed.

Lemma scanCell_fuel (w h y x : Z) (s : list (list Cell) * list (list (Z * Z))) :
  scanCell w h y x s <> OutOfFuel.
Proof.
  destruct s as [b hp]. unfold scanCell.
  destruct (getCell b x y) as [cell|] eqn:Hcell; [|done].
  destruct (cluster cell); [done|]. destruct (color cell); [|done].
  apply visit_fuel; [|done].
  intros c a Hc Ha. rewrite length_alloc.
  apply at2_Some in Hcell as Hnn. destruct Hnn as (_ & Hx & Hy & _).
  rewrite getCell_setCluster, decide_True, Hcell in Hc by done.
  simpl in Hc. injection Hc as <-. simpl in Ha. injection Ha as <-. lia.
Qed.

Lemma updateClusters_fuel (w h : Z) (b : list (list Cell))
    (hp : list (list (Z * Z))) :
  updateClusters w h b hp <> OutOfFuel.
Proof.
  unfold updateClusters. destruct (draw w h b); [|done].
  apply andThen_fuel.
  - unfold clearClusters. apply forEach_fuel. intros y b0.
    apply forEach_fuel. intros x b1. by destruct (getCell b1 x y).
  - intros b0. apply forEach_fuel. intros y s. apply forEach_fuel.
    intros x s0. apply scanCell_fuel.
Qed.

Lemma updateGame_fuel (st : State) : updateGame st <> OutOfFuel.
Proof.
  unfold updateGame. apply andThen_fuel.
  - unfold handleOut. destruct (hoverCluster st); [|done].
    by destruct (deref (heap st) n).
  - intros st1. destruct (hoverCluster st1); [|done].
    apply andThen_fuel; [apply updateClusters_fuel|].
    intros s. destruct (draw _ _ _); [|done].
    by destruct (checkWin _ _ _ _) as [[|]|].
Qed.

Lemma handleHover_fuel (ox oy : Z) (st : State) : handleHover ox oy st <> OutOfFuel.
Proof.
  unfold handleHover. destruct (getCell (board st) ox oy) as [c|]; [|done].
  destruct (cluster c); [|done]. by destruct (1 <? _).
Qed.

Lemma clickColumn_fuel (hc : list (Z * Z)) (x : Z) (st : State) :
  clickColumn hc x st <> OutOfFuel.
Proof.
  unfold clickColumn. destruct (zget (board st) x); [|done].
  destruct (padTop _ _ _) as [col2 hp2].
  destruct (everyEmpty hp2 col2) as [[|]|]; [|done|done].
  apply andThen_fuel; [|done]. unfold shiftLeft.
  apply forEach_fuel. intros mx s. apply forEach_fuel. intros my [b hp].
  unfold shiftCell. destruct (zget b mx); [|done].
  destruct (mx <? _); [|done]. by destruct (getCell b (mx + 1) my).
Qed.

(** No handler and no constructor call runs out of the bound of the while
    loop, in any state: the bound takes nothing away from the program. *)
Lemma never_out_of_fuel :
  (forall w h pick, construct w h pick <> OutOfFuel) /\
  (forall e st, handle e st <> OutOfFuel).
Proof.
  split.
  - intros w h pick. unfold construct.
    destruct (randomBoard w h pick [[]]) as [[b hp]|]; [|done].
    apply andThen_fuel; [apply updateGame_fuel|done].
  - intros [x y| |x y] st; simpl.
    + apply handleHover_fuel.
    + unfold handleOut. destruct (hoverCluster st); [|done].
      by destruct (deref (heap st) n).
    + unfold handleClick. destruct (hoverCluster st); [|done].
      destruct (_ <? 2); [done|]. apply andThen_fuel.
      * apply forEach_fuel. intros i s. apply clickColumn_fuel.
      * intros st1. apply andThen_fuel; [apply updateGame_fuel|].
        intros st2. apply handleHover_fuel.
Qed.

(** ** checkWin (C1) *)

(** checkWin answers true exactly when no cell of the board has a tile. *)
Lemma checkWin_iff_empty (w h : Z) (b : list (list Cell)) (hp : list (list (Z * Z))) :
  shaped w h b -> clustered b hp ->
  exists v, checkWin w h b hp = Some v /\
    (v = true <-> forall p, inb w h p -> colorAt (colorsOf b) p = Some None).
Proof.
  intros Hs Hc. rewrite (checkWin_total w h b hp Hs Hc). eexists. split; [done|].
  rewrite forallb_forall. split.
  - intros H p Hp. eapply bool_decide_eq_true_1, H, list_elem_of_In.
    by apply elem_of_positions.
  - intros H p Hp. apply bool_decide_eq_true_2, H.
    by apply elem_of_positions, list_elem_of_In.
Qed.

(** C1, at the board [red, blue, red] of one row: every cluster has one
    member, no two adjacent cells share a colour, and checkWin answers
    false; the constructor has alerted nothing. *)
Theorem checkWin_singletons :
  construct 3 1 redBlueRed = Normal game31 /\
  map (fun x => clusterSize game31 x 0) [0; 1; 2] = [Some 1; Some 1; Some 1]%nat /\
  colorsOf (board game31) = [[Some "red"]; [Some "blue"]; [Some "red"]] /\
  checkWin (width game31) (height game31) (board game31) (heap game31)
    = Some false /\
  alerts game31 = 0%nat.
Proof. vm_compute. repeat split. Qed.

(** ** A removal, as a whole *)

Lemma handleClick_after (ox oy : Z) (st : State) :
  valid st -> (2 <= length (hoverArray st))%nat ->
  exists st',
    after (handleClick ox oy st) st' /\ valid st' /\
    colorsOf (board st') =
      settle (height st) (hoverArray st) 0 (colorsOf (board st)) /\
    numCells st' = numCells st - Z.of_nat (length (hoverArray st)) /\
    score st' = score st +
      Z.of_nat (length (hoverArray st)) * Z.of_nat (length (hoverArray st)) /\
    width st' = width st /\ height st' = height st /\
    (inb (width st) (height st) (ox, oy) -> handleClick ox oy st = Normal st') /\
    (~ inb (width st) (height st) (ox, oy) -> handleClick ox oy st = Throw st').
Proof.
  intros Hv Hn.
  destruct (handleClick_removal ox oy st Hv Hn)
    as (st2 & Hv2 & -> & Hc2 & Hn2 & Hsc2 & Hw2 & Hh2).
  destruct (decide (inb (width st) (height st) (ox, oy))) as [Hin|Hout].
  - destruct (handleHover_inb ox oy st2 Hv2)
      as (c & r & st' & _ & _ & -> & Hv' & Hb & Hsc & Hnum & Hw & Hh & _).
    { by rewrite Hw2, Hh2. }
    exists st'. split; [by left|]. split; [done|]. rewrite Hb.
    split; [done|]. split; [congruence|]. split; [congruence|].
    split; [congruence|]. split; [congruence|]. split; [done|]. by intros [].
  - rewrite (handleHover_outside ox oy st2 (v_shaped st2 Hv2))
      by (by rewrite Hw2, Hh2).
    exists st2. split; [by right|]. split; [done|]. split; [done|].
    split; [done|]. split; [done|]. split; [done|]. split; [done|].
    split; [by intros ?|done].
Qed.

Lemma runs_valid (st : State) (es : list event) (st' : State) :
  valid st -> runs st es st' -> valid st' /\ score st <= score st'.
Proof.
  intros Hv Hruns. induction Hruns as [st|st e st1 es st2 Hstep _ IH].
  - split; [done|lia].
  - destruct (handle_valid e st Hv) as (st1' & Hafter & Hv1 & _ & _ & Hsc).
    rewrite <- (after_inj _ _ _ Hstep Hafter) in Hv1, Hsc.
    destruct (IH Hv1) as [Hv2 Hsc2]. split; [done|lia].
Qed.

(** ** What holds in every state of a game *)

(** The bound given to the while loop is never too small. *)
Lemma handle_total (w h : Z) (pick : Z -> Z -> string) (st : State) (e : event) :
  0 <= w -> 0 <= h -> reachable w h pick st ->
  construct w h pick <> OutOfFuel /\ handle e st <> OutOfFuel.
Proof.
  intros Hw Hh Hreach. split.
  - apply never_out_of_fuel.
  - destruct (reachable_valid w h pick st Hw Hh Hreach) as (Hv & _ & _).
    destruct (handle_valid e st Hv) as (st' & [-> | ->] & _); done.
Qed.

(** ** Size conservation (C4) *)

(** C4: a removal of the hovered cluster, of [n >= 2] cells, ends (normally,
    or in the exception of the last hover), takes [n] tiles off the board
    and [n] off numCells, and leaves [width] columns of [height] cells. *)
Theorem removal_conserves_size (w h : Z) (pick : Z -> Z -> string)
    (st : State) (ox oy : Z) :
  0 <= w -> 0 <= h -> reachable w h pick st ->
  (2 <= length (hoverArray st))%nat ->
  exists st',
    after (handleClick ox oy st) st' /\
    tilesOf (board st') = tilesOf (board st) - Z.of_nat (length (hoverArray st)) /\
    numCells st' = numCells st - Z.of_nat (length (hoverArray st)) /\
    shaped (width st) (height st) (board st') /\
    width st' = width st /\ height st' = height st.
Proof.
  intros Hw Hh Hreach Hn.
  destruct (reachable_valid w h pick st Hw Hh Hreach) as (Hv & _ & _).
  destruct (handleClick_after ox oy st Hv Hn)
    as (st' & Hafter & Hv' & _ & Hnum & _ & Hw' & Hh' & _).
  exists st'. split; [done|].
  rewrite <- (v_numCells st' Hv'), <- (v_numCells st Hv).
  split; [done|]. split; [done|]. split; [|done].
  rewrite <- Hw', <- Hh'. apply (v_shaped st' Hv').
Qed.

(** ** Score (C6) *)

(** C6: in every state of a game scoreTotal is score plus scoreLeft, and
    scoreLeft is max(0, (50 - numCells) * 100); a removal of [n >= 2]
    cells adds [n * n] to score; no run of events makes score smaller. *)
Theorem score_update (w h : Z) (pick : Z -> Z -> string) (st : State) :
  0 <= w -> 0 <= h -> reachable w h pick st ->
  scoreLeft st = Some (Z.max 0 ((50 - numCells st) * 100)) /\
  scoreTotal st = Some (score st + Z.max 0 ((50 - numCells st) * 100)) /\
  (forall ox oy, (2 <= length (hoverArray st))%nat ->
     exists st',
       after (handleClick ox oy st) st' /\
       score st' = score st +
         Z.of_nat (length (hoverArray st)) * Z.of_nat (length (hoverArray st)) /\
       scoreLeft st' = Some (Z.max 0 ((50 - numCells st') * 100)) /\
       scoreTotal st' = Some (score st' + Z.max 0 ((50 - numCells st') * 100))) /\
  (forall es st', runs st es st' -> score st <= score st').
Proof.
  intros Hw Hh Hreach.
  destruct (reachable_valid w h pick st Hw Hh Hreach) as (Hv & _ & _).
  rewrite (Z.max_comm 0). split; [apply (v_scoreLeft st Hv)|].
  split; [apply (v_scoreTotal st Hv)|]. split.
  - intros ox oy Hn.
    destruct (handleClick_after ox oy st Hv Hn)
      as (st' & Hafter & Hv' & _ & _ & Hsc & _).
    exists st'. rewrite (Z.max_comm 0). split; [done|]. split; [done|].
    split; [apply (v_scoreLeft st' Hv')|apply (v_scoreTotal st' Hv')].
  - intros es st' Hruns. by destruct (runs_valid st es st' Hv Hruns).
Qed.

(** ** The empty columns (C10) *)

(** C10: in every state of a game, the columns to the right of a column
    without a tile have no tile either. *)
Theorem empty_columns_suffix (w h : Z) (pick : Z -> Z -> string) (st : State) :
  0 <= w -> 0 <= h -> reachable w h pick st ->
  emptySuffix (colorsOf (board st)).
Proof.
  intros Hw Hh Hreach.
  destruct (reachable_valid w h pick st Hw Hh Hreach) as (Hv & _ & _).
  apply (v_suffix st Hv).
Qed.

(** ** Hovering (C7) *)

(** C7, as the code has it: over a cell of the board handleHover ends
    normally, and it returns no value.  It makes hoverCluster the array of
    the cell's cluster when that has two members or more, and an empty array
    otherwise.  What it shows, in [#hover], is the square of the number of
    members of hoverCluster, which is 0 for the empty array.  The board, the
    score, numCells and all other fields of the game stay as they are. *)
Theorem handleHover_preview (w h : Z) (pick : Z -> Z -> string) (st : State)
    (ox oy : Z) :
  0 <= w -> 0 <= h -> reachable w h pick st -> inb w h (ox, oy) ->
  exists c r st',
    getCell (board st) ox oy = Some c /\ cluster c = Some r /\
    handleHover ox oy st = Normal st' /\
    hoverArray st' =
      (if decide (2 <= length (deref (heap st) r))%nat
       then deref (heap st) r else []) /\
    ((2 <= length (deref (heap st) r))%nat -> hoverCluster st' = Some r) /\
    hoverShown st' =
      Z.of_nat (length (hoverArray st')) * Z.of_nat (length (hoverArray st')) /\
    board st' = board st /\ score st' = score st /\
    numCells st' = numCells st /\ scoreLeft st' = scoreLeft st /\
    scoreTotal st' = scoreTotal st /\ alerts st' = alerts st /\
    width st' = width st /\ height st' = height st.
Proof.
  intros Hw Hh Hreach Hin.
  destruct (reachable_valid w h pick st Hw Hh Hreach) as (Hv & Hwst & Hhst).
  rewrite <- Hwst, <- Hhst in Hin.
  destruct (at2_is_Some _ _ _ ox oy (v_shaped st Hv) Hin) as [c Hc].
  destruct (v_clustered st Hv ox oy c Hc) as (r & Hr & Hlt & Hok).
  exists c, r. unfold handleHover. unfold getCell at 2. rewrite Hc, Hr.
  destruct (Z.ltb_spec 1 (Z.of_nat (length (deref (heap st) r)))) as [Hn|Hn].
  - eexists. split; [done|]. split; [done|]. split; [reflexivity|].
    rewrite decide_True by lia. unfold hoverArray. cbn. by repeat split.
  - eexists. split; [done|]. split; [done|]. split; [reflexivity|].
    rewrite decide_False by lia. unfold hoverArray. cbn.
    rewrite deref_alloc_new. repeat split; try done. lia.
Qed.

(** The claim C7 fails for the number: on the row [red, red] the hover over
    [(0, 0)] finds the cluster of two cells, and the number that handleHover
    gives out, the one it writes to [#hover] through updateHoverScore, is 4,
    not 2. *)
Lemma handleHover_shows_square :
  reachable 2 1 twoReds game21 /\ inb 2 1 (0, 0) /\
  colorsOf (board game21) = [[Some "red"]; [Some "red"]] /\
  exists st', handleHover 0 0 game21 = Normal st' /\
    hoverArray st' = [(0, 0); (1, 0)] /\
    hoverShown st' = 4 /\ hoverShown st' <> 2.
Proof.
  split; [apply reach_init; vm_compute; reflexivity|].
  split; [unfold inb; simpl; lia|]. split; [reflexivity|].
  exists game21h. split; [vm_compute; reflexivity|].
  split; [vm_compute; reflexivity|]. split; [reflexivity|]. vm_compute. discriminate.
Qed.

(** ** Clicks that remove nothing (C8) *)

(** C8, as the code has it: a click is a no-op when the array of
    hoverCluster has fewer than two members, whatever the cell clicked; this
    is the case after a hover over the clicked cell when the cluster of that
    cell has fewer than two members. *)
Theorem handleClick_noop (w h : Z) (pick : Z -> Z -> string) (st : State) :
  0 <= w -> 0 <= h -> reachable w h pick st ->
  (forall ox oy, (length (hoverArray st) < 2)%nat ->
     handleClick ox oy st = Normal st) /\
  (forall x y n, clusterSize st x y = Some n -> (n < 2)%nat ->
     exists st1, handleHover x y st = Normal st1 /\
       handleClick x y st1 = Normal st1 /\
       board st1 = board st /\ score st1 = score st /\
       numCells st1 = numCells st).
Proof.
  intros Hw Hh Hreach.
  destruct (reachable_valid w h pick st Hw Hh Hreach) as (Hv & Hwst & Hhst).
  split.
  - intros ox oy Hn. destruct (v_hover st Hv) as (r & Hr & _).
    unfold hoverArray in Hn. rewrite Hr in Hn. by apply (handleClick_small ox oy st r).
  - intros x y n Hsize Hn. unfold clusterSize in Hsize.
    destruct (getCell (board st) x y) as [c|] eqn:Hc; [|done].
    destruct (cluster c) as [r|] eqn:Hr; [|done]. injection Hsize as <-.
    assert (inb (width st) (height st) (x, y)) as Hin.
    { eapply at2_inb; [apply (v_shaped st Hv)|exact Hc]. }
    destruct (handleHover_inb x y st Hv Hin)
      as (c' & r' & st1 & Hc' & Hr' & Hrun & Hv1 & Hb & Hsc & Hnum & _ & _ & _ & Hsmall).
    assert (r' = r) as -> by congruence.
    exists st1. split; [done|]. split; [|done].
    destruct (v_hover st1 Hv1) as (r1 & Hr1 & _).
    apply (handleClick_small x y st1 r1 Hr1).
    specialize (Hsmall Hn). unfold hoverArray in Hsmall. rewrite Hr1 in Hsmall.
    rewrite Hsmall. simpl. lia.
Qed.

(** The claim C8 fails when the click does not follow a hover over the
    clicked cell: on the row [red, red, blue], after a hover over [(0, 0)],
    a click at [(2, 0)], whose cluster is the blue cell alone, removes the
    two red cells. *)
Lemma handleClick_stale_hover :
  reachable 3 1 redRedBlue game31bh /\
  clusterSize game31bh 2 0 = Some 1%nat /\
  colorsOf (board game31bh) = [[Some "red"]; [Some "red"]; [Some "blue"]] /\
  score game31bh = 0 /\ numCells game31bh = 3 /\
  exists st', handleClick 2 0 game31bh = Normal st' /\
    colorsOf (board st') = [[Some "blue"]; [None]; [None]] /\
    score st' = 4 /\ numCells st' = 1.
Proof.
  split.
  { apply (reach_step _ _ _ game31b (Hover 0 0)).
    - apply reach_init. vm_compute. reflexivity.
    - left. vm_compute. reflexivity. }
  split; [vm_compute; reflexivity|]. split; [vm_compute; reflexivity|].
  split; [reflexivity|]. split; [reflexivity|].
  exists (stateOf (handleClick 2 0 game31bh)).
  split; [vm_compute; reflexivity|]. vm_compute. by repeat split.
Qed.

(** ** Coordinates outside the board (C9) *)

(** C9, as the code has it: no handler checks its coordinates.  Outside the
    board handleHover reads through [undefined]: a TypeError, raised before
    any change of the state.  handleClick does not read the clicked cell: it
    returns at once, without an error, when the array of hoverCluster has
    fewer than two members, and otherwise removes that cluster and raises the
    TypeError only in its last statement, the hover. *)
Theorem outside_the_board (w h : Z) (pick : Z -> Z -> string) (st : State)
    (ox oy : Z) :
  0 <= w -> 0 <= h -> reachable w h pick st -> ~ inb w h (ox, oy) ->
  handleHover ox oy st = Throw st /\
  ((length (hoverArray st) < 2)%nat -> handleClick ox oy st = Normal st) /\
  ((2 <= length (hoverArray st))%nat ->
     exists st', handleClick ox oy st = Throw st' /\
       numCells st' = numCells st - Z.of_nat (length (hoverArray st)) /\
       score st' = score st +
         Z.of_nat (length (hoverArray st)) * Z.of_nat (length (hoverArray st))).
Proof.
  intros Hw Hh Hreach Hout.
  destruct (reachable_valid w h pick st Hw Hh Hreach) as (Hv & Hwst & Hhst).
  rewrite <- Hwst, <- Hhst in Hout.
  split; [by apply handleHover_outside; [apply (v_shaped st Hv)|]|]. split.
  - intros Hn. destruct (v_hover st Hv) as (r & Hr & _).
    unfold hoverArray in Hn. rewrite Hr in Hn. by apply (handleClick_small ox oy st r).
  - intros Hn. destruct (handleClick_after ox oy st Hv Hn)
      as (st' & _ & _ & _ & Hnum & Hsc & _ & _ & _ & Hthrow).
    exists st'. split; [by apply Hthrow|done].
Qed.

(** The claim C9 fails for clicks: on the row [red, red], a click outside the
    board signals nothing when nothing is hovered, and after a hover over
    [(0, 0)] it empties the board before it raises the exception. *)
Lemma handleClick_outside :
  reachable 2 1 twoReds game21 /\ ~ inb 2 1 (5, 5) /\
  handleClick 5 5 game21 = Normal game21 /\
  reachable 2 1 twoReds game21h /\
  exists st', handleClick 5 5 game21h = Throw st' /\
    colorsOf (board game21h) = [[Some "red"]; [Some "red"]] /\
    colorsOf (board st') = [[None]; [None]] /\ score st' = 4.
Proof.
  split; [apply game21_reachable|]. split; [unfold inb; simpl; lia|].
  split; [vm_compute; reflexivity|]. split.
  { apply (reach_step _ _ _ game21 (Hover 0 0)); [apply game21_reachable|].
    left. vm_compute. reflexivity. }
  exists (stateOf (handleClick 5 5 game21h)).
  split; [vm_compute; reflexivity|]. vm_compute. by repeat split.
Qed.

(** ** Gravity in a column (C2) *)

Lemma below_none (ys : list Z) (t : Z) :
  (forall r, r ∈ ys -> r < t) -> below ys t = 0%nat.
Proof.
  unfold below. induction ys as [|r ys IH]; intros H; [done|].
  rewrite filter_cons, decide_False by (specialize (H r (list_elem_of_here _ _)); lia).
  apply IH. intros r' Hr'. apply H. by right.
Qed.

Lemma tiles_emptyCol (cs : list (option string)) :
  tiles cs = 0%nat -> emptyCol cs = true.
Proof.
  unfold emptyCol, tiles. induction cs as [|c cs IH]; [done|].
  rewrite filter_cons. destruct c as [s|].
  - rewrite decide_True by done. done.
  - rewrite decide_False by (intros H; by apply H). intros H. simpl. by apply IH.
Qed.

Lemma lookup_repeat {A : Type} (a : A) (n i : nat) :
  (i < n)%nat -> repeat a n !! i = Some a.
Proof.
  revert i. induction n as [|n IH]; intros i Hi; [lia|].
  destruct i as [|i]; [done|]. simpl. apply IH. lia.
Qed.

Lemma zget_of_nat {A : Type} (l : list A) (n : nat) : zget l (Z.of_nat n) = l !! n.
Proof.
  unfold zget. destruct (Z.ltb_spec (Z.of_nat n) 0); [lia|]. by rewrite Nat2Z.id.
Qed.

(** The column is empty after gravity exactly when all its tiles are in the
    cluster. *)
Lemma cleared_spec (st : State) (x : nat) (cs : list (option string)) :
  valid st -> hoverArray st <> [] -> colorsOf (board st) !! x = Some cs ->
  emptyCol (gravityColors (height st) (hoverArray st) (Z.of_nat x) cs) =
  cleared (colorsOf (board st)) (hoverArray st) (Z.of_nat x).
Proof.
  intros Hv Hne Hcs. destruct (hover_members st Hv Hne) as [Hnd Hmem].
  pose proof (gravityColors_tiles (height st) (hoverArray st) (Z.of_nat x) cs Hnd)
    as Ht.
  rewrite length_clusterRows in Ht.
  unfold cleared. rewrite zget_of_nat, Hcs. simpl.
  assert (forall y, (Z.of_nat x, y) ∈ hoverArray st ->
            exists c, zget cs y = Some (Some c)) as Hin.
  { intros y Hy. destruct (Hmem _ Hy) as (_ & cc & Hcc). exists cc.
    unfold colorAt, at2 in Hcc. simpl in Hcc.
    rewrite zget_of_nat, Hcs in Hcc. done. }
  specialize (Ht Hin).
  destruct (emptyCol _) eqn:He.
  - apply emptyCol_tiles in He. symmetry. apply bool_decide_eq_true. lia.
  - symmetry. apply bool_decide_eq_false. intros Heq.
    rewrite tiles_emptyCol in He; [done|]. lia.
Qed.

Lemma gravityAll_lookup (h : Z) (hc : list (Z * Z)) (g : list (list (option string))) :
  forall (x0 i : nat),
    gravityAll h hc x0 g !! i =
    gravityColors h hc (Z.of_nat (x0 + i)) <$> g !! i.
Proof.
  induction g as [|cs g IH]; intros x0 i; [done|].
  destruct i as [|i]; simpl.
  - by rewrite Nat.add_0_r.
  - rewrite IH. by replace (S x0 + i)%nat with (x0 + S i)%nat by lia.
Qed.

Lemma length_gravityAll (h : Z) (hc : list (Z * Z)) (g : list (list (option string))) :
  forall x0, length (gravityAll h hc x0 g) = length g.
Proof. induction g as [|cs g IH]; intros x0; [done|]. simpl. by rewrite IH. Qed.

Lemma filter_take_lookup {A : Type} (P : A -> Prop) `{!forall a, Decision (P a)}
    (l : list A) (i : nat) (a : A) :
  l !! i = Some a -> P a -> filter P l !! length (filter P (take i l)) = Some a.
Proof.
  intros Hl Ha.
  replace (filter P l) with (filter P (take i l ++ a :: drop (S i) l))
    by (by rewrite take_drop_middle).
  rewrite filter_app, lookup_app_r by lia.
  rewrite Nat.sub_diag, filter_cons, decide_True by done. done.
Qed.

(** The index of a column after the removal. *)
Lemma keptLeft_spec (st : State) (x : nat) :
  valid st -> hoverArray st <> [] -> (x <= length (board st))%nat ->
  Z.of_nat (length (filter (fun cs => emptyCol cs = false)
    (take x (gravityAll (height st) (hoverArray st) 0 (colorsOf (board st)))))) =
  keptLeft (colorsOf (board st)) (hoverArray st) (Z.of_nat x).
Proof.
  intros Hv Hne. unfold keptLeft, zrange. rewrite Nat2Z.id.
  induction x as [|x IH]; intros Hx; [done|].
  destruct (lookup_lt_is_Some_2 (colorsOf (board st)) x) as [cs Hcs].
  { unfold colorsOf. rewrite length_map. lia. }
  rewrite (take_S_r _ _ (gravityColors (height st) (hoverArray st) (Z.of_nat x) cs))
    by (by rewrite gravityAll_lookup, Hcs).
  rewrite seq_S, map_app, !filter_app, !length_app, !Nat2Z.inj_add.
  rewrite IH by lia. f_equal. simpl.
  rewrite !filter_cons, !filter_nil.
  rewrite (cleared_spec st x cs Hv Hne Hcs).
  by destruct (cleared _ _ _).
Qed.

(** Gravity in one column, on the colours: a cell that stays moves down by
    the number of removed cells below it, and the top is empty. *)
Lemma gravityColors_move (h : Z) (hc : list (Z * Z)) (x : Z)
    (cs : list (option string)) :
  length cs = Z.to_nat h -> NoDup hc ->
  (forall y, (x, y) ∈ hc -> 0 <= y < h) ->
  length (gravityColors h hc x cs) = Z.to_nat h /\
  (forall y, 0 <= y < h -> y ∉ clusterRows hc x ->
     zget (gravityColors h hc x cs) (y + Z.of_nat (below (clusterRows hc x) y)) =
     zget cs y) /\
  (forall i, 0 <= i < Z.of_nat (length (clusterRows hc x)) ->
     zget (gravityColors h hc x cs) i = Some None).
Proof.
  intros Hlen Hnd Hrange. unfold gravityColors.
  pose proof (clusterRows_descending hc x Hnd) as Hd.
  assert (forall r, r ∈ clusterRows hc x -> 0 <= r < Z.of_nat (length cs)) as Hr.
  { intros r Hin. apply elem_of_clusterRows in Hin. specialize (Hrange r Hin). lia. }
  pose proof (fold_splice_length (clusterRows hc x) cs Hd Hr) as Hfl.
  set (ys := clusterRows hc x) in *. clearbody ys.
  replace (Z.to_nat (h - Z.of_nat (length (fold_left splice1 ys cs))))
    with (length ys) by lia.
  split; [rewrite length_app, repeat_length; lia|]. split.
  - intros y Hy Hnot. unfold zget.
    destruct (Z.ltb_spec (y + Z.of_nat (below ys y)) 0); [lia|].
    destruct (Z.ltb_spec y 0); [lia|].
    pose proof (above_below ys y Hnot) as Hab.
    assert (Z.of_nat (above ys y) <= y) as Hale.
    { apply above_le; [done| |lia]. intros r Hin. specialize (Hr r Hin). lia. }
    rewrite lookup_app_r by (rewrite repeat_length; lia).
    rewrite repeat_length. apply fold_splice_lookup; try done; lia.
  - intros i Hi. unfold zget. destruct (Z.ltb_spec i 0); [lia|].
    rewrite lookup_app_l by (rewrite repeat_length; lia).
    apply lookup_repeat. lia.
Qed.

(** The columns of the board after a removal: a column that keeps a tile
    stands, after gravity, at the index that counts the columns kept to its
    left; the columns from the number of kept columns on are empty. *)
Lemma removal_columns (st : State) (ox oy : Z) :
  valid st -> (2 <= length (hoverArray st))%nat ->
  exists st',
    after (handleClick ox oy st) st' /\ valid st' /\
    width st' = width st /\ height st' = height st /\
    colorsOf (board st') =
      settle (height st) (hoverArray st) 0 (colorsOf (board st)) /\
    (forall x cs,
       0 <= x -> zget (colorsOf (board st)) x = Some cs ->
       cleared (colorsOf (board st)) (hoverArray st) x = false ->
       zget (colorsOf (board st'))
         (keptLeft (colorsOf (board st)) (hoverArray st) x) =
       Some (gravityColors (height st) (hoverArray st) x cs)) /\
    (forall x,
       keptLeft (colorsOf (board st)) (hoverArray st) (width st) <= x < width st ->
       zget (colorsOf (board st')) x = Some (repeat None (Z.to_nat (height st)))).
Proof.
  intros Hv Hn.
  assert (hoverArray st <> []) as Hne by (intros E; rewrite E in Hn; simpl in Hn; lia).
  destruct (handleClick_after ox oy st Hv Hn)
    as (st' & Hafter & Hv' & Hc & _ & _ & Hw' & Hh' & _).
  exists st'. split; [done|]. split; [done|]. split; [done|]. split; [done|].
  split; [done|].
  rewrite Hc, settle_gravityAll.
  set (G := gravityAll (height st) (hoverArray st) 0 (colorsOf (board st))).
  destruct (v_shaped st Hv) as [Hlen _].
  pose proof (v_width st Hv) as Hw0.
  split.
  - intros x cs Hx Hcs Hcl.
    rewrite <- (Z2Nat.id x Hx) in Hcs, Hcl |- *. rewrite zget_of_nat in Hcs.
    assert (Z.to_nat x < length (board st))%nat as Hlt.
    { apply lookup_lt_Some in Hcs. unfold colorsOf in Hcs.
      by rewrite length_map in Hcs. }
    rewrite <- (keptLeft_spec st (Z.to_nat x) Hv Hne) by lia.
    rewrite zget_of_nat. apply lookup_app_l_Some.
    apply (filter_take_lookup (fun cs => emptyCol cs = false)).
    + unfold G. rewrite gravityAll_lookup, Hcs. done.
    + by rewrite (cleared_spec st (Z.to_nat x) cs Hv Hne Hcs).
  - intros x Hx.
    rewrite <- (Z2Nat.id (width st) Hw0) in Hx at 1.
    rewrite <- (keptLeft_spec st (Z.to_nat (width st)) Hv Hne) in Hx by lia.
    rewrite take_ge in Hx by (unfold G; rewrite length_gravityAll;
                               unfold colorsOf; rewrite length_map; lia).
    fold G in Hx.
    assert (length (filter (fun cs => emptyCol cs = false) G) +
            length (filter (fun cs => emptyCol cs = true) G) = length G)%nat as Hsum.
    { clear. induction G as [|a G IH]; [done|]. rewrite !filter_cons.
      destruct (emptyCol a); simpl; lia. }
    assert (length G = Z.to_nat (width st)) as HG.
    { unfold G. rewrite length_gravityAll. unfold colorsOf. by rewrite length_map. }
    unfold zget. destruct (Z.ltb_spec x 0); [lia|].
    rewrite lookup_app_r by lia. apply lookup_repeat. lia.
Qed.

Lemma keptLeft_range (g : list (list (option string))) (hc : list (Z * Z)) (x : Z) :
  0 <= x -> 0 <= keptLeft g hc x <= x.
Proof.
  intros Hx. unfold keptLeft. split; [lia|].
  pose proof (length_filter (fun i => cleared g hc i = false) (zrange x)) as Hle.
  unfold zrange in Hle at 2. rewrite length_map, length_seq in Hle. lia.
Qed.

(** C2: a click with a cluster of two cells or more under the pointer ends
    with a board of [w] columns of [h] cells on which gravity has acted in
    every column.  In column [x] the rows of the cluster, which the loop of
    line 235 removes from the bottom row up, are [ys].  When the column
    keeps a tile it stands at the index [x'] that counts the columns kept to
    its left, and there a cell that stays has moved down by the number of
    removed cells below it, so it keeps its row when all removed cells are
    above it, and the top of the column is filled with as many empty cells
    as were removed. *)
Theorem gravity_column (w h : Z) (pick : Z -> Z -> string) (st : State)
    (ox oy : Z) :
  0 <= w -> 0 <= h -> reachable w h pick st ->
  (2 <= length (hoverArray st))%nat ->
  exists st',
    after (handleClick ox oy st) st' /\
    shaped w h (board st') /\
    forall x, 0 <= x < w ->
      let hc := hoverArray st in
      let g := colorsOf (board st) in
      let g' := colorsOf (board st') in
      let ys := clusterRows hc x in
      let x' := keptLeft g hc x in
      descending ys /\ (forall y, y ∈ ys <-> (x, y) ∈ hc) /\
      (cleared g hc x = false ->
         0 <= x' <= x /\
         (forall y, 0 <= y < h -> y ∉ ys ->
            colorAt g' (x', y + Z.of_nat (below ys y)) = colorAt g (x, y)) /\
         (forall y, 0 <= y < h -> (forall r, r ∈ ys -> r < y) ->
            colorAt g' (x', y) = colorAt g (x, y)) /\
         (forall i, 0 <= i < Z.of_nat (length ys) ->
            colorAt g' (x', i) = Some None)).
Proof.
  intros Hw Hh Hreach Hn.
  destruct (reachable_valid w h pick st Hw Hh Hreach) as (Hv & Hwst & Hhst).
  assert (hoverArray st <> []) as Hne by (intros E; rewrite E in Hn; simpl in Hn; lia).
  destruct (hover_members st Hv Hne) as [Hnd Hmem].
  destruct (removal_columns st ox oy Hv Hn)
    as (st' & Hafter & Hv' & Hw' & Hh' & _ & Hkept & _).
  exists st'. split; [done|]. split.
  { rewrite <- Hwst, <- Hhst, <- Hw', <- Hh'. apply (v_shaped st' Hv'). }
  intros x Hx. cbv zeta.
  pose proof (clusterRows_descending (hoverArray st) x Hnd) as Hd.
  split; [done|]. split; [intros y; apply elem_of_clusterRows|].
  intros Hcl.
  destruct (v_shaped st Hv) as [Hlen Hcols].
  destruct (lookup_lt_is_Some_2 (colorsOf (board st)) (Z.to_nat x)) as [cs Hcs].
  { unfold colorsOf. rewrite length_map. lia. }
  assert (zget (colorsOf (board st)) x = Some cs) as Hzcs.
  { unfold zget. destruct (Z.ltb_spec x 0); [lia|done]. }
  assert (length cs = Z.to_nat h) as Hcslen.
  { unfold colorsOf in Hcs. rewrite list_lookup_fmap in Hcs.
    destruct (board st !! Z.to_nat x) as [col|] eqn:Hcol; [|done].
    injection Hcs as <-. rewrite length_map, <- Hhst.
    rewrite Forall_forall in Hcols. apply Hcols.
    by eapply list_elem_of_lookup_2. }
  assert (forall y, (x, y) ∈ hoverArray st -> 0 <= y < h) as Hrange.
  { intros y Hy. destruct (Hmem _ Hy) as [[_ Hy'] _]. simpl in Hy'. lia. }
  destruct (gravityColors_move h (hoverArray st) x cs Hcslen Hnd Hrange)
    as (_ & Hmove & Htop).
  specialize (Hkept x cs ltac:(lia) Hzcs Hcl). rewrite Hhst in Hkept.
  assert (forall y, colorAt (colorsOf (board st'))
            (keptLeft (colorsOf (board st)) (hoverArray st) x, y) =
          zget (gravityColors h (hoverArray st) x cs) y) as Hnew.
  { intros y. unfold colorAt, at2. simpl. by rewrite Hkept. }
  assert (forall y, colorAt (colorsOf (board st)) (x, y) = zget cs y) as Hold.
  { intros y. unfold colorAt, at2. simpl. by rewrite Hzcs. }
  split; [apply keptLeft_range; lia|]. split; [|split].
  - intros y Hy Hnot. rewrite Hnew, Hold. by apply Hmove.
  - intros y Hy Hall. rewrite Hnew, Hold. rewrite <- (Hmove y Hy).
    + rewrite below_none by done. f_equal. lia.
    + intros Hin. specialize (Hall y Hin). lia.
  - intros i Hi. rewrite Hnew. by apply Htop.
Qed.

(** The same removal, in numbers: the rows of the cluster in the three
    columns, the columns that go, the indices of the others, and the board
    before and after the click. *)
Example gravity_three_by_three :
  let hc := hoverArray game33h in
  let g := colorsOf (board game33h) in
  g = [[Some "green"; Some "blue"; Some "blue"];
       [Some "blue"; Some "blue"; Some "blue"];
       [Some "red"; Some "green"; Some "red"]] /\
  map (clusterRows hc) [0; 1; 2] = [[2; 1]; [2; 1; 0]; []] /\
  map (cleared g hc) [0; 1; 2] = [false; true; false] /\
  map (keptLeft g hc) [0; 1; 2] = [0; 1; 1] /\
  below (clusterRows hc 0) 0 = 2%nat /\
  colorsOf (board (stateOf (handleClick 1 1 game33h))) =
    [[None; None; Some "green"];
     [Some "red"; Some "green"; Some "red"];
     [None; None; None]].
Proof. vm_compute. by repeat split. Qed.

(** The column [red, red, blue] of the claim: two empty cells on top of the
    blue one. *)
Example gravity_red_red_blue :
  colorsOf (board game13h) = [[Some "red"; Some "red"; Some "blue"]] /\
  hoverArray game13h = [(0, 0); (0, 1)] /\
  clusterRows (hoverArray game13h) 0 = [1; 0] /\
  colorsOf (board (stateOf (handleClick 0 0 game13h)))
  = [[None; None; Some "blue"]].
Proof. vm_compute. by repeat split. Qed.

(** ** Closing the gaps between the columns (C3) *)

(** C3: a click with a cluster of two cells or more under the pointer closes
    the gaps between the columns.  The body of the loop, for column [x] of a
    board whose cells are empty exactly when their cluster is, leaves the
    other columns alone when column [x] has a tile after gravity, and
    otherwise drops the column, moves the columns to its right one step to
    the left and puts a column of empty cells at the right edge.  The
    handler runs it from the last column to the first; after the click a
    column that keeps a tile stands at the index that counts the kept
    columns to its left, the columns from the number of kept columns on are
    empty, and so the board is the kept columns in their order followed by
    empty columns.  The columns that go are the columns that are empty
    after gravity: those whose tiles are all in the cluster. *)
Theorem compaction_correct (w h : Z) (pick : Z -> Z -> string) (st : State)
    (ox oy : Z) :
  0 <= w -> 0 <= h -> reachable w h pick st ->
  (2 <= length (hoverArray st))%nat ->
  let hc := hoverArray st in
  let g := colorsOf (board st) in
  (forall (st1 : State) (x : nat) cs,
     shaped (width st1) (height st1) (board st1) ->
     tidy (board st1) (heap st1) ->
     Z.of_nat x < width st1 -> colorsOf (board st1) !! x = Some cs ->
     exists st2,
       clickColumn hc (Z.of_nat x) st1 = Normal st2 /\
       let g1 := colorsOf (board st1) in
       let cs' := gravityColors (height st1) hc (Z.of_nat x) cs in
       colorsOf (board st2) =
         if emptyCol cs'
         then take x g1 ++ drop (S x) g1 ++ [repeat None (Z.to_nat (height st1))]
         else <[x := cs']> g1) /\
  exists st',
    after (handleClick ox oy st) st' /\
    (forall x cs, zget g x = Some cs ->
       cleared g hc x = emptyCol (gravityColors h hc x cs)) /\
    (forall x cs, zget g x = Some cs -> cleared g hc x = false ->
       zget (colorsOf (board st')) (keptLeft g hc x) =
         Some (gravityColors h hc x cs)) /\
    (forall x, keptLeft g hc w <= x < w ->
       zget (colorsOf (board st')) x = Some (repeat None (Z.to_nat h))) /\
    let G := gravityAll h hc 0 g in
    colorsOf (board st') =
      filter (fun cs => emptyCol cs = false) G ++
      repeat (repeat None (Z.to_nat h))
        (length (filter (fun cs => emptyCol cs = true) G)).
Proof.
  intros Hw Hh Hreach Hn hc g. split.
  { intros st1 x cs Hs Ht Hx Hcs.
    destruct (clickColumn_spec hc x st1 Hs Ht Hx) as (st2 & Hrun & Hc & _).
    exists st2. split; [done|]. simpl. rewrite Hc. unfold stepColors.
    by rewrite Hcs. }
  destruct (reachable_valid w h pick st Hw Hh Hreach) as (Hv & Hwst & Hhst).
  assert (hoverArray st <> []) as Hne by (intros E; rewrite E in Hn; simpl in Hn; lia).
  destruct (removal_columns st ox oy Hv Hn)
    as (st' & Hafter & _ & _ & _ & Hc & Hkept & Hrest).
  rewrite Hwst, Hhst in *.
  exists st'. split; [done|]. split; [|split; [|split]].
  - intros x cs Hcs.
    assert (0 <= x) as Hx.
    { unfold zget in Hcs. by destruct (Z.ltb_spec x 0). }
    rewrite <- (Z2Nat.id x Hx) in Hcs |- *. rewrite zget_of_nat in Hcs.
    symmetry. rewrite <- Hhst. by apply cleared_spec.
  - intros x cs Hcs Hcl. apply Hkept; [|done|done].
    unfold zget in Hcs. by destruct (Z.ltb_spec x 0).
  - done.
  - simpl. rewrite Hc. apply settle_gravityAll.
Qed.

(** The same removal, in numbers, and the body of the loop run from the
    first column to the last on the same board: the blue cell, moved one
    step to the left when the first gap was closed, would be taken as the
    cell [(1, 0)] of the cluster, and a red cell would stay. *)
Example compaction_red_red_blue :
  let hc := hoverArray game31bh in
  let g := colorsOf (board game31bh) in
  g = [[Some "red"]; [Some "red"]; [Some "blue"]] /\
  hc = [(0, 0); (1, 0)] /\
  map (cleared g hc) [0; 1; 2] = [true; true; false] /\
  map (keptLeft g hc) [0; 1; 2; 3] = [0; 0; 0; 1] /\
  colorsOf (board (stateOf (handleClick 0 0 game31bh))) =
    [[Some "blue"]; [None]; [None]] /\
  colorsOf (board (stateOf (forEach (clickColumn hc) (zrange 3) game31bh))) =
    [[Some "red"]; [None]; [None]].
Proof. vm_compute. by repeat split. Qed.

(** ** The clusters are the connected groups (C5) *)


(** ** The theorems at sample games *)

(** The removal of the blue column of the board of three columns. *)
Lemma removal_conserves_size_witness :
  0 <= 3 /\ 0 <= 2 /\ reachable 3 2 threeColumns game32h /\
  (2 <= length (hoverArray game32h))%nat /\
  exists st',
    after (handleClick 1 0 game32h) st' /\
    tilesOf (board st') =
      tilesOf (board game32h) - Z.of_nat (length (hoverArray game32h)) /\
    numCells st' = numCells game32h - Z.of_nat (length (hoverArray game32h)) /\
    shaped (width game32h) (height game32h) (board st') /\
    width st' = width game32h /\ height st' = height game32h.
Proof.
  split; [lia|]. split; [lia|]. split.
  { apply (reach_step _ _ _ game32 (Hover 1 0)).
    - apply reach_init. vm_compute. reflexivity.
    - left. vm_compute. reflexivity. }
  split; [vm_compute; lia|].
  apply (removal_conserves_size 3 2 threeColumns game32h 1 0); [lia|lia| |].
  - apply (reach_step _ _ _ game32 (Hover 1 0)).
    + apply reach_init. vm_compute. reflexivity.
    + left. vm_compute. reflexivity.
  - vm_compute. lia.
Defined.

(** The score, with the pointer over the blue column. *)
Lemma score_update_witness :
  0 <= 3 /\ 0 <= 2 /\ reachable 3 2 threeColumns game32h /\
  scoreLeft game32h = Some (Z.max 0 ((50 - numCells game32h) * 100)) /\
  scoreTotal game32h =
    Some (score game32h + Z.max 0 ((50 - numCells game32h) * 100)) /\
  (forall ox oy, (2 <= length (hoverArray game32h))%nat ->
     exists st',
       after (handleClick ox oy game32h) st' /\
       score st' = score game32h +
         Z.of_nat (length (hoverArray game32h)) *
         Z.of_nat (length (hoverArray game32h)) /\
       scoreLeft st' = Some (Z.max 0 ((50 - numCells st') * 100)) /\
       scoreTotal st' = Some (score st' + Z.max 0 ((50 - numCells st') * 100))) /\
  (forall es st', runs game32h es st' -> score game32h <= score st').
Proof.
  split; [lia|]. split; [lia|]. split.
  { apply (reach_step _ _ _ game32 (Hover 1 0)).
    - apply reach_init. vm_compute. reflexivity.
    - left. vm_compute. reflexivity. }
  apply (score_update 3 2 threeColumns game32h); [lia|lia|].
  apply (reach_step _ _ _ game32 (Hover 1 0)).
  - apply reach_init. vm_compute. reflexivity.
  - left. vm_compute. reflexivity.
Defined.

(** The board after the removal of the blue column. *)
Lemma empty_columns_suffix_witness :
  0 <= 3 /\ 0 <= 2 /\ reachable 3 2 threeColumns game32c /\
  emptySuffix (colorsOf (board game32c)).
Proof.
  split; [lia|]. split; [lia|]. split.
  { apply (reach_step _ _ _ game32h (Click 1 0)).
    - apply (reach_step _ _ _ game32 (Hover 1 0)).
      + apply reach_init. vm_compute. reflexivity.
      + left. vm_compute. reflexivity.
    - left. vm_compute. reflexivity. }
  apply (empty_columns_suffix 3 2 threeColumns game32c); [lia|lia|].
  apply (reach_step _ _ _ game32h (Click 1 0)).
  - apply (reach_step _ _ _ game32 (Hover 1 0)).
    + apply reach_init. vm_compute. reflexivity.
    + left. vm_compute. reflexivity.
  - left. vm_compute. reflexivity.
Defined.

(** After the removal of the blue column the third column is the empty
    one. *)
Example game32c_colors :
  colorsOf (board game32c) =
  [[Some "red"; Some "red"]; [Some "red"; Some "green"]; [None; None]].
Proof. reflexivity. Qed.

(** A hover over the first cell of the row [red, red]. *)
Lemma handleHover_preview_witness :
  0 <= 2 /\ 0 <= 1 /\ reachable 2 1 twoReds game21 /\ inb 2 1 (0, 0) /\
  exists c r st',
    getCell (board game21) 0 0 = Some c /\ cluster c = Some r /\
    handleHover 0 0 game21 = Normal st' /\
    hoverArray st' =
      (if decide (2 <= length (deref (heap game21) r))%nat
       then deref (heap game21) r else []) /\
    ((2 <= length (deref (heap game21) r))%nat -> hoverCluster st' = Some r) /\
    hoverShown st' =
      Z.of_nat (length (hoverArray st')) * Z.of_nat (length (hoverArray st')) /\
    board st' = board game21 /\ score st' = score game21 /\
    numCells st' = numCells game21 /\ scoreLeft st' = scoreLeft game21 /\
    scoreTotal st' = scoreTotal game21 /\ alerts st' = alerts game21 /\
    width st' = width game21 /\ height st' = height game21.
Proof.
  split; [lia|]. split; [lia|]. split.
  { apply reach_init. vm_compute. reflexivity. }
  split; [unfold inb; simpl; lia|].
  apply (handleHover_preview 2 1 twoReds game21 0 0); [lia|lia| |].
  - apply reach_init. vm_compute. reflexivity.
  - unfold inb. simpl. lia.
Defined.

(** Clicks on the row [red, blue, red]. *)
Lemma handleClick_noop_witness :
  0 <= 3 /\ 0 <= 1 /\ reachable 3 1 redBlueRed game31 /\
  (forall ox oy, (length (hoverArray game31) < 2)%nat ->
     handleClick ox oy game31 = Normal game31) /\
  (forall x y n, clusterSize game31 x y = Some n -> (n < 2)%nat ->
     exists st1, handleHover x y game31 = Normal st1 /\
       handleClick x y st1 = Normal st1 /\
       board st1 = board game31 /\ score st1 = score game31 /\
       numCells st1 = numCells game31).
Proof.
  split; [lia|]. split; [lia|]. split.
  { apply reach_init. vm_compute. reflexivity. }
  apply (handleClick_noop 3 1 redBlueRed game31); [lia|lia|].
  apply reach_init. vm_compute. reflexivity.
Defined.

(** The cell [(5, 5)] of the row [red, red], the two cells hovered. *)
Lemma outside_the_board_witness :
  0 <= 2 /\ 0 <= 1 /\ reachable 2 1 twoReds game21h /\ ~ inb 2 1 (5, 5) /\
  handleHover 5 5 game21h = Throw game21h /\
  ((length (hoverArray game21h) < 2)%nat ->
     handleClick 5 5 game21h = Normal game21h) /\
  ((2 <= length (hoverArray game21h))%nat ->
     exists st', handleClick 5 5 game21h = Throw st' /\
       numCells st' = numCells game21h - Z.of_nat (length (hoverArray game21h)) /\
       score st' = score game21h +
         Z.of_nat (length (hoverArray game21h)) *
         Z.of_nat (length (hoverArray game21h))).
Proof.
  split; [lia|]. split; [lia|]. split.
  { apply (reach_step _ _ _ game21 (Hover 0 0)).
    - apply reach_init. vm_compute. reflexivity.
    - left. vm_compute. reflexivity. }
  split; [unfold inb; simpl; lia|].
  apply (outside_the_board 2 1 twoReds game21h 5 5); [lia|lia| |].
  - apply (reach_step _ _ _ game21 (Hover 0 0)).
    + apply reach_init. vm_compute. reflexivity.
    + left. vm_compute. reflexivity.
  - unfold inb. simpl. lia.
Defined.

(** The board of three columns of three cells, the pointer over the five
    blue cells: the green tile of the first column falls by two rows, the
    second column goes, and the third column moves to its place. *)
Lemma gravity_column_witness :
  0 <= 3 /\ 0 <= 3 /\ reachable 3 3 threeByThree game33h /\
  (2 <= length (hoverArray game33h))%nat /\
  exists st',
    after (handleClick 1 1 game33h) st' /\
    shaped 3 3 (board st') /\
    forall x, 0 <= x < 3 ->
      let hc := hoverArray game33h in
      let g := colorsOf (board game33h) in
      let g' := colorsOf (board st') in
      let ys := clusterRows hc x in
      let x' := keptLeft g hc x in
      descending ys /\ (forall y, y ∈ ys <-> (x, y) ∈ hc) /\
      (cleared g hc x = false ->
         0 <= x' <= x /\
         (forall y, 0 <= y < 3 -> y ∉ ys ->
            colorAt g' (x', y + Z.of_nat (below ys y)) = colorAt g (x, y)) /\
         (forall y, 0 <= y < 3 -> (forall r, r ∈ ys -> r < y) ->
            colorAt g' (x', y) = colorAt g (x, y)) /\
         (forall i, 0 <= i < Z.of_nat (length ys) ->
            colorAt g' (x', i) = Some None)).
Proof.
  split; [lia|]. split; [lia|]. split.
  { apply (reach_step _ _ _ game33 (Hover 1 1)).
    - apply reach_init. vm_compute. reflexivity.
    - left. vm_compute. reflexivity. }
  split; [vm_compute; lia|].
  apply (gravity_column 3 3 threeByThree game33h 1 1); [lia|lia| |].
  - apply (reach_step _ _ _ game33 (Hover 1 1)).
    + apply reach_init. vm_compute. reflexivity.
    + left. vm_compute. reflexivity.
  - vm_compute. lia.
Defined.

(** The row [red, red, blue], the pointer over the two red cells: the first
    two columns go, one after the other, and the blue cell moves two steps
    to the left. *)
Lemma compaction_correct_witness :
  0 <= 3 /\ 0 <= 1 /\ reachable 3 1 redRedBlue game31bh /\
  (2 <= length (hoverArray game31bh))%nat /\
  let hc := hoverArray game31bh in
  let g := colorsOf (board game31bh) in
  (forall (st1 : State) (x : nat) cs,
     shaped (width st1) (height st1) (board st1) ->
     tidy (board st1) (heap st1) ->
     Z.of_nat x < width st1 -> colorsOf (board st1) !! x = Some cs ->
     exists st2,
       clickColumn hc (Z.of_nat x) st1 = Normal st2 /\
       let g1 := colorsOf (board st1) in
       let cs' := gravityColors (height st1) hc (Z.of_nat x) cs in
       colorsOf (board st2) =
         if emptyCol cs'
         then take x g1 ++ drop (S x) g1 ++ [repeat None (Z.to_nat (height st1))]
         else <[x := cs']> g1) /\
  exists st',
    after (handleClick 0 0 game31bh) st' /\
    (forall x cs, zget g x = Some cs ->
       cleared g hc x = emptyCol (gravityColors 1 hc x cs)) /\
    (forall x cs, zget g x = Some cs -> cleared g hc x = false ->
       zget (colorsOf (board st')) (keptLeft g hc x) =
         Some (gravityColors 1 hc x cs)) /\
    (forall x, keptLeft g hc 3 <= x < 3 ->
       zget (colorsOf (board st')) x = Some (repeat None (Z.to_nat 1))) /\
    let G := gravityAll 1 hc 0 g in
    colorsOf (board st') =
      filter (fun cs => emptyCol cs = false) G ++
      repeat (repeat None (Z.to_nat 1))
        (length (filter (fun cs => emptyCol cs = true) G)).
Proof.
  split; [lia|]. split; [lia|]. split.
  { apply (reach_step _ _ _ game31b (Hover 0 0)).
    - apply reach_init. vm_compute. reflexivity.
    - left. vm_compute. reflexivity. }
  split; [vm_compute; lia|].
  apply (compaction_correct 3 1 redRedBlue game31bh 0 0); [lia|lia| |].
  - apply (reach_step _ _ _ game31b (Hover 0 0)).
    + apply reach_init. vm_compute. reflexivity.
    + left. vm_compute. reflexivity.
  - vm_compute. lia.
Defined.


(** The clusters of the board of three columns: the two red cells of the
    first column, the blue column, and two cells alone. *)
Example clusters_three_columns :
  map (fun p => clusterSize game32 (fst p) (snd p))
    [(0, 0); (0, 1); (1, 0); (1, 1); (2, 0); (2, 1)]
  = [Some 2; Some 2; Some 2; Some 2; Some 1; Some 1]%nat.
Proof. reflexivity. Qed.

(** ** Columns whose tiles lie at the bottom *)

Lemma Forall_sublist {A : Type} (P : A -> Prop) (l' l : list A) :
  sublist l' l -> Forall P l -> Forall P l'.
Proof.
  induction 1 as [|x l1 l2 Hs IH|x l1 l2 Hs IH]; intros HF; [done| |];
    inversion HF; subst; [constructor|]; auto.
Qed.

Lemma StronglySorted_sublist {A : Type} (R : relation A) (l' l : list A) :
  sublist l' l -> StronglySorted R l -> StronglySorted R l'.
Proof.
  induction 1 as [|x l1 l2 Hs IH|x l1 l2 Hs IH]; intros HS; [done| |].
  - apply StronglySorted_cons in HS as [HF HS]. apply StronglySorted_cons.
    split; [by eapply Forall_sublist|auto].
  - apply StronglySorted_cons in HS as [_ HS]. auto.
Qed.

Lemma StronglySorted_lookup {A : Type} (R : relation A) (l : list A)
    (i j : nat) (a b : A) :
  StronglySorted R l -> (i < j)%nat -> l !! i = Some a -> l !! j = Some b -> R a b.
Proof.
  intros HS. revert i j. induction HS as [|x l HS IH HF]; intros i j Hij Hi Hj.
  { by rewrite lookup_nil in Hi. }
  destruct j as [|j]; [lia|]. simpl in Hj. destruct i as [|i].
  - simpl in Hi. injection Hi as <-. rewrite Forall_forall in HF.
    apply HF. by eapply list_elem_of_lookup_2.
  - simpl in Hi. apply (IH i j); [lia|done|done].
Qed.

Lemma splice1_sublist {A : Type} (l : list A) (y : Z) : sublist (splice1 l y) l.
Proof. unfold splice1. rewrite <- delete_take_drop. apply sublist_delete. Qed.

Lemma fold_splice_sublist {A : Type} (ys : list Z) (l : list A) :
  sublist (fold_left splice1 ys l) l.
Proof.
  revert l. induction ys as [|y ys IH]; intros l; simpl; [done|].
  etrans; [apply IH|apply splice1_sublist].
Qed.

Lemma settledCol_repeat_None (n : nat) : settledCol (repeat None n).
Proof.
  induction n as [|n IH]; simpl; [constructor|].
  apply StronglySorted_cons. split; [|done].
  apply Forall_forall. intros b _. by left.
Qed.

Lemma settledCol_tiles (f : Z -> string) (ys : list Z) :
  settledCol (map (fun y => Some (f y)) ys).
Proof.
  induction ys as [|y ys IH]; simpl; [constructor|].
  apply StronglySorted_cons. split; [|done].
  apply Forall_forall. intros b Hb. right.
  change (map ?g ?l) with (g <$> l) in Hb.
  by apply list_elem_of_fmap in Hb as (y' & -> & _).
Qed.

Lemma gravityColors_settled (h : Z) (hc : list (Z * Z)) (x : Z)
    (cs : list (option string)) :
  settledCol cs -> settledCol (gravityColors h hc x cs).
Proof.
  intros HS. unfold gravityColors. apply StronglySorted_app_2.
  - intros a b Ha _. left. apply list_elem_of_In in Ha. by apply repeat_spec in Ha.
  - apply settledCol_repeat_None.
  - eapply StronglySorted_sublist; [apply fold_splice_sublist|done].
Qed.

Lemma settle_Forall (P : list (option string) -> Prop) (h : Z)
    (hc : list (Z * Z)) (x0 : nat) (g : list (list (option string))) :
  P (repeat None (Z.to_nat h)) ->
  Forall (fun cs => forall x, P (gravityColors h hc x cs)) g ->
  Forall P (settle h hc x0 g).
Proof.
  intros Hn. revert x0. induction g as [|cs g IH]; intros x0 HF; simpl; [constructor|].
  inversion HF as [|? ? Hcs Hg]; subst.
  destruct (emptyCol _).
  - apply Forall_app. split; [by apply IH|]. by constructor.
  - constructor; [apply Hcs|by apply IH].
Qed.

(** ** Boards without a tile *)

Lemma tiles_zero (l : list (option string)) :
  tiles l = 0%nat <-> Forall (fun c => c = None) l.
Proof.
  unfold tiles. induction l as [|c l IH]; [split; [constructor|done]|].
  rewrite filter_cons. destruct c as [s|].
  - rewrite decide_True by done. split; [done|]. by inversion 1.
  - rewrite decide_False by (intros H; by apply H). rewrite IH.
    split; [by constructor|by inversion 1].
Qed.

Lemma tilesOf_zero (w h : Z) (b : list (list Cell)) :
  shaped w h b ->
  tilesOf b = 0 <-> forall p, inb w h p -> colorAt (colorsOf b) p = Some None.
Proof.
  intros Hs. unfold tilesOf.
  assert (Z.of_nat (tiles (concat (colorsOf b))) = 0 <->
          tiles (concat (colorsOf b)) = 0%nat) as -> by lia.
  rewrite tiles_zero, Forall_forall. split.
  - intros H [x y] Hp.
    destruct (at2_is_Some w h (colorsOf b) x y) as [c Hc];
      [by apply shaped_colorsOf|done|].
    unfold colorAt. simpl. rewrite Hc. f_equal. apply H.
    apply at2_Some in Hc as (col & _ & _ & Hcol & Hc).
    apply elem_of_concat. exists col. split; by eapply list_elem_of_lookup_2.
  - intros H c Hc. apply elem_of_concat in Hc as (col & Hc & Hcol).
    apply list_elem_of_lookup in Hcol as [i Hi].
    apply list_elem_of_lookup in Hc as [j Hj].
    assert (at2 (colorsOf b) (Z.of_nat i) (Z.of_nat j) = Some c) as Hat.
    { apply at2_Some. exists col. rewrite !Nat2Z.id. repeat split; try done; lia. }
    specialize (H (Z.of_nat i, Z.of_nat j)). unfold colorAt in H. simpl in H.
    rewrite Hat in H.
    assert (Some c = Some None) as Heq.
    { apply H. eapply at2_inb; [by apply shaped_colorsOf|done]. }
    congruence.
Qed.

(** ** What updateGame and a removal show and alert *)

Lemma updateGame_display (st : State) (r : nat) :
  shaped (width st) (height st) (board st) ->
  hoverCluster st = Some r ->
  exists st',
    updateGame st = Normal st' /\
    alerts st' =
      (alerts st + if decide (tilesOf (board st') = 0%Z) then 1 else 0)%nat /\
    hoverShown st' =
      (if decide (deref (heap st) r = []) then hoverShown st else 0) /\
    hoverArray st' = [].
Proof.
  intros Hs Hr. unfold updateGame, handleOut. rewrite Hr.
  assert (exists st1, (match deref (heap st) r with
                       | [] => Normal st
                       | _ :: _ => Normal (updateHoverScore 0 st)
                       end) = Normal st1 /\
            width st1 = width st /\ height st1 = height st /\
            board st1 = board st /\ heap st1 = heap st /\
            hoverCluster st1 = Some r /\ alerts st1 = alerts st /\
            hoverShown st1 =
              (if decide (deref (heap st) r = []) then hoverShown st else 0))
    as (st1 & -> & Hw1 & Hh1 & Hb1 & Hp1 & Hr1 & Ha1 & Hsh1).
  { destruct (deref (heap st) r); eexists; (split; [done|]); by repeat split. }
  cbn [andThen id]. rewrite Hr1. unfold withBoard, withHover, updateScore. cbn.
  rewrite ?Hw1, ?Hh1, ?Hb1, ?Hp1.
  destruct (updateClusters_spec (width st) (height st) (board st)
    (heap st ++ [[]]) Hs) as (b' & hp' & -> & Hcol & Hcl & Hle & Hold).
  fold (alloc (heap st)) in Hle, Hold.
  unfold withBoard, withHover, updateScore. cbn.
  rewrite ?Hw1, ?Hh1, ?Hb1, ?Hp1.
  assert (shaped (width st) (height st) b') as Hs' by by eapply shaped_same_colors.
  rewrite draw_shaped by done.
  destruct (checkWin_iff_empty _ _ _ _ Hs' Hcl) as (v & -> & Hv).
  rewrite <- (tilesOf_zero _ _ _ Hs') in Hv.
  assert (deref hp' (length (heap st)) = []) as Hnil.
  { rewrite length_alloc in Hle, Hold. unfold deref. rewrite Hold by lia.
    apply deref_alloc_new. }
  destruct v; eexists; (split; [done|]); unfold hoverArray; cbn;
    rewrite Ha1, Hsh1.
  - rewrite decide_True by (by apply Hv). split; [lia|done].
  - rewrite decide_False by (intros H; by apply Hv in H). split; [lia|done].
Qed.

Lemma handleHover_nowhere (st : State) : handleHover (-1) (-1) st = Throw st.
Proof. reflexivity. Qed.

(** The stages of a removal: [st2] is the state after updateGame, before the
    last line of handleClick. *)
Lemma handleClick_stages (st : State) :
  valid st -> (2 <= length (hoverArray st))%nat ->
  exists st2,
    valid st2 /\ (forall ox oy, handleClick ox oy st = handleHover ox oy st2) /\
    colorsOf (board st2) =
      settle (height st) (hoverArray st) 0 (colorsOf (board st)) /\
    numCells st2 = numCells st - Z.of_nat (length (hoverArray st)) /\
    score st2 = score st +
      Z.of_nat (length (hoverArray st)) * Z.of_nat (length (hoverArray st)) /\
    width st2 = width st /\ height st2 = height st /\
    alerts st2 =
      (alerts st + if decide (tilesOf (board st2) = 0%Z) then 1 else 0)%nat /\
    hoverShown st2 = 0 /\ hoverArray st2 = [].
Proof.
  intros Hv Hn.
  destruct (handleClick_removal (-1) (-1) st Hv Hn)
    as (st2' & Hv2 & Hrun & Hc & Hnum & Hsc & Hw & Hh).
  rewrite handleHover_nowhere in Hrun.
  destruct (v_hover st Hv) as (r & Hr & Hlt & _).
  unfold hoverArray in *. rewrite Hr in *.
  destruct (clickLoop_spec (deref (heap st) r) st (v_shaped st Hv)
    (clustered_tidy (width st) (height st) _ _ (v_clustered st Hv)) (v_width st Hv))
    as (st1 & Hloop & Hc1 & Hs1 & Ht1 & He1 & Hn1 & Hsame1).
  destruct Hsame1 as (Hw1 & Hh1 & Hr1 & Hsc1 & _ & _ & Hsh1 & Ha1).
  rewrite Hr in Hr1.
  destruct (updateGame_display st1 r) as (st2 & Hug & Hal & Hshown & Hhov);
    [by rewrite Hw1, Hh1|done|].
  assert (forall ox oy, handleClick ox oy st = handleHover ox oy st2) as Hall.
  { intros ox oy. unfold handleClick. rewrite Hr.
    destruct (Z.ltb_spec (Z.of_nat (length (deref (heap st) r))) 2); [lia|].
    rewrite Hloop. cbn [andThen id]. by rewrite Hug. }
  assert (st2' = st2) as ->.
  { specialize (Hall (-1) (-1)). rewrite handleHover_nowhere, Hrun in Hall.
    congruence. }
  exists st2. split; [done|]. split; [done|]. split; [done|]. split; [done|].
  split; [done|]. split; [done|]. split; [done|]. split; [by rewrite Hal, Ha1|].
  split; [|done]. rewrite Hshown, (extends_deref _ _ _ He1 Hlt).
  apply decide_False. intros Hnil. rewrite Hnil in Hn. simpl in Hn. lia.
Qed.

(** ** The further invariants hold in every state of a game *)

Lemma handleHover_steady (ox oy : Z) (st st' : State) :
  valid st -> steady st -> after (handleHover ox oy st) st' -> steady st'.
Proof.
  intros Hv Hs Hafter. unfold handleHover in Hafter.
  destruct (getCell (board st) ox oy) as [c|] eqn:Hc.
  2: { destruct Hafter as [H|H]; [done|]. by injection H as <-. }
  destruct (v_clustered st Hv ox oy c Hc) as (r & Hr & Hlt & Hok).
  rewrite Hr in Hafter.
  destruct (Z.ltb_spec 1 (Z.of_nat (length (deref (heap st) r)))) as [Hn|Hn];
    (destruct Hafter as [H|H]; [|done]); injection H as <-;
    destruct Hs; split; unfold hoverArray; cbn; try done.
  - right. lia.
  - by right.
  - left. apply deref_alloc_new.
  - by left.
Qed.

Lemma handleClick_steady (st : State) :
  valid st -> steady st -> (2 <= length (hoverArray st))%nat ->
  exists st2,
    valid st2 /\ steady st2 /\
    (forall ox oy, handleClick ox oy st = handleHover ox oy st2).
Proof.
  intros Hv Hs Hn.
  destruct (handleClick_stages st Hv Hn)
    as (st2 & Hv2 & Hall & Hc & Hnum & Hsc & Hw & Hh & Hal & Hsh & Hhov).
  exists st2. split; [done|]. split; [|done].
  pose proof (v_numCells st2 Hv2) as Hcells. unfold tilesOf in Hcells.
  destruct Hs as [Hg _ _ Ha [Hc0 Hc1] [Hs0 Hs1]].
  split.
  - rewrite Hc. apply settle_Forall; [apply settledCol_repeat_None|].
    eapply Forall_impl; [exact Hg|]. intros cs Hcs x.
    by apply gravityColors_settled.
  - by left.
  - by left.
  - rewrite Hal, Ha, <- (v_numCells st2 Hv2).
    rewrite (decide_False (P := numCells st = 0)) by lia. done.
  - rewrite Hw, Hh. lia.
  - rewrite Hw, Hh, Hnum, Hsc. split; nia.
Qed.

Lemma handle_steady (e : event) (st st' : State) :
  valid st -> steady st -> after (handle e st) st' -> steady st'.
Proof.
  intros Hv Hs. destruct e as [x y| |x y]; simpl.
  - by apply handleHover_steady.
  - unfold handleOut. destruct (v_hover st Hv) as (r & Hr & _).
    pose proof (s_hover st Hs) as Hh. unfold hoverArray in Hh.
    rewrite Hr in *. destruct (deref (heap st) r) eqn:Hd.
    + intros [H|H]; [|done]. by injection H as <-.
    + intros [H|H]; [|done]. injection H as <-.
      destruct Hs. split; unfold hoverArray; cbn; try done. by left.
  - destruct (decide (2 <= length (hoverArray st))%nat) as [Hn|Hn].
    + destruct (handleClick_steady st Hv Hs Hn) as (st2 & Hv2 & Hs2 & ->).
      by apply handleHover_steady.
    + destruct (v_hover st Hv) as (r & Hr & _).
      unfold hoverArray in Hn. rewrite Hr in Hn.
      rewrite (handleClick_small x y st r Hr) by lia.
      intros [H|H]; [|done]. by injection H as <-.
Qed.

Lemma construct_steady (w h : Z) (pick : Z -> Z -> string) (st : State) :
  0 <= w -> 0 <= h -> construct w h pick = Normal st ->
  steady st /\ colorsOf (board st) =
    map (fun x => map (fun y => Some (pick x y)) (zrange h)) (zrange w) /\
  score st = 0 /\ numCells st = h * w /\ hoverShown st = 0 /\
  hoverArray st = [].
Proof.
  intros Hw Hh Hrun.
  pose proof (construct_sizes w h pick st Hrun) as Hsz.
  destruct (construct_valid w h pick Hw Hh Hsz) as (st0 & Hrun0 & Hv & Hw0 & Hh0).
  rewrite Hrun in Hrun0. injection Hrun0 as <-.
  unfold construct, randomBoard in Hrun. rewrite Hsz in Hrun.
  destruct (newColumns_spec pick h (zrange w) [[]]) as (b & hp & Hnew & Hc & He).
  rewrite Hnew in Hrun.
  assert (shaped w h b) as Hsh.
  { apply shaped_colorsOf. rewrite Hc. split.
    - by rewrite length_map, length_zrange.
    - apply Forall_forall. intros col Hcol.
      change (map ?f ?l) with (f <$> l) in Hcol.
      apply list_elem_of_fmap in Hcol as (x & -> & _).
      by rewrite length_map, length_zrange. }
  set (st0 := mkState w h b hp (Some 0%nat) 0 (h * w) None None 0 0) in *.
  destruct (updateGame_spec st0 0%nat)
    as (st1 & Hug & Hc1 & _ & _ & Hsc1 & Hn1 & _); [done|done|].
  destruct (updateGame_display st0 0%nat)
    as (st1' & Hug' & Hal & _ & Hhov); [done|done|].
  rewrite Hug in Hug'. injection Hug' as <-.
  rewrite Hug in Hrun. cbn [andThen id] in Hrun. injection Hrun as <-.
  assert (deref hp 0 = []) as Hnil.
  { rewrite (extends_deref [[]] hp) by (done || simpl; lia). done. }
  simpl in Hsc1, Hn1, Hal, Hc1. rewrite Hnil in Hsc1. simpl in Hsc1.
  pose proof (v_numCells _ Hv) as Hcells. cbn in Hcells.
  split; [|split; [exact (eq_trans Hc1 Hc)|split; [cbn; lia|split; [done|split; [done|]]]];
    exact Hhov].
  cbn in Hw0, Hh0. rewrite <- Hcells in Hal. split.
  - change (Forall settledCol (colorsOf (board st1))). rewrite Hc1, Hc.
    apply Forall_forall. intros col Hcol.
    change (map ?f ?l) with (f <$> l) in Hcol.
    apply list_elem_of_fmap in Hcol as (x & -> & _). apply settledCol_tiles.
  - left. exact Hhov.
  - by left.
  - exact Hal.
  - cbn. rewrite Hn1, Hw0, Hh0. nia.
  - cbn. rewrite Hn1, Hsc1, Hw0, Hh0. split; nia.
Qed.

Lemma reachable_steady (w h : Z) (pick : Z -> Z -> string) (st : State) :
  0 <= w -> 0 <= h -> reachable w h pick st -> steady st.
Proof.
  intros Hw Hh Hreach. induction Hreach as [st Hinit|st e st' Hreach IH Hstep].
  - by destruct (construct_steady w h pick st Hw Hh Hinit).
  - destruct (reachable_valid w h pick st Hw Hh Hreach) as (Hv & _).
    by eapply handle_steady.
Qed.

(** ** A new game *)

Lemma zget_zrange (n i : Z) : 0 <= i < n -> zget (zrange n) i = Some i.
Proof.
  intros H. apply zget_Some. split; [lia|]. unfold zrange.
  change (map ?f ?l) with (f <$> l).
  rewrite list_lookup_fmap, lookup_seq_lt by lia. simpl. f_equal. lia.
Qed.

(** X1: for a width and a height from 0 to 2^32 - 1 the constructor ends
    normally; every cell of the new board is a tile with the colour drawn
    for it, nothing is hovered, the score is 0, the bonus for a board of
    fewer than 50 cells is there from the start, and "game over" is alerted
    at once exactly when the board has no cell. *)
Theorem construct_new_game (w h : Z) (pick : Z -> Z -> string) :
  0 <= w -> 0 <= h -> w < 2 ^ 32 -> h < 2 ^ 32 ->
  exists st,
    construct w h pick = Normal st /\
    width st = w /\ height st = h /\
    shaped w h (board st) /\
    (forall x y, inb w h (x, y) ->
       colorAt (colorsOf (board st)) (x, y) = Some (Some (pick x y))) /\
    score st = 0 /\ numCells st = h * w /\
    scoreLeft st = Some (Z.max ((50 - h * w) * 100) 0) /\
    scoreTotal st = Some (Z.max ((50 - h * w) * 100) 0) /\
    hoverArray st = [] /\ hoverShown st = 0 /\
    alerts st = if decide (h * w = 0) then 1%nat else 0%nat.
Proof.
  intros Hw Hh Hw32 Hh32.
  destruct (construct_valid w h pick Hw Hh (boardSizes_lt w h Hw32 Hh32))
    as (st & Hrun & Hv & Hw0 & Hh0).
  destruct (construct_steady w h pick st Hw Hh Hrun)
    as (Hs & Hc & Hsc & Hn & Hsh & Hhov).
  exists st. split; [done|]. split; [done|]. split; [done|].
  split. { rewrite <- Hw0, <- Hh0. apply (v_shaped st Hv). }
  split.
  { intros x y [Hx Hy]. simpl in *. rewrite Hc. unfold colorAt, at2. simpl.
    rewrite zget_map, zget_zrange by done. simpl.
    by rewrite zget_map, zget_zrange by done. }
  split; [done|]. split; [done|].
  split. { by rewrite (v_scoreLeft st Hv), Hn. }
  split. { by rewrite (v_scoreTotal st Hv), Hn, Hsc, Z.add_0_l. }
  split; [done|]. split; [done|]. by rewrite (s_alerts st Hs), Hn.
Qed.

(** A width of 2^32, and a height of 2^32 when there is a column, are no
    lengths of arrays: the constructor ends with the RangeError of
    Array.from, and there is no game. *)
Example construct_too_large (pick : Z -> Z -> string) (n : Z) :
  (exists st, construct (2 ^ 32) n pick = Throw st) /\
  (exists st, construct 1 (2 ^ 32) pick = Throw st) /\
  (forall st, ~ reachable (2 ^ 32) n pick st).
Proof.
  split; [by eexists|]. split; [by eexists|].
  intros st Hreach. induction Hreach as [st Hinit|]; [|done].
  by apply construct_sizes in Hinit.
Qed.

(** The game of line 266, [new SameGame(4, 20, 16)]: 320 tiles, no bonus
    and no alert at the start, whatever colours are drawn. *)
Example game_of_the_page (pick : Z -> Z -> string) :
  exists st, construct 20 16 pick = Normal st /\
    numCells st = 320 /\ score st = 0 /\ scoreLeft st = Some 0 /\
    scoreTotal st = Some 0 /\ alerts st = 0%nat.
Proof.
  destruct (construct_valid 20 16 pick) as (st & Hrun & Hv & _);
    [lia|lia|reflexivity|].
  destruct (construct_steady 20 16 pick st) as (Hs & _ & Hsc & Hn & _);
    [lia|lia|done|].
  exists st. split; [done|]. split; [done|]. split; [done|].
  split; [by rewrite (v_scoreLeft st Hv), Hn|].
  split; [by rewrite (v_scoreTotal st Hv), Hn, Hsc|].
  by rewrite (s_alerts st Hs), Hn.
Qed.

(** ** What holds in every state of a game, continued *)

(** X2: in every state of a game "game over" has been alerted once if the
    board has no tile left, and never if it has one: the alert tells that
    the board was cleared, and a board with tiles but without a cluster of
    two cells or more is not announced. *)
Theorem game_over_alerted (w h : Z) (pick : Z -> Z -> string) (st : State) :
  0 <= w -> 0 <= h -> reachable w h pick st ->
  alerts st = (if decide (tilesOf (board st) = 0) then 1%nat else 0%nat) /\
  (tilesOf (board st) = 0 <->
   forall p, inb w h p -> colorAt (colorsOf (board st)) p = Some None).
Proof.
  intros Hw Hh Hreach.
  destruct (reachable_valid w h pick st Hw Hh Hreach) as (Hv & Hw0 & Hh0).
  pose proof (reachable_steady w h pick st Hw Hh Hreach) as Hs.
  split.
  - by rewrite (s_alerts st Hs), (v_numCells st Hv).
  - rewrite <- Hw0, <- Hh0. apply tilesOf_zero, (v_shaped st Hv).
Qed.

(** X3: in every state of a game numCells is the number of tiles on the
    board, between 0 and width * height. *)
Theorem numCells_counts_tiles (w h : Z) (pick : Z -> Z -> string) (st : State) :
  0 <= w -> 0 <= h -> reachable w h pick st ->
  numCells st = tilesOf (board st) /\ 0 <= numCells st <= w * h.
Proof.
  intros Hw Hh Hreach.
  destruct (reachable_valid w h pick st Hw Hh Hreach) as (Hv & Hw0 & Hh0).
  pose proof (reachable_steady w h pick st Hw Hh Hreach) as Hs.
  split; [apply (v_numCells st Hv)|]. rewrite <- Hw0, <- Hh0.
  apply (s_cells st Hs).
Qed.

(** X4: in every state of a game the score lies between twice the number
    of tiles removed so far and the square of that number (every removal
    takes n >= 2 tiles and adds n * n). *)
Theorem score_bounds (w h : Z) (pick : Z -> Z -> string) (st : State) :
  0 <= w -> 0 <= h -> reachable w h pick st ->
  let removed := w * h - numCells st in
  2 * removed <= score st /\ score st <= removed * removed.
Proof.
  intros Hw Hh Hreach.
  destruct (reachable_valid w h pick st Hw Hh Hreach) as (Hv & Hw0 & Hh0).
  pose proof (reachable_steady w h pick st Hw Hh Hreach) as Hs.
  cbv zeta. rewrite <- Hw0, <- Hh0. apply (s_score st Hs).
Qed.

(** X5: in every state of a game the tiles of a column lie at its bottom:
    every cell below a tile is a tile. *)
Theorem tiles_rest_on_tiles (w h : Z) (pick : Z -> Z -> string) (st : State)
    (x y y' : Z) (c : string) :
  0 <= w -> 0 <= h -> reachable w h pick st ->
  colorAt (colorsOf (board st)) (x, y) = Some (Some c) -> y < y' < h ->
  exists c', colorAt (colorsOf (board st)) (x, y') = Some (Some c').
Proof.
  intros Hw Hh Hreach Hc Hy.
  destruct (reachable_valid w h pick st Hw Hh Hreach) as (Hv & Hw0 & Hh0).
  pose proof (reachable_steady w h pick st Hw Hh Hreach) as Hs.
  unfold colorAt in *. simpl in *.
  apply at2_Some in Hc as (col & Hx0 & Hy0 & Hcol & Hc).
  pose proof (s_gravity st Hs) as Hg. rewrite Forall_forall in Hg.
  specialize (Hg col (list_elem_of_lookup_2 _ _ _ Hcol)).
  assert (length col = Z.to_nat h) as Hlen.
  { pose proof (v_shaped st Hv) as Hsh. apply shaped_colorsOf in Hsh.
    destruct Hsh as [_ Hsh]. rewrite Forall_forall in Hsh. rewrite <- Hh0.
    apply Hsh. by eapply list_elem_of_lookup_2. }
  destruct (lookup_lt_is_Some_2 col (Z.to_nat y')) as [o Ho]; [lia|].
  assert (tileOrder (Some c) o) as [H|H]; [|done|].
  { apply (StronglySorted_lookup tileOrder col (Z.to_nat y) (Z.to_nat y'));
      [done|lia|done|done]. }
  destruct o as [c'|]; [|done]. exists c'. apply at2_Some. exists col.
  repeat split; try done; lia.
Qed.

(** X6: in every state of a game hoverCluster is empty or is the cluster of
    a tile of the board, with two cells or more: the cells connected to that
    tile, each once; and the number shown in #hover is 0 or the square of
    its size. *)
Theorem hover_is_a_cluster (w h : Z) (pick : Z -> Z -> string) (st : State) :
  0 <= w -> 0 <= h -> reachable w h pick st ->
  (hoverShown st = 0 \/
   hoverShown st =
     Z.of_nat (length (hoverArray st)) * Z.of_nat (length (hoverArray st))) /\
  (hoverArray st = [] \/
   exists p cp cc,
     (2 <= length (hoverArray st))%nat /\ NoDup (hoverArray st) /\
     cellAt (board st) p = Some cp /\ color cp = Some cc /\
     cluster cp = hoverCluster st /\
     forall q, q ∈ hoverArray st <-> conn (colorsOf (board st)) p q).
Proof.
  intros Hw Hh Hreach.
  destruct (reachable_valid w h pick st Hw Hh Hreach) as (Hv & Hw0 & Hh0).
  pose proof (reachable_steady w h pick st Hw Hh Hreach) as Hs.
  split; [apply (s_shown st Hs)|].
  destruct (s_hover st Hs) as [Hnil|Hn]; [by left|right].
  destruct (v_hover st Hv) as (r & Hr & Hlt & Hcase).
  unfold hoverArray in *. rewrite Hr in *.
  destruct Hcase as [Hnil|(x & y & cp & Hcell & Hcl)].
  { rewrite Hnil in Hn. simpl in Hn. lia. }
  destruct (v_clustered st Hv x y cp Hcell) as (r' & Hr' & _ & Hok).
  assert (r' = r) as -> by congruence.
  destruct (color cp) as [cc|] eqn:Hcol.
  - destruct Hok as (Hnd & Hmem & _). exists (x, y), cp, cc.
    split; [done|]. split; [done|]. split; [done|]. split; [done|]. by split.
  - rewrite Hok in Hn. simpl in Hn. lia.
Qed.

(** ** A board without a move *)

Lemma stuck_step (e : event) (st st' : State) :
  valid st -> hoverArray st = [] ->
  (forall x y n, clusterSize st x y = Some n -> (n < 2)%nat) ->
  after (handle e st) st' ->
  valid st' /\ hoverArray st' = [] /\
  (forall x y n, clusterSize st' x y = Some n -> (n < 2)%nat) /\
  board st' = board st /\ score st' = score st /\ numCells st' = numCells st /\
  alerts st' = alerts st.
Proof.
  intros Hv Hnil Hsmall Hafter.
  assert (valid st') as Hv'.
  { destruct (handle_valid e st Hv) as (st'' & Hafter' & Hv'' & _).
    by rewrite (after_inj _ _ _ Hafter Hafter'). }
  split; [done|].
  destruct e as [x y| |x y]; simpl in Hafter.
  - unfold handleHover in Hafter.
    destruct (getCell (board st) x y) as [c|] eqn:Hc.
    2: { destruct Hafter as [He|He]; [done|]. by injection He as <-. }
    destruct (v_clustered st Hv x y c Hc) as (r & Hr & Hlt & Hok).
    rewrite Hr in Hafter.
    assert (clusterSize st x y = Some (length (deref (heap st) r))) as Hsize.
    { unfold clusterSize. by rewrite Hc, Hr. }
    apply Hsmall in Hsize.
    destruct (Z.ltb_spec 1 (Z.of_nat (length (deref (heap st) r)))); [lia|].
    destruct Hafter as [He|He]; [|done]. injection He as <-.
    split; [unfold hoverArray; cbn; apply deref_alloc_new|].
    split; [|done].
    intros x' y' n. unfold clusterSize. cbn.
    destruct (getCell (board st) x' y') as [c'|] eqn:Hc'; [|done].
    destruct (v_clustered st Hv x' y' c' Hc') as (r' & Hr' & Hlt' & _).
    rewrite Hr', deref_alloc_old by done. intros Hn. apply (Hsmall x' y').
    unfold clusterSize. by rewrite Hc', Hr'.
  - unfold handleOut in Hafter. unfold hoverArray in Hnil.
    destruct (v_hover st Hv) as (r & Hr & _). rewrite Hr in *.
    rewrite Hnil in Hafter. destruct Hafter as [He|He]; [|done].
    injection He as <-. unfold hoverArray. by rewrite Hr.
  - destruct (v_hover st Hv) as (r & Hr & _).
    unfold hoverArray in Hnil. rewrite Hr in Hnil.
    rewrite (handleClick_small x y st r Hr) in Hafter
      by (rewrite Hnil; simpl; lia).
    destruct Hafter as [He|He]; [|done]. injection He as <-.
    unfold hoverArray. by rewrite Hr.
Qed.

(** X7: once no cluster of the board has two cells, nothing changes any
    more: whatever events follow, with whatever coordinates, the board, the
    score, numCells and the number of alerts stay as they are. *)
Theorem no_move_no_change (w h : Z) (pick : Z -> Z -> string) (st : State)
    (es : list event) (st' : State) :
  0 <= w -> 0 <= h -> reachable w h pick st ->
  (forall x y n, clusterSize st x y = Some n -> (n < 2)%nat) ->
  runs st es st' ->
  board st' = board st /\ score st' = score st /\
  numCells st' = numCells st /\ scoreTotal st' = scoreTotal st /\
  alerts st' = alerts st.
Proof.
  intros Hw Hh Hreach Hsmall Hruns.
  destruct (reachable_valid w h pick st Hw Hh Hreach) as (Hv & _).
  pose proof (reachable_steady w h pick st Hw Hh Hreach) as Hs.
  assert (hoverArray st = []) as Hnil.
  { destruct (s_hover st Hs) as [Hnil|Hn]; [done|].
    destruct (v_hover st Hv) as (r & Hr & Hlt & Hcase).
    unfold hoverArray in *. rewrite Hr in *.
    destruct Hcase as [Hnil|(x & y & c & Hcell & Hcl)]; [done|].
    assert (clusterSize st x y = Some (length (deref (heap st) r))) as Hsize.
    { unfold clusterSize. by rewrite Hcell, Hcl. }
    apply Hsmall in Hsize. lia. }
  clear Hreach Hs.
  assert (valid st' /\ board st' = board st /\ score st' = score st /\
          numCells st' = numCells st /\ alerts st' = alerts st)
    as (Hv' & Hb & Hsc & Hn & Ha).
  { induction Hruns as [st|st e st1 es st2 Hstep Hruns IH]; [done|].
    destruct (stuck_step e st st1 Hv Hnil Hsmall Hstep)
      as (Hv1 & Hnil1 & Hsmall1 & Hb1 & Hsc1 & Hn1 & Ha1).
    destruct (IH Hsmall1 Hv1 Hnil1) as (Hv2 & Hb2 & Hsc2 & Hn2 & Ha2).
    split; [done|]. split; [congruence|]. split; [congruence|].
    split; congruence. }
  split; [done|]. split; [done|]. split; [done|]. split; [|done].
  by rewrite (v_scoreTotal st Hv), (v_scoreTotal st' Hv'), Hsc, Hn.
Qed.

(** ** mouseout and click *)

Lemma clickColumn_shown (hc : list (Z * Z)) (x n : Z) (st st1 : State) :
  clickColumn hc x st = Normal st1 ->
  clickColumn hc x (updateHoverScore n st) = Normal (updateHoverScore n st1).
Proof.
  unfold clickColumn. cbn [board heap height width numCells updateHoverScore].
  destruct (zget (board st) x) as [col|]; [|done].
  destruct (padTop _ _ _) as [col2 hp2].
  destruct (everyEmpty hp2 col2) as [[|]|]; [| |done].
  - destruct (shiftLeft _ _ _ _) as [[b hp]| |]; [|done|done].
    cbn. intros [= <-]. reflexivity.
  - intros [= <-]. reflexivity.
Qed.

Lemma clickLoop_shown (hc : list (Z * Z)) (n : Z) (xs : list Z)
    (st st1 : State) :
  forEach (clickColumn hc) xs st = Normal st1 ->
  forEach (clickColumn hc) xs (updateHoverScore n st) =
    Normal (updateHoverScore n st1).
Proof.
  revert st. induction xs as [|x xs IH]; intros st; simpl.
  - by intros [= <-].
  - destruct (clickColumn hc x st) as [s| |] eqn:E; [|done|done].
    rewrite (clickColumn_shown _ _ n _ _ E). apply IH.
Qed.

Lemma updateGame_shown (st : State) (r : nat) :
  hoverCluster st = Some r -> deref (heap st) r <> [] ->
  updateGame (updateHoverScore 0 st) = updateGame st.
Proof.
  intros Hr Hne. unfold updateGame, handleOut.
  cbn [hoverCluster heap updateHoverScore]. rewrite Hr.
  destruct (deref (heap st) r); [done|]. reflexivity.
Qed.

(** X8: in every state of a game handleOut ends normally and changes
    nothing but the number shown in #hover, which becomes 0 when a cluster
    was hovered; hoverCluster stays, so that a click after the mouse has
    left does exactly what the click before would have done. *)
Theorem mouseout_keeps_selection (w h : Z) (pick : Z -> Z -> string)
    (st : State) :
  0 <= w -> 0 <= h -> reachable w h pick st ->
  exists st1,
    handleOut st = Normal st1 /\
    board st1 = board st /\ heap st1 = heap st /\
    hoverCluster st1 = hoverCluster st /\
    score st1 = score st /\ numCells st1 = numCells st /\
    hoverShown st1 = (if decide (hoverArray st = []) then hoverShown st else 0) /\
    forall ox oy, handleClick ox oy st1 = handleClick ox oy st.
Proof.
  intros Hw Hh Hreach.
  destruct (reachable_valid w h pick st Hw Hh Hreach) as (Hv & _).
  pose proof (reachable_steady w h pick st Hw Hh Hreach) as Hs.
  destruct (v_hover st Hv) as (r & Hr & Hlt & _).
  pose proof (s_hover st Hs) as Hhov.
  unfold handleOut, hoverArray in *. rewrite Hr in *.
  destruct (deref (heap st) r) as [|p hc] eqn:Hd.
  { exists st. by rewrite decide_True. }
  destruct Hhov as [Hnil|Hn]; [done|].
  exists (updateHoverScore 0 st). rewrite decide_False by done.
  split; [done|]. split; [done|]. split; [done|]. split; [done|].
  split; [done|]. split; [done|]. split; [done|].
  intros ox oy. unfold handleClick.
  cbn [hoverCluster heap width updateHoverScore]. rewrite Hr, Hd.
  destruct (Z.ltb_spec (Z.of_nat (length (p :: hc))) 2); [lia|].
  destruct (clickLoop_spec (p :: hc) st (v_shaped st Hv)
    (clustered_tidy (width st) (height st) _ _ (v_clustered st Hv)) (v_width st Hv))
    as (st1 & Hloop & _ & _ & _ & He1 & _ & Hsame1).
  destruct Hsame1 as (_ & _ & Hr1 & _).
  rewrite Hloop, (clickLoop_shown _ 0 _ _ _ Hloop). cbn [andThen id].
  rewrite (updateGame_shown st1 r); [done|congruence|].
  by rewrite (extends_deref _ _ _ He1 Hlt), Hd.
Qed.

(** ** A click, and the click after it *)

Lemma handleHover_result (ox oy : Z) (st : State) :
  valid st -> inb (width st) (height st) (ox, oy) ->
  exists c r,
    getCell (board st) ox oy = Some c /\ cluster c = Some r /\
    (r < length (heap st))%nat /\
    handleHover ox oy st =
      Normal (if decide (2 <= length (deref (heap st) r))%nat
              then updateHoverScore (Z.of_nat (length (deref (heap st) r)))
                     (withHover st (heap st) (Some r))
              else updateHoverScore 0
                     (withHover st (alloc (heap st)) (Some (length (heap st))))).
Proof.
  intros Hv Hin.
  destruct (at2_is_Some _ _ _ ox oy (v_shaped st Hv) Hin) as [c Hc].
  destruct (v_clustered st Hv ox oy c Hc) as (r & Hr & Hlt & Hok).
  exists c, r. unfold handleHover. unfold getCell at 2. rewrite Hc, Hr.
  split; [done|]. split; [done|]. split; [done|].
  destruct (Z.ltb_spec 1 (Z.of_nat (length (deref (heap st) r)))).
  - by rewrite decide_True by lia.
  - by rewrite decide_False by lia.
Qed.

(** X9: a click on a cell of the board, while a cluster of two cells or
    more is hovered, ends normally and leaves the preview on the clicked
    position: hoverCluster is the cluster that lies there on the new board
    if it has two cells or more (and #hover shows the square of its size),
    and is empty otherwise (and #hover shows 0).  So the next click on the
    same position removes that cluster, without a mouse move in between. *)
Theorem click_then_preview (w h : Z) (pick : Z -> Z -> string) (st : State)
    (ox oy : Z) :
  0 <= w -> 0 <= h -> reachable w h pick st ->
  (2 <= length (hoverArray st))%nat -> inb w h (ox, oy) ->
  exists st' c r,
    handleClick ox oy st = Normal st' /\
    getCell (board st') ox oy = Some c /\ cluster c = Some r /\
    let n := length (deref (heap st') r) in
    hoverArray st' = (if decide (2 <= n)%nat then deref (heap st') r else []) /\
    hoverShown st' =
      Z.of_nat (length (hoverArray st')) * Z.of_nat (length (hoverArray st')) /\
    ((2 <= n)%nat -> hoverCluster st' = Some r) /\
    ((2 <= n)%nat ->
       exists st'', handleClick ox oy st' = Normal st'' /\
         numCells st'' = numCells st' - Z.of_nat n /\
         score st'' = score st' + Z.of_nat n * Z.of_nat n).
Proof.
  intros Hw Hh Hreach Hn Hin.
  destruct (reachable_valid w h pick st Hw Hh Hreach) as (Hv & Hw0 & Hh0).
  destruct (handleClick_stages st Hv Hn)
    as (st2 & Hv2 & Hall & _ & _ & _ & Hw2 & Hh2 & _).
  assert (inb (width st2) (height st2) (ox, oy)) as Hin2 by congruence.
  destruct (handleHover_result ox oy st2 Hv2 Hin2) as (c & r & Hc & Hr & Hlt & Hrun).
  rewrite <- Hall in Hrun.
  destruct (decide (2 <= length (deref (heap st2) r))%nat) as [Hbig|Hsmall].
  - eexists _, c, r. split; [exact Hrun|]. split; [done|]. split; [done|].
    cbv zeta. unfold hoverArray.
    cbn [hoverCluster heap hoverShown updateHoverScore withHover].
    rewrite decide_True by done. split; [done|]. split; [done|]. split; [done|].
    intros _.
    set (st' := updateHoverScore (Z.of_nat (length (deref (heap st2) r)))
                  (withHover st2 (heap st2) (Some r))) in *.
    assert (reachable w h pick st') as Hreach'.
    { apply (reach_step _ _ _ st (Click ox oy)); [done|]. by left. }
    destruct (reachable_valid w h pick st' Hw Hh Hreach') as (Hv' & Hw' & Hh').
    destruct (handleClick_after ox oy st' Hv')
      as (st'' & _ & _ & _ & Hnum & Hsc & _ & _ & Hnormal & _); [done|].
    exists st''. split; [apply Hnormal; congruence|]. done.
  - eexists _, c, r. split; [exact Hrun|]. split; [done|]. split; [done|].
    cbv zeta. unfold hoverArray.
    cbn [hoverCluster heap hoverShown updateHoverScore withHover].
    rewrite !(deref_alloc_old (heap st2) r), deref_alloc_new by done.
    rewrite decide_False by done. split; [done|]. split; [done|].
    split; intros; lia.
Qed.

(** ** The further theorems at sample games *)

(** A new board of three columns of two cells. *)
Lemma construct_new_game_witness :
  0 <= 3 /\ 0 <= 2 /\ 3 < 2 ^ 32 /\ 2 < 2 ^ 32 /\
  exists st,
    construct 3 2 threeColumns = Normal st /\
    width st = 3 /\ height st = 2 /\
    shaped 3 2 (board st) /\
    (forall x y, inb 3 2 (x, y) ->
       colorAt (colorsOf (board st)) (x, y) = Some (Some (threeColumns x y))) /\
    score st = 0 /\ numCells st = 2 * 3 /\
    scoreLeft st = Some (Z.max ((50 - 2 * 3) * 100) 0) /\
    scoreTotal st = Some (Z.max ((50 - 2 * 3) * 100) 0) /\
    hoverArray st = [] /\ hoverShown st = 0 /\
    alerts st = if decide (2 * 3 = 0) then 1%nat else 0%nat.
Proof.
  split; [lia|]. split; [lia|]. split; [lia|]. split; [lia|].
  apply (construct_new_game 3 2 threeColumns); lia.
Defined.

(** The row [red, red] after its two cells were removed: the board is
    empty and "game over" was alerted. *)
Lemma game_over_alerted_witness :
  0 <= 2 /\ 0 <= 1 /\ reachable 2 1 twoReds game21c /\
  alerts game21c =
    (if decide (tilesOf (board game21c) = 0) then 1%nat else 0%nat) /\
  (tilesOf (board game21c) = 0 <->
   forall p, inb 2 1 p -> colorAt (colorsOf (board game21c)) p = Some None).
Proof.
  split; [lia|]. split; [lia|]. split.
  { apply (reach_step _ _ _ game21h (Click 0 0)).
    - apply (reach_step _ _ _ game21 (Hover 0 0)).
      + apply reach_init. vm_compute. reflexivity.
      + left. vm_compute. reflexivity.
    - left. vm_compute. reflexivity. }
  apply (game_over_alerted 2 1 twoReds game21c); [lia|lia|].
  apply (reach_step _ _ _ game21h (Click 0 0)).
  - apply (reach_step _ _ _ game21 (Hover 0 0)).
    + apply reach_init. vm_compute. reflexivity.
    + left. vm_compute. reflexivity.
  - left. vm_compute. reflexivity.
Defined.

Example game21c_over :
  colorsOf (board game21c) = [[None]; [None]] /\ alerts game21c = 1%nat /\
  alerts game21h = 0%nat /\ score game21c = 4 /\ scoreTotal game21c = Some 5004.
Proof. vm_compute. by repeat split. Qed.

(** The board of three columns after the removal of the blue one. *)
Lemma numCells_counts_tiles_witness :
  0 <= 3 /\ 0 <= 2 /\ reachable 3 2 threeColumns game32c /\
  numCells game32c = tilesOf (board game32c) /\ 0 <= numCells game32c <= 3 * 2.
Proof.
  split; [lia|]. split; [lia|]. split.
  { apply (reach_step _ _ _ game32h (Click 1 0)).
    - apply (reach_step _ _ _ game32 (Hover 1 0)).
      + apply reach_init. vm_compute. reflexivity.
      + left. vm_compute. reflexivity.
    - left. vm_compute. reflexivity. }
  apply (numCells_counts_tiles 3 2 threeColumns game32c); [lia|lia|].
  apply (reach_step _ _ _ game32h (Click 1 0)).
  - apply (reach_step _ _ _ game32 (Hover 1 0)).
    + apply reach_init. vm_compute. reflexivity.
    + left. vm_compute. reflexivity.
  - left. vm_compute. reflexivity.
Defined.

(** The score after the removal of the blue column: 4, for two tiles. *)
Lemma score_bounds_witness :
  0 <= 3 /\ 0 <= 2 /\ reachable 3 2 threeColumns game32c /\
  let removed := 3 * 2 - numCells game32c in
  2 * removed <= score game32c /\ score game32c <= removed * removed.
Proof.
  split; [lia|]. split; [lia|]. split.
  { apply (reach_step _ _ _ game32h (Click 1 0)).
    - apply (reach_step _ _ _ game32 (Hover 1 0)).
      + apply reach_init. vm_compute. reflexivity.
      + left. vm_compute. reflexivity.
    - left. vm_compute. reflexivity. }
  apply (score_bounds 3 2 threeColumns game32c); [lia|lia|].
  apply (reach_step _ _ _ game32h (Click 1 0)).
  - apply (reach_step _ _ _ game32 (Hover 1 0)).
    + apply reach_init. vm_compute. reflexivity.
    + left. vm_compute. reflexivity.
  - left. vm_compute. reflexivity.
Defined.

(** The column [red, green] of the board of three columns, which has moved
    to the left. *)
Lemma tiles_rest_on_tiles_witness :
  0 <= 3 /\ 0 <= 2 /\ reachable 3 2 threeColumns game32c /\
  colorAt (colorsOf (board game32c)) (1, 0) = Some (Some "red") /\ 0 < 1 < 2 /\
  exists c', colorAt (colorsOf (board game32c)) (1, 1) = Some (Some c').
Proof.
  split; [lia|]. split; [lia|]. split.
  { apply (reach_step _ _ _ game32h (Click 1 0)).
    - apply (reach_step _ _ _ game32 (Hover 1 0)).
      + apply reach_init. vm_compute. reflexivity.
      + left. vm_compute. reflexivity.
    - left. vm_compute. reflexivity. }
  split; [reflexivity|]. split; [lia|].
  apply (tiles_rest_on_tiles 3 2 threeColumns game32c 1 0 1 "red"); [lia|lia| | |lia].
  - apply (reach_step _ _ _ game32h (Click 1 0)).
    + apply (reach_step _ _ _ game32 (Hover 1 0)).
      * apply reach_init. vm_compute. reflexivity.
      * left. vm_compute. reflexivity.
    + left. vm_compute. reflexivity.
  - reflexivity.
Defined.

(** The board of three columns with the pointer over the blue one. *)
Lemma hover_is_a_cluster_witness :
  0 <= 3 /\ 0 <= 2 /\ reachable 3 2 threeColumns game32h /\
  (hoverShown game32h = 0 \/
   hoverShown game32h =
     Z.of_nat (length (hoverArray game32h)) *
     Z.of_nat (length (hoverArray game32h))) /\
  (hoverArray game32h = [] \/
   exists p cp cc,
     (2 <= length (hoverArray game32h))%nat /\ NoDup (hoverArray game32h) /\
     cellAt (board game32h) p = Some cp /\ color cp = Some cc /\
     cluster cp = hoverCluster game32h /\
     forall q, q ∈ hoverArray game32h <-> conn (colorsOf (board game32h)) p q).
Proof.
  split; [lia|]. split; [lia|]. split.
  { apply (reach_step _ _ _ game32 (Hover 1 0)).
    - apply reach_init. vm_compute. reflexivity.
    - left. vm_compute. reflexivity. }
  apply (hover_is_a_cluster 3 2 threeColumns game32h); [lia|lia|].
  apply (reach_step _ _ _ game32 (Hover 1 0)).
  - apply reach_init. vm_compute. reflexivity.
  - left. vm_compute. reflexivity.
Defined.

(** The row [red, blue, red]: a hover and a click. *)
Lemma no_move_no_change_witness :
  0 <= 3 /\ 0 <= 1 /\ reachable 3 1 redBlueRed game31 /\
  (forall x y n, clusterSize game31 x y = Some n -> (n < 2)%nat) /\
  runs game31 [Hover 0 0; Click 0 0] game31x /\
  board game31x = board game31 /\ score game31x = score game31 /\
  numCells game31x = numCells game31 /\
  scoreTotal game31x = scoreTotal game31 /\
  alerts game31x = alerts game31.
Proof.
  assert (forall x y n, clusterSize game31 x y = Some n -> (n < 2)%nat) as Hsmall.
  { intros x y n. unfold clusterSize, getCell, at2, zget.
    destruct (x <? 0); [done|].
    destruct (Z.to_nat x) as [|[|[|k]]]; simpl; try done;
      (destruct (y <? 0); [done|]);
      destruct (Z.to_nat y) as [|j]; simpl; try done; intros [= <-]; lia. }
  assert (runs game31 [Hover 0 0; Click 0 0] game31x) as Hruns.
  { apply (runs_cons _ _ (stateOf (handleHover 0 0 game31)));
      [left; vm_compute; reflexivity|].
    apply (runs_cons _ _ game31x); [left; vm_compute; reflexivity|].
    apply runs_nil. }
  split; [lia|]. split; [lia|]. split.
  { apply reach_init. vm_compute. reflexivity. }
  split; [exact Hsmall|]. split; [exact Hruns|].
  apply (no_move_no_change 3 1 redBlueRed game31 [Hover 0 0; Click 0 0] game31x);
    [lia|lia| |exact Hsmall|exact Hruns].
  apply reach_init. vm_compute. reflexivity.
Defined.

(** The board of three columns with the pointer over the blue one. *)
Lemma mouseout_keeps_selection_witness :
  0 <= 3 /\ 0 <= 2 /\ reachable 3 2 threeColumns game32h /\
  exists st1,
    handleOut game32h = Normal st1 /\
    board st1 = board game32h /\ heap st1 = heap game32h /\
    hoverCluster st1 = hoverCluster game32h /\
    score st1 = score game32h /\ numCells st1 = numCells game32h /\
    hoverShown st1 =
      (if decide (hoverArray game32h = []) then hoverShown game32h else 0) /\
    forall ox oy, handleClick ox oy st1 = handleClick ox oy game32h.
Proof.
  split; [lia|]. split; [lia|]. split.
  { apply (reach_step _ _ _ game32 (Hover 1 0)).
    - apply reach_init. vm_compute. reflexivity.
    - left. vm_compute. reflexivity. }
  apply (mouseout_keeps_selection 3 2 threeColumns game32h); [lia|lia|].
  apply (reach_step _ _ _ game32 (Hover 1 0)).
  - apply reach_init. vm_compute. reflexivity.
  - left. vm_compute. reflexivity.
Defined.

(** A click on the blue column of the board of three columns: the column
    [red, green] moves under the pointer. *)
Lemma click_then_preview_witness :
  0 <= 3 /\ 0 <= 2 /\ reachable 3 2 threeColumns game32h /\
  (2 <= length (hoverArray game32h))%nat /\ inb 3 2 (1, 0) /\
  exists st' c r,
    handleClick 1 0 game32h = Normal st' /\
    getCell (board st') 1 0 = Some c /\ cluster c = Some r /\
    let n := length (deref (heap st') r) in
    hoverArray st' = (if decide (2 <= n)%nat then deref (heap st') r else []) /\
    hoverShown st' =
      Z.of_nat (length (hoverArray st')) * Z.of_nat (length (hoverArray st')) /\
    ((2 <= n)%nat -> hoverCluster st' = Some r) /\
    ((2 <= n)%nat ->
       exists st'', handleClick 1 0 st' = Normal st'' /\
         numCells st'' = numCells st' - Z.of_nat n /\
         score st'' = score st' + Z.of_nat n * Z.of_nat n).
Proof.
  split; [lia|]. split; [lia|]. split.
  { apply (reach_step _ _ _ game32 (Hover 1 0)).
    - apply reach_init. vm_compute. reflexivity.
    - left. vm_compute. reflexivity. }
  split; [vm_compute; lia|]. split; [unfold inb; simpl; lia|].
  apply (click_then_preview 3 2 threeColumns game32h 1 0); [lia|lia| | |].
  - apply (reach_step _ _ _ game32 (Hover 1 0)).
    + apply reach_init. vm_compute. reflexivity.
    + left. vm_compute. reflexivity.
  - vm_compute. lia.
  - unfold inb. simpl. lia.
Defined.

(** After that click the pointer is over the three red cells, which the
    next click removes. *)
Example game32c_chain :
  hoverArray game32c = [(0, 0); (0, 1); (1, 0)] /\ hoverShown game32c = 9 /\
  colorsOf (board (stateOf (handleClick 1 0 game32c))) =
    [[None; Some "green"]; [None; None]; [None; None]].
Proof. vm_compute. by repeat split. Qed.

(** ** The while loop ends on every board *)

Lemma visit_more_fuel (w h x y : Z) (fuel : nat) :
  forall fuel' b hp tv,
    (fuel <= fuel')%nat -> visit fuel w h x y b hp tv <> OutOfFuel ->
    visit fuel' w h x y b hp tv = visit fuel w h x y b hp tv.
Proof.
  induction fuel as [|fuel IH]; intros fuel' b hp tv Hle Hne.
  { destruct tv as [|[ox oy] rest]; [by destruct fuel'|done]. }
  destruct tv as [|[ox oy] rest]; [by destruct fuel'|].
  destruct fuel' as [|fuel']; [lia|]. simpl in *.
  destruct (visitOne w h x y b hp ox oy); [| |done]; apply IH; (lia || done).
Qed.

(** X10: the while loop of updateClusters ends on every board, well formed
    or not.  Allowed [4 * u + n + 1] iterations, for [u] cells that are in
    no cluster with members and [n] pairs on the stack, it ends normally
    or with the TypeError, and allowing more iterations changes nothing.
    So every call of updateClusters, of the constructor and of a handler
    returns or throws, in every state. *)
Theorem while_loop_ends :
  (forall w h x y b hp tv fuel,
     (forall c a, getCell b x y = Some c -> cluster c = Some a ->
        (a < length hp)%nat) ->
     (visitBound b hp tv <= fuel)%nat ->
     visit fuel w h x y b hp tv = visit (visitBound b hp tv) w h x y b hp tv /\
     exists s, visit fuel w h x y b hp tv = Normal s \/
               visit fuel w h x y b hp tv = Throw s) /\
  (forall w h y x s, exists s',
     scanCell w h y x s = Normal s' \/ scanCell w h y x s = Throw s') /\
  (forall w h b hp, exists s',
     updateClusters w h b hp = Normal s' \/ updateClusters w h b hp = Throw s') /\
  (forall w h pick, exists st, after (construct w h pick) st) /\
  (forall e st, exists st', after (handle e st) st').
Proof.
  assert (forall (S : Type) (c : completion S), c <> OutOfFuel ->
            exists s, c = Normal s \/ c = Throw s) as Hends.
  { intros S [s|s|] Hc; [by exists s; left|by exists s; right|done]. }
  split; [|split; [|split; [|split]]].
  - intros w h x y b hp tv fuel Hcell Hfuel.
    pose proof (visit_fuel w h x y (visitBound b hp tv) b hp tv Hcell (le_n _)) as Hb.
    rewrite (visit_more_fuel w h x y _ fuel b hp tv Hfuel Hb).
    split; [done|]. by apply Hends.
  - intros w h y x s. apply Hends, scanCell_fuel.
  - intros w h b hp. apply Hends, updateClusters_fuel.
  - intros w h pick. apply Hends. apply never_out_of_fuel.
  - intros e st. apply Hends. apply never_out_of_fuel.
Qed.

(** ** The colours of the tiles that a removal takes *)

Lemma countColor_app (c : string) (l1 l2 : list (option string)) :
  countColor c (l1 ++ l2) = (countColor c l1 + countColor c l2)%nat.
Proof. unfold countColor. by rewrite filter_app, length_app. Qed.

Lemma countColor_cons (c cc : string) (l : list (option string)) :
  countColor c (Some cc :: l) =
  ((if decide (c = cc) then 1 else 0) + countColor c l)%nat.
Proof.
  unfold countColor. rewrite filter_cons.
  destruct (decide (c = cc)) as [->|Hne].
  - by rewrite decide_True.
  - rewrite decide_False; [done|]. intros [= ->]. done.
Qed.

Lemma countColor_repeat_None (c : string) (n : nat) :
  countColor c (repeat None n) = 0%nat.
Proof.
  unfold countColor. induction n as [|n IH]; [done|]. simpl.
  by rewrite filter_cons, decide_False.
Qed.

Lemma countColor_emptyCol (c : string) (cs : list (option string)) :
  emptyCol cs = true -> countColor c cs = 0%nat.
Proof.
  unfold emptyCol, countColor. induction cs as [|o cs IH]; [done|]. simpl.
  intros [Ho Hcs]%andb_true_iff. apply bool_decide_eq_true in Ho. subst o.
  rewrite filter_cons, decide_False by done. auto.
Qed.

Lemma fold_splice_count (c cc : string) (ys : list Z) (cs : list (option string)) :
  descending ys ->
  (forall r, r ∈ ys -> cs !! Z.to_nat r = Some (Some cc) /\ 0 <= r) ->
  (countColor c (fold_left splice1 ys cs) +
   (if decide (c = cc) then length ys else 0) = countColor c cs)%nat.
Proof.
  revert cs. induction ys as [|y ys IH]; intros cs Hd Hr.
  { simpl. destruct (decide (c = cc)); lia. }
  assert (forall r, r ∈ y :: ys -> 0 <= r < Z.of_nat (length cs)) as Hrange.
  { intros r Hin. destruct (Hr r Hin) as (Hc & ?).
    apply lookup_lt_Some in Hc. lia. }
  rewrite fold_splice_cons by done.
  destruct (Hr y (list_elem_of_here _ _)) as (Hc & Hy0).
  apply descending_cons in Hd as [Hlt Hd].
  rewrite <- (take_drop_middle cs (Z.to_nat y) (Some cc) Hc) at 3.
  rewrite !countColor_app, countColor_cons.
  assert (countColor c (fold_left splice1 ys (take (Z.to_nat y) cs)) +
          (if decide (c = cc) then length ys else 0)
          = countColor c (take (Z.to_nat y) cs))%nat as IH'.
  { apply IH; [done|]. intros r Hin.
    destruct (Hr r (list_elem_of_further _ _ _ Hin)) as (Hc' & ?).
    split; [|done]. rewrite lookup_take_lt; [done|].
    specialize (Hlt r Hin). lia. }
  simpl length. destruct (decide (c = cc)); lia.
Qed.

Lemma gravityColors_count (c cc : string) (h : Z) (hc : list (Z * Z)) (x : Z)
    (cs : list (option string)) :
  NoDup hc ->
  (forall y, (x, y) ∈ hc -> zget cs y = Some (Some cc)) ->
  (countColor c (gravityColors h hc x cs) +
   (if decide (c = cc) then length (clusterRows hc x) else 0)
   = countColor c cs)%nat.
Proof.
  intros Hnd Hin. unfold gravityColors.
  rewrite countColor_app, countColor_repeat_None. simpl.
  apply fold_splice_count; [by apply clusterRows_descending|].
  intros r Hr. apply elem_of_clusterRows in Hr.
  specialize (Hin r Hr). by apply zget_Some in Hin as [? ?].
Qed.

Lemma settle_count (c cc : string) (h : Z) (hc : list (Z * Z)) (x0 : nat)
    (g : list (list (option string))) :
  NoDup hc ->
  (forall x y, (x, y) ∈ hc ->
     Z.of_nat x0 <= x < Z.of_nat x0 + Z.of_nat (length g) ->
     at2 g (x - Z.of_nat x0) y = Some (Some cc)) ->
  (countColor c (concat (settle h hc x0 g)) +
   (if decide (c = cc)
    then entriesIn hc (Z.of_nat x0) (Z.of_nat x0 + Z.of_nat (length g)) else 0)
   = countColor c (concat g))%nat.
Proof.
  intros Hnd. revert x0. induction g as [|cs g IH]; intros x0 Hin.
  { simpl. rewrite entriesIn_none by lia. by destruct (decide (c = cc)). }
  cbn [settle concat length]. rewrite countColor_app.
  rewrite (entriesIn_step hc (Z.of_nat x0)) by lia.
  assert (countColor c (gravityColors h hc (Z.of_nat x0) cs) +
          (if decide (c = cc) then length (clusterRows hc (Z.of_nat x0)) else 0)
          = countColor c cs)%nat as Hcol.
  { apply gravityColors_count; [done|]. intros y Hy.
    specialize (Hin _ _ Hy). rewrite Z.sub_diag in Hin. apply Hin. simpl. lia. }
  assert (countColor c (concat (settle h hc (S x0) g)) +
          (if decide (c = cc)
           then entriesIn hc (Z.of_nat (S x0)) (Z.of_nat (S x0) + Z.of_nat (length g))
           else 0)
          = countColor c (concat g))%nat as Hrest.
  { apply IH. intros x y Hxy Hx.
    rewrite <- (Hin _ _ Hxy) by (simpl; lia). unfold at2.
    replace (x - Z.of_nat x0) with (x - Z.of_nat (S x0) + 1) by lia.
    by rewrite zget_cons_succ by lia. }
  replace (Z.of_nat x0 + 1) with (Z.of_nat (S x0)) by lia.
  replace (Z.of_nat x0 + Z.of_nat (S (length g))) with
    (Z.of_nat (S x0) + Z.of_nat (length g)) by lia.
  destruct (emptyCol (gravityColors h hc (Z.of_nat x0) cs)) eqn:He.
  - apply (countColor_emptyCol c) in He. rewrite concat_app, countColor_app.
    simpl. rewrite app_nil_r, countColor_repeat_None.
    destruct (decide (c = cc)); lia.
  - cbn [concat]. rewrite countColor_app. destruct (decide (c = cc)); lia.
Qed.

(** X11: the cells of the hovered cluster are tiles of one colour, and a
    removal takes exactly these: the board has as many tiles of that
    colour less as the cluster has cells, and as many of every other colour
    as before. *)
Theorem removal_takes_one_colour (w h : Z) (pick : Z -> Z -> string)
    (st : State) (ox oy : Z) :
  0 <= w -> 0 <= h -> reachable w h pick st ->
  (2 <= length (hoverArray st))%nat ->
  exists cc st',
    after (handleClick ox oy st) st' /\
    (forall p, p ∈ hoverArray st ->
       colorAt (colorsOf (board st)) p = Some (Some cc)) /\
    forall c,
      (countColor c (concat (colorsOf (board st'))) +
       (if decide (c = cc) then length (hoverArray st) else 0)
       = countColor c (concat (colorsOf (board st))))%nat.
Proof.
  intros Hw Hh Hreach Hn.
  destruct (reachable_valid w h pick st Hw Hh Hreach) as (Hv & Hw0 & Hh0).
  destruct (handleClick_after ox oy st Hv Hn)
    as (st' & Hafter & _ & Hc & _).
  destruct (hover_members st Hv) as [Hnd Hmem].
  { intros H. rewrite H in Hn. simpl in Hn. lia. }
  assert (exists cc, forall p, p ∈ hoverArray st ->
            colorAt (colorsOf (board st)) p = Some (Some cc)) as (cc & Hcc).
  { destruct (v_hover st Hv) as (r & Hr & Hlt & Hcase).
    unfold hoverArray in *. rewrite Hr in *.
    destruct Hcase as [Hnil|(x & y & cp & Hcell & Hcl)].
    { rewrite Hnil in Hn. simpl in Hn. lia. }
    destruct (v_clustered st Hv x y cp Hcell) as (r' & Hr' & _ & Hok).
    assert (r' = r) as -> by congruence.
    destruct (color cp) as [cc|] eqn:Hcol.
    - destruct Hok as (_ & Hconn & _). exists cc. intros p Hp.
      eapply conn_color; [by apply Hconn|].
      rewrite colorAt_colorsOf, Hcell. simpl. by rewrite Hcol.
    - rewrite Hok in Hn. simpl in Hn. lia. }
  exists cc, st'. split; [done|]. split; [done|]. intros c. rewrite Hc.
  pose proof (settle_count c cc (height st) (hoverArray st) 0
    (colorsOf (board st)) Hnd) as Hcount.
  assert (length (colorsOf (board st)) = Z.to_nat (width st)) as Hlg.
  { unfold colorsOf. rewrite length_map. by destruct (v_shaped st Hv). }
  rewrite Hlg in Hcount. simpl in Hcount.
  rewrite Z2Nat.id in Hcount by apply (v_width st Hv).
  rewrite entriesIn_all in Hcount.
  - apply Hcount. intros x y Hxy _. rewrite Z.sub_0_r. by apply (Hcc (x, y)).
  - intros p Hp. by destruct (Hmem p Hp) as [[? _] _].
Qed.

(** The removal of the blue column of the board of three columns. *)
Lemma removal_takes_one_colour_witness :
  0 <= 3 /\ 0 <= 2 /\ reachable 3 2 threeColumns game32h /\
  (2 <= length (hoverArray game32h))%nat /\
  exists cc st',
    after (handleClick 1 0 game32h) st' /\
    (forall p, p ∈ hoverArray game32h ->
       colorAt (colorsOf (board game32h)) p = Some (Some cc)) /\
    forall c,
      (countColor c (concat (colorsOf (board st'))) +
       (if decide (c = cc) then length (hoverArray game32h) else 0)
       = countColor c (concat (colorsOf (board game32h))))%nat.
Proof.
  split; [lia|]. split; [lia|]. split.
  { apply (reach_step _ _ _ game32 (Hover 1 0)).
    - apply reach_init. vm_compute. reflexivity.
    - left. vm_compute. reflexivity. }
  split; [vm_compute; lia|].
  apply (removal_takes_one_colour 3 2 threeColumns game32h 1 0); [lia|lia| |].
  - apply (reach_step _ _ _ game32 (Hover 1 0)).
    + apply reach_init. vm_compute. reflexivity.
    + left. vm_compute. reflexivity.
  - vm_compute. lia.
Defined.

Example game32_colours :
  map (fun c => (countColor c (concat (colorsOf (board game32h))),
                 countColor c (concat (colorsOf (board game32c)))))
      ["red"; "blue"; "green"]
  = [(3, 3); (2, 0); (1, 1)]%nat.
Proof. reflexivity. Qed.

(** ** The ids of the cells of the table *)

Lemma pretty_N_go_noDash (x : N) (s : string) :
  noDash s -> noDash (pretty_N_go x s).
Proof.
  revert s. induction (N.lt_wf_0 x) as [x _ IH]; intros s Hs.
  assert (x = 0 \/ 0 < x)%N as [->|Hx] by lia.
  - by rewrite pretty_N_go_0.
  - rewrite pretty_N_go_step by done. apply IH; [by apply N.div_lt|].
    split; [|done]. unfold pretty_N_char. by repeat case_match.
Qed.

Lemma pretty_noDash (x : Z) : 0 <= x -> noDash (pretty x).
Proof.
  intros Hx. destruct x as [|p|p]; [by repeat split| |lia].
  unfold pretty, pretty_Z, pretty, pretty_positive, pretty, pretty_N.
  case_decide; [by repeat split|]. by apply pretty_N_go_noDash.
Qed.

Lemma append_dash_inj (a a' b b' : string) :
  noDash a -> noDash a' ->
  a +:+ String "-" b = a' +:+ String "-" b' -> a = a' /\ b = b'.
Proof.
  revert a'. induction a as [|c a IH]; intros [|c' a']; simpl.
  - by intros _ _ [= <-].
  - by intros _ [Hc _] [= <- _].
  - by intros [Hc _] _ [= -> _].
  - intros [_ Ha] [_ Ha'] [= <- Heq].
    by destruct (IH a' Ha Ha' Heq) as [-> ->].
Qed.

Lemma cellId_inj (x y x' y' : Z) :
  0 <= x -> 0 <= x' -> cellId x y = cellId x' y' -> x = x' /\ y = y'.
Proof.
  intros Hx Hx'. unfold cellId. simpl. intros [= Heq].
  apply append_dash_inj in Heq as [Hpx Hpy]; [|by apply pretty_noDash..].
  split; by apply (inj pretty).
Qed.

(** ** Writing to a cell of the table *)

Lemma updateRow_at (id : string) (f : Td -> Td) (row : list Td) (i : nat)
    (td : Td) :
  row !! i = Some td -> td_id td = id ->
  (forall j td', (j < i)%nat -> row !! j = Some td' -> td_id td' <> id) ->
  updateRow id f row = Some (alter f i row).
Proof.
  revert i. induction row as [|t row IH]; intros i Hi Hid Hbefore; [done|].
  destruct i as [|i]; simpl in *.
  - injection Hi as ->. by rewrite decide_True.
  - rewrite decide_False by (apply (Hbefore 0%nat); [lia|done]).
    rewrite (IH i Hi Hid); [done|].
    intros j td' Hj Htd'. apply (Hbefore (S j)); [lia|done].
Qed.

Lemma updateRow_none (id : string) (f : Td -> Td) (row : list Td) :
  (forall td, td ∈ row -> td_id td <> id) -> updateRow id f row = None.
Proof.
  induction row as [|t row IH]; intros Hrow; [done|]. simpl.
  rewrite decide_False by (apply Hrow; left).
  rewrite IH; [done|]. intros td Htd. apply Hrow. by right.
Qed.

Lemma updateCell_at (id : string) (f : Td -> Td) (rows : list (list Td))
    (j : nat) (row : list Td) (i : nat) (td : Td) :
  rows !! j = Some row -> row !! i = Some td -> td_id td = id ->
  (forall j' row' td', (j' < j)%nat -> rows !! j' = Some row' -> td' ∈ row' ->
     td_id td' <> id) ->
  (forall i' td', (i' < i)%nat -> row !! i' = Some td' -> td_id td' <> id) ->
  updateCell id f rows = Some (alter (alter f i) j rows).
Proof.
  revert j. induction rows as [|r rows IH]; intros j Hj Hi Hid Hrows Hrow; [done|].
  destruct j as [|j]; simpl in *.
  - injection Hj as ->. by rewrite (updateRow_at id f row i td).
  - rewrite updateRow_none by (intros td' Htd'; by apply (Hrows 0%nat r); [lia| |]).
    rewrite (IH j Hj Hi Hid); [done| |done].
    intros j' row' td' Hj' Hrow' Htd'. apply (Hrows (S j') row'); [lia|done|done].
Qed.

Lemma at2_alter {A : Type} (f : A -> A) (m : list (list A)) (i j : nat)
    (a b : Z) :
  at2 (alter (alter f j) i m) a b =
  if decide (0 <= a /\ 0 <= b /\ Z.to_nat a = i /\ Z.to_nat b = j)
  then f <$> at2 m a b else at2 m a b.
Proof.
  unfold at2, zget. destruct (Z.ltb_spec a 0) as [Ha|Ha].
  { rewrite decide_False by lia. done. }
  destruct (decide (Z.to_nat a = i)) as [<-|Hne].
  - rewrite list_lookup_alter_eq.
    destruct (m !! Z.to_nat a) as [col|]; simpl; [|by destruct (decide _)].
    destruct (Z.ltb_spec b 0) as [Hb|Hb].
    { rewrite decide_False by lia. done. }
    destruct (decide (Z.to_nat b = j)) as [<-|Hnb].
    + rewrite decide_True by done. apply list_lookup_alter_eq.
    + rewrite decide_False by (intros (_ & _ & _ & ?); done).
      by apply list_lookup_alter_ne.
  - rewrite decide_False by (intros (_ & _ & ? & _); done).
    by rewrite list_lookup_alter_ne.
Qed.

Lemma shaped_alter {A : Type} (f : A -> A) (w h : Z) (m : list (list A))
    (i j : nat) :
  shaped w h m -> shaped w h (alter (alter f j) i m).
Proof.
  intros [Hl Hc]. split; [by rewrite length_alter|].
  apply Forall_forall. intros col Hcol.
  apply list_elem_of_lookup in Hcol as [k Hk].
  rewrite Forall_forall in Hc.
  destruct (decide (k = i)) as [->|Hne].
  - rewrite list_lookup_alter_eq in Hk.
    destruct (m !! i) as [col0|] eqn:Hm; [|done]. simpl in Hk.
    injection Hk as <-. rewrite length_alter. apply Hc.
    by eapply list_elem_of_lookup_2.
  - rewrite list_lookup_alter_ne in Hk by done. apply Hc.
    by eapply list_elem_of_lookup_2.
Qed.

(** On the table the cell that querySelector finds for [c-x-y] is the one
    of column [x] in row [y]. *)
Lemma updateCell_table (w h : Z) (rows : list (list Td)) (x y : Z)
    (f : Td -> Td) :
  tablePage w h rows -> inb w h (x, y) ->
  updateCell (cellId x y) f rows =
    Some (alter (alter f (Z.to_nat x)) (Z.to_nat y) rows).
Proof.
  intros [Hs Hids] [Hx Hy]. simpl in *.
  destruct (at2_is_Some h w rows y x Hs) as [td Htd]; [by split|].
  pose proof Htd as (row & _ & _ & Hrow & Hcell)%at2_Some.
  apply (updateCell_at _ _ _ _ row _ td); [done|done|by apply Hids| |].
  - intros j' row' td' Hj' Hrow' Htd'.
    apply list_elem_of_lookup in Htd' as [i' Hi'].
    assert (at2 rows (Z.of_nat j') (Z.of_nat i') = Some td') as Hat.
    { apply at2_Some. exists row'. rewrite !Nat2Z.id. repeat split; try done; lia. }
    destruct (Hids _ _ _ Hat) as (-> & _). intros Heq.
    apply cellId_inj in Heq as [_ Heq]; lia.
  - intros i' td' Hi' Htd'.
    assert (at2 rows y (Z.of_nat i') = Some td') as Hat.
    { apply at2_Some. exists row. rewrite !Nat2Z.id. repeat split; try done; lia. }
    destruct (Hids _ _ _ Hat) as (-> & _). intros Heq.
    apply cellId_inj in Heq as [Heq _]; lia.
Qed.

Lemma tablePage_alter (w h : Z) (rows : list (list Td)) (i j : nat)
    (f : Td -> Td) :
  (forall td, td_id (f td) = td_id td /\ mouseover (f td) = mouseover td /\
              mouseout (f td) = mouseout td /\ click (f td) = click td) ->
  tablePage w h rows -> tablePage w h (alter (alter f i) j rows).
Proof.
  intros Hf [Hs Hids]. split; [by apply shaped_alter|].
  intros x y td. rewrite at2_alter. case_decide.
  - destruct (at2 rows y x) as [td0|] eqn:Htd0; [|done]. simpl.
    intros [= <-]. destruct (Hf td0) as (-> & -> & -> & ->). by apply Hids.
  - apply Hids.
Qed.

Lemma shownAt_alter (rows : list (list Td)) (x y : Z) (f : Td -> Td) (p : Z * Z) :
  0 <= x -> 0 <= y ->
  shownAt (alter (alter f (Z.to_nat x)) (Z.to_nat y) rows) p =
  if decide (p = (x, y))
  then (fun td => backgroundColor (f td)) <$> at2 rows y x
  else shownAt rows p.
Proof.
  intros Hx Hy. unfold shownAt. rewrite at2_alter. destruct p as [px py]. simpl.
  case_decide as Hd.
  - destruct Hd as (? & ? & ? & ?).
    assert (px = x /\ py = y) as [-> ->] by lia.
    rewrite decide_True by done. by destruct (at2 rows y x).
  - rewrite decide_False; [done|]. intros [= -> ->]. apply Hd. done.
Qed.

Lemma markedAt_alter (rows : list (list Td)) (x y : Z) (f : Td -> Td) (p : Z * Z) :
  0 <= x -> 0 <= y ->
  markedAt (alter (alter f (Z.to_nat x)) (Z.to_nat y) rows) p =
  if decide (p = (x, y))
  then (fun td => hovering (f td)) <$> at2 rows y x
  else markedAt rows p.
Proof.
  intros Hx Hy. unfold markedAt. rewrite at2_alter. destruct p as [px py]. simpl.
  case_decide as Hd.
  - destruct Hd as (? & ? & ? & ?).
    assert (px = x /\ py = y) as [-> ->] by lia.
    rewrite decide_True by done. by destruct (at2 rows y x).
  - rewrite decide_False; [done|]. intros [= -> ->]. apply Hd. done.
Qed.

(** ** draw and the classes of the cells *)

Lemma draw_dom_positions (css : string -> bool)
    (w h : Z) (b : list (list Cell)) (rows : list (list Td)) :
  draw_dom css w h b rows =
  forEach (fun p => drawCell css b (snd p) (fst p)) (positions w h) rows.
Proof. unfold draw_dom, positions. apply forEach_nested. Qed.

Lemma setColor_twice (css : string -> bool) (c old : option string) :
  setColor css c (setColor css c old) = setColor css c old.
Proof.
  unfold setColor. destruct c as [s|]; [|done].
  destruct (css s); [done|]. by destruct (decide (s = "")).
Qed.

Lemma setColor_css (css : string -> bool) (c old : option string) :
  (forall s, c = Some s -> css s = true) -> setColor css c old = c.
Proof.
  intros H. unfold setColor. destruct c as [s|]; [|done]. by rewrite H.
Qed.

(** draw writes the colour of every cell of the board to the style of its
    cell of the table. *)
Lemma draw_dom_spec (css : string -> bool) (w h : Z) (b : list (list Cell))
    (rows : list (list Td)) :
  tablePage w h rows -> shaped w h b ->
  exists rows',
    draw_dom css w h b rows = Normal rows' /\ tablePage w h rows' /\
    (forall p c, inb w h p -> colorAt (colorsOf b) p = Some c ->
       shownAt rows' p = setColor css c <$> shownAt rows p) /\
    forall p, markedAt rows' p = markedAt rows p.
Proof.
  intros Ht Hs. rewrite draw_dom_positions.
  destruct (forEach_invariant (fun p => drawCell css b (snd p) (fst p))
    (fun done rows' =>
       tablePage w h rows' /\ (forall p, markedAt rows' p = markedAt rows p) /\
       forall p c, colorAt (colorsOf b) p = Some c ->
         shownAt rows' p =
           if decide (p ∈ done) then setColor css c <$> shownAt rows p
           else shownAt rows p)
    (positions w h) [] rows) as (rows' & Hrun & Ht' & Hm' & Hp').
  - split; [done|]. split; [done|]. intros p c _.
    rewrite decide_False; [done|]. intros Hp. by apply elem_of_nil in Hp.
  - intros d [x y] rows0 (Ht0 & Hm0 & Hp0) Hin. apply elem_of_positions in Hin.
    destruct (at2_is_Some w h b x y Hs Hin) as [c Hc].
    unfold drawCell. simpl. unfold getCell. rewrite Hc.
    rewrite (updateCell_table w h rows0 x y _ Ht0 Hin).
    eexists. split; [done|]. destruct Hin as [Hx Hy]; simpl in *.
    split; [by apply tablePage_alter|]. split.
    + intros p. rewrite markedAt_alter by lia. case_decide as Hd; [|apply Hm0].
      subst p. rewrite <- Hm0. unfold markedAt. simpl. by destruct (at2 rows0 y x).
    + intros p cp Hcp. rewrite shownAt_alter by lia. case_decide as Hd.
      * subst p. rewrite decide_True by (apply elem_of_app; right; by left).
        rewrite colorAt_colorsOf in Hcp. unfold getCell in Hcp.
        rewrite Hc in Hcp. injection Hcp as <-.
        specialize (Hp0 (x, y) (color c)).
        rewrite colorAt_colorsOf in Hp0. unfold getCell in Hp0.
        rewrite Hc in Hp0. specialize (Hp0 eq_refl).
        unfold shownAt in Hp0 |- *. simpl in Hp0 |- *.
        destruct (at2 rows0 y x) as [td|]; simpl in *.
        -- case_decide; destruct (at2 rows y x) as [td0|]; simpl in *;
             try done; injection Hp0 as ->; [|done].
           by rewrite setColor_twice.
        -- case_decide; by destruct (at2 rows y x).
      * rewrite (Hp0 p cp Hcp).
        destruct (decide (p ∈ d)) as [Hpd|Hpd].
        -- rewrite decide_True by (apply elem_of_app; by left). done.
        -- rewrite decide_False; [done|]. intros Hp.
           apply elem_of_app in Hp as [Hp|Hp]; [done|].
           by apply list_elem_of_singleton in Hp.
  - exists rows'. split; [done|]. split; [done|]. split; [|done].
    intros p c Hp Hc. rewrite (Hp' p c Hc). simpl.
    rewrite decide_True; [done|]. by apply elem_of_positions.
Qed.

(** With CSS colours on the board, the table shows the colours that were
    assigned to its cells. *)
Lemma painted_setColor (css : string -> bool) (w h : Z)
    (g : list (list (option string))) (rows rows' : list (list Td)) :
  tablePage w h rows -> shaped w h g -> cssColors css g ->
  (forall p c, inb w h p -> colorAt g p = Some c ->
     shownAt rows' p = setColor css c <$> shownAt rows p) ->
  paintedAs w h g rows'.
Proof.
  intros [Hs0 _] Hs Hcss Hshown p Hp. destruct p as [x y].
  destruct (at2_is_Some w h g x y Hs Hp) as [c Hc].
  change (colorAt g (x, y) = Some c) in Hc.
  rewrite (Hshown (x, y) c Hp Hc), Hc.
  destruct Hp as [Hx Hy]; simpl in *.
  destruct (at2_is_Some h w rows y x Hs0) as [td Htd]; [by split|].
  unfold shownAt. simpl. rewrite Htd. simpl. f_equal.
  apply setColor_css. intros s Hs'. apply (Hcss (x, y)). by rewrite Hc, Hs'.
Qed.

Lemma mark_spec (w h : Z) (v : bool) (hc : list (Z * Z)) (rows : list (list Td)) :
  tablePage w h rows -> (forall p, p ∈ hc -> inb w h p) ->
  exists rows',
    forEach (markCell v) hc rows = Normal rows' /\ tablePage w h rows' /\
    (forall p, shownAt rows' p = shownAt rows p) /\
    forall p, inb w h p ->
      markedAt rows' p = if decide (p ∈ hc) then Some v else markedAt rows p.
Proof.
  intros Ht Hin.
  destruct (forEach_invariant (markCell v)
    (fun done rows' =>
       tablePage w h rows' /\ (forall p, shownAt rows' p = shownAt rows p) /\
       forall p, inb w h p ->
         markedAt rows' p = if decide (p ∈ done) then Some v else markedAt rows p)
    hc [] rows) as (rows' & Hrun & Ht' & Hs' & Hm').
  - split; [done|]. split; [done|]. intros p Hp.
    rewrite decide_False; [done|]. apply not_elem_of_nil.
  - intros d [x y] rows0 (Ht0 & Hs0 & Hm0) Hp0. apply Hin in Hp0.
    unfold markCell. simpl.
    rewrite (updateCell_table w h rows0 x y _ Ht0 Hp0).
    eexists. split; [done|]. destruct Hp0 as [Hx Hy]; simpl in *.
    split; [by apply tablePage_alter|]. split.
    + intros p. rewrite shownAt_alter by lia. case_decide as Hd; [|apply Hs0].
      subst p. rewrite <- Hs0. unfold shownAt. simpl. by destruct (at2 rows0 y x).
    + intros p Hp. rewrite markedAt_alter by lia. case_decide as Hd.
      * subst p. destruct Ht0 as [Hsh0 _].
        destruct (at2_is_Some h w rows0 y x Hsh0) as [td Htd]; [by split|].
        rewrite Htd. simpl. rewrite decide_True; [done|].
        apply elem_of_app. right. by apply list_elem_of_singleton.
      * rewrite (Hm0 p Hp). destruct (decide (p ∈ d)) as [Hd1|Hd1].
        -- rewrite decide_True; [done|]. apply elem_of_app. by left.
        -- rewrite decide_False; [done|]. intros [H1|H1]%elem_of_app; [done|].
           by apply list_elem_of_singleton in H1.
  - exists rows'. done.
Qed.

Lemma forEach_outCell (hc : list (Z * Z)) (st : State)
    (rows rows' : list (list Td)) :
  forEach (markCell false) hc rows = Normal rows' ->
  forEach outCell hc (mkWorld st rows) =
    Normal (mkWorld (match hc with
                     | [] => st
                     | _ :: _ => updateHoverScore 0 st
                     end) rows').
Proof.
  revert st rows. induction hc as [|p hc IH]; intros st rows; simpl.
  - by intros [= <-].
  - unfold outCell at 1. simpl.
    destruct (markCell false p rows) as [rows1| |]; [|done|done].
    intros Hrest. rewrite (IH _ _ Hrest). by destruct hc.
Qed.

(** ** The methods with the page and the methods without *)

Lemma forEach_outCell_game (hc : list (Z * Z)) (wd wd' : World) :
  forEach outCell hc wd = Normal wd' ->
  game wd' = match hc with
             | [] => game wd
             | _ :: _ => updateHoverScore 0 (game wd)
             end.
Proof.
  revert wd. induction hc as [|p hc IH]; intros wd; simpl.
  - by intros [= <-].
  - unfold outCell at 1.
    destruct (markCell false p (page wd)) as [rows1| |]; [|done|done].
    intros Hrest. rewrite (IH _ Hrest). by destruct hc.
Qed.

Lemma handleOut_dom_game (wd wd' : World) :
  handleOut_dom wd = Normal wd' -> handleOut (game wd) = Normal (game wd').
Proof.
  unfold handleOut_dom, handleOut.
  destruct (hoverCluster (game wd)) as [r|]; [|done].
  intros Hrun. rewrite (forEach_outCell_game _ _ _ Hrun).
  by destruct (deref (heap (game wd)) r).
Qed.

Lemma handleHover_dom_game (ox oy : Z) (wd wd' : World) :
  handleHover_dom ox oy wd = Normal wd' ->
  handleHover ox oy (game wd) = Normal (game wd').
Proof.
  unfold handleHover_dom, handleHover.
  destruct (getCell (board (game wd)) ox oy) as [c|]; [|done].
  destruct (cluster c) as [r|]; [|done].
  destruct (1 <? Z.of_nat (length (deref (heap (game wd)) r))).
  - destruct (forEach _ _ _); [|done|done]. by intros [= <-].
  - by intros [= <-].
Qed.

Lemma drawRow_reads (css : string -> bool)
    (b : list (list Cell)) (y : Z) (xs : list Z)
    (rows rows' : list (list Td)) :
  forEach (drawCell css b y) xs rows = Normal rows' ->
  forallb (fun x => bool_decide (is_Some (getCell b x y))) xs = true.
Proof.
  revert rows. induction xs as [|x xs IH]; intros rows; simpl; [done|].
  unfold drawCell at 1. destruct (getCell b x y) as [c|]; [|done].
  destruct (updateCell _ _ _) as [rows1|]; [|done].
  intros Hrest. by rewrite (IH _ Hrest).
Qed.

Lemma draw_dom_reads (css : string -> bool) (w h : Z) (b : list (list Cell))
    (rows rows' : list (list Td)) :
  draw_dom css w h b rows = Normal rows' -> draw w h b = true.
Proof.
  unfold draw_dom, draw. generalize (zrange h) as ys. intros ys. revert rows.
  induction ys as [|y ys IH]; intros rows; simpl; [done|].
  destruct (forEach (drawCell css b y) (zrange w) rows) as [rows1| |] eqn:Hrow;
    [|done|done].
  intros Hrest. by rewrite (drawRow_reads _ _ _ _ _ _ Hrow), (IH _ Hrest).
Qed.

Lemma updateGame_dom_game (css : string -> bool) (wd wd' : World) :
  updateGame_dom css wd = Normal wd' -> updateGame (game wd) = Normal (game wd').
Proof.
  unfold updateGame_dom, updateGame.
  destruct (handleOut_dom wd) as [wd1| |] eqn:Hout; [|done|done].
  rewrite (handleOut_dom_game _ _ Hout). cbn [andThen id].
  destruct (hoverCluster (game wd1)) as [r|]; [|done].
  destruct (draw_dom css _ _ _ (page wd1)) as [rows2| |]; [|done|done].
  destruct (updateClusters _ _ _ _) as [s| |]; [|done|done]. cbn [andThen].
  destruct (draw_dom css _ _ _ rows2) as [rows3| |] eqn:Hdraw; [|done|done].
  rewrite (draw_dom_reads _ _ _ _ _ _ Hdraw).
  destruct (checkWin _ _ _ _) as [[|]|]; [| |done]; by intros [= <-].
Qed.

Lemma handleClick_dom_game (css : string -> bool) (ox oy : Z) (wd wd' : World) :
  handleClick_dom css ox oy wd = Normal wd' ->
  handleClick ox oy (game wd) = Normal (game wd').
Proof.
  unfold handleClick_dom, handleClick.
  destruct (hoverCluster (game wd)) as [r|]; [|done].
  destruct (Z.of_nat (length (deref (heap (game wd)) r)) <? 2);
    [by intros [= <-]|].
  destruct (forEach _ _ (game wd)) as [st1| |]; [|done|done].
  cbn [andThen id].
  destruct (updateGame_dom css _) as [wd2| |] eqn:Hug; [|done|done].
  apply updateGame_dom_game in Hug. simpl in Hug. rewrite Hug.
  cbn [andThen id]. apply handleHover_dom_game.
Qed.

Lemma handle_dom_game (css : string -> bool) (e : event) (wd wd' : World) :
  handle_dom css e wd = Normal wd' -> handle e (game wd) = Normal (game wd').
Proof.
  destruct e as [x y| |x y]; simpl.
  - apply handleHover_dom_game.
  - apply handleOut_dom_game.
  - apply handleClick_dom_game.
Qed.

Lemma construct_dom_game (css : string -> bool)
    (w h : Z) (pick : Z -> Z -> string)
    (rows : list (list Td)) (wd : World) :
  construct_dom css w h pick rows = Normal wd ->
  construct w h pick = Normal (game wd).
Proof.
  unfold construct_dom, construct.
  destruct (randomBoard w h pick [[]]) as [[b hp]|]; [|done].
  destruct (updateGame_dom css _) as [wd1| |] eqn:Hug; [|done|done].
  apply updateGame_dom_game in Hug. simpl in Hug. rewrite Hug.
  cbn [andThen id]. by intros [= <-].
Qed.

(** ** Boards whose colours are CSS colours *)

Lemma lookup_zrange (n : Z) (i : nat) (v : Z) :
  zrange n !! i = Some v -> v = Z.of_nat i /\ v < n.
Proof.
  unfold zrange. change (map ?f ?l) with (f <$> l).
  rewrite list_lookup_fmap. intros Hl.
  destruct (seq 0 (Z.to_nat n) !! i) as [k|] eqn:Hk; [|done].
  apply lookup_seq in Hk as [-> Hk]. simpl in Hl. injection Hl as <-. lia.
Qed.

Lemma cssColors_Forall (css : string -> bool)
    (g : list (list (option string))) :
  cssColors css g <->
  Forall (Forall (fun o => forall s, o = Some s -> css s = true)) g.
Proof.
  split.
  - intros H. apply Forall_forall. intros col Hcol. apply Forall_forall.
    intros o Ho s ->.
    apply list_elem_of_lookup_1 in Hcol as [i Hi].
    apply list_elem_of_lookup_1 in Ho as [j Hj].
    apply (H (Z.of_nat i, Z.of_nat j)). unfold colorAt. simpl.
    apply at2_Some. exists col. rewrite !Nat2Z.id. repeat split; try done; lia.
  - intros H [x y] c Hc. unfold colorAt in Hc. simpl in Hc.
    apply at2_Some in Hc as (col & _ & _ & Hcol & Ho).
    rewrite Forall_forall in H.
    specialize (H col (list_elem_of_lookup_2 _ _ _ Hcol)).
    rewrite Forall_forall in H.
    by apply (H _ (list_elem_of_lookup_2 _ _ _ Ho)).
Qed.

(** A removal brings no new colour to the board. *)
Lemma cssColors_settle (css : string -> bool) (h : Z) (hc : list (Z * Z))
    (g : list (list (option string))) :
  cssColors css g -> cssColors css (settle h hc 0 g).
Proof.
  rewrite !cssColors_Forall. intros H. apply settle_Forall.
  - apply Forall_forall. intros o Ho s ->.
    apply list_elem_of_In, repeat_spec in Ho. done.
  - eapply Forall_impl; [exact H|]. intros cs Hcs x. unfold gravityColors.
    apply Forall_app. split.
    + apply Forall_forall. intros o Ho s ->.
      apply list_elem_of_In, repeat_spec in Ho. done.
    + eapply Forall_sublist; [apply fold_splice_sublist|done].
Qed.

Lemma cssColors_new (css : string -> bool) (w h : Z) (pick : Z -> Z -> string) :
  cssPick css w h pick ->
  cssColors css (map (fun x => map (fun y => Some (pick x y)) (zrange h)) (zrange w)).
Proof.
  intros Hpick [x y] c Hcol. unfold colorAt in Hcol. simpl in Hcol.
  apply at2_Some in Hcol as (col & Hx & Hy & Hcol & Ho).
  change (map ?f ?l) with (f <$> l) in Hcol.
  rewrite list_lookup_fmap in Hcol.
  destruct (zrange w !! Z.to_nat x) as [x'|] eqn:Hx'; [|done].
  apply lookup_zrange in Hx' as [-> Hxw]. simpl in Hcol. injection Hcol as <-.
  change (map ?f ?l) with (f <$> l) in Ho.
  rewrite list_lookup_fmap in Ho.
  destruct (zrange h !! Z.to_nat y) as [y'|] eqn:Hy'; [|done].
  apply lookup_zrange in Hy' as [-> Hyh]. simpl in Ho. injection Ho as <-.
  apply Hpick. unfold inb. simpl. lia.
Qed.

(** The colours of a game are colours that were drawn for its cells. *)
Lemma reachable_cssColors (css : string -> bool) (w h : Z)
    (pick : Z -> Z -> string) (st : State) :
  0 <= w -> 0 <= h -> cssPick css w h pick -> reachable w h pick st ->
  cssColors css (colorsOf (board st)).
Proof.
  intros Hw Hh Hpick Hreach. induction Hreach as [st Hinit|st e st' Hreach IH Hstep].
  - destruct (construct_steady w h pick st Hw Hh Hinit) as (_ & Hc & _).
    rewrite Hc. by apply cssColors_new.
  - destruct (reachable_valid w h pick st Hw Hh Hreach) as (Hv & _ & _).
    assert (forall ox oy s s', after (handleHover ox oy s) s' ->
              board s' = board s) as Hhover.
    { intros ox oy s s'. unfold handleHover.
      destruct (getCell (board s) ox oy) as [c|]; [|by intros [[= <-]|[= <-]]].
      destruct (cluster c) as [r|]; [|by intros [[= <-]|[= <-]]].
      destruct (1 <? _); by intros [[= <-]|[= <-]]. }
    destruct e as [x y| |x y]; simpl in Hstep.
    + by rewrite (Hhover x y st st' Hstep).
    + unfold handleOut in Hstep.
      destruct (hoverCluster st) as [r|];
        [|by destruct Hstep as [[= <-]|[= <-]]].
      destruct (deref (heap st) r); by destruct Hstep as [[= <-]|[= <-]].
    + destruct (decide (2 <= length (hoverArray st))%nat) as [Hn|Hn].
      * destruct (handleClick_stages st Hv Hn) as (st2 & _ & Hall & Hc & _).
        rewrite Hall in Hstep. rewrite (Hhover x y st2 st' Hstep), Hc.
        by apply cssColors_settle.
      * destruct (v_hover st Hv) as (r & Hr & _).
        unfold hoverArray in Hn. rewrite Hr in Hn.
        rewrite (handleClick_small x y st r Hr) in Hstep by lia.
        by destruct Hstep as [[= <-]|[= <-]].
Qed.

(** ** What the methods write to the table *)

Lemma handleOut_dom_spec (w h : Z) (st : State) (r : nat)
    (rows : list (list Td)) :
  hoverCluster st = Some r ->
  (forall p, p ∈ deref (heap st) r -> inb w h p) ->
  tablePage w h rows ->
  exists rows',
    handleOut_dom (mkWorld st rows) =
      Normal (mkWorld (match deref (heap st) r with
                       | [] => st
                       | _ :: _ => updateHoverScore 0 st
                       end) rows') /\
    tablePage w h rows' /\ (forall p, shownAt rows' p = shownAt rows p) /\
    forall p, inb w h p ->
      markedAt rows' p =
        if decide (p ∈ deref (heap st) r) then Some false else markedAt rows p.
Proof.
  intros Hr Hin Ht.
  destruct (mark_spec w h false _ rows Ht Hin) as (rows' & Hrun & Ht' & Hs' & Hm').
  exists rows'. split; [|done]. unfold handleOut_dom. simpl. rewrite Hr.
  by apply forEach_outCell.
Qed.

Lemma updateGame_dom_spec (css : string -> bool) (st : State) (r : nat)
    (rows : list (list Td)) :
  shaped (width st) (height st) (board st) ->
  hoverCluster st = Some r ->
  (forall p, p ∈ deref (heap st) r -> inb (width st) (height st) p) ->
  tablePage (width st) (height st) rows ->
  exists st' rows',
    updateGame_dom css (mkWorld st rows) = Normal (mkWorld st' rows') /\
    tablePage (width st) (height st) rows' /\
    colorsOf (board st') = colorsOf (board st) /\
    (forall p c, inb (width st) (height st) p ->
       colorAt (colorsOf (board st)) p = Some c ->
       shownAt rows' p = setColor css c <$> shownAt rows p) /\
    forall p, inb (width st) (height st) p ->
      markedAt rows' p =
        if decide (p ∈ deref (heap st) r) then Some false else markedAt rows p.
Proof.
  intros Hs Hr Hin Ht.
  destruct (handleOut_dom_spec _ _ st r rows Hr Hin Ht)
    as (rows1 & Hout & Ht1 & Hs1 & Hm1).
  unfold updateGame_dom. rewrite Hout. cbn [andThen id game page].
  set (st1 := match deref (heap st) r with
              | [] => st
              | _ :: _ => updateHoverScore 0 st
              end).
  assert (width st1 = width st /\ height st1 = height st /\
          board st1 = board st /\ heap st1 = heap st /\
          hoverCluster st1 = Some r) as (Hw1 & Hh1 & Hb1 & Hp1 & Hr1).
  { unfold st1. destruct (deref (heap st) r); by repeat split. }
  rewrite Hr1. cbn [width height board heap withHover updateScore].
  rewrite ?Hw1, ?Hh1, ?Hb1, ?Hp1.
  destruct (draw_dom_spec css (width st) (height st) (board st) rows1 Ht1 Hs)
    as (rows2 & -> & Ht2 & Hp2 & Hm2).
  destruct (updateClusters_spec (width st) (height st) (board st)
    (alloc (heap st)) Hs) as (b' & hp' & -> & Hcol & Hcl & _).
  cbn [fst snd withBoard withHover updateScore width height board heap].
  rewrite ?Hw1, ?Hh1.
  assert (shaped (width st) (height st) b') as Hs' by by eapply shaped_same_colors.
  destruct (draw_dom_spec css (width st) (height st) b' rows2 Ht2 Hs')
    as (rows3 & -> & Ht3 & Hp3 & Hm3).
  rewrite (checkWin_total _ _ _ _ Hs' Hcl).
  assert (forall p, inb (width st) (height st) p ->
            markedAt rows3 p =
              if decide (p ∈ deref (heap st) r) then Some false
              else markedAt rows p) as Hmarks.
  { intros p Hp. by rewrite Hm3, Hm2, Hm1. }
  assert (forall p c, inb (width st) (height st) p ->
            colorAt (colorsOf (board st)) p = Some c ->
            shownAt rows3 p = setColor css c <$> shownAt rows p) as Hpaint.
  { intros p c Hp Hc. rewrite (Hp3 p c Hp) by (by rewrite Hcol).
    rewrite (Hp2 p c Hp Hc), Hs1.
    destruct (shownAt rows p); simpl; [|done]. by rewrite setColor_twice. }
  destruct (forallb _ _); eexists _, rows3; (split; [done|]); done.
Qed.

Lemma handleHover_dom_spec (ox oy : Z) (st : State) (rows : list (list Td)) :
  valid st -> tablePage (width st) (height st) rows ->
  inb (width st) (height st) (ox, oy) ->
  exists st' rows',
    handleHover_dom ox oy (mkWorld st rows) = Normal (mkWorld st' rows') /\
    board st' = board st /\
    tablePage (width st) (height st) rows' /\
    (forall p, shownAt rows' p = shownAt rows p) /\
    forall p, inb (width st) (height st) p ->
      markedAt rows' p =
        if decide (p ∈ hoverArray st') then Some true else markedAt rows p.
Proof.
  intros Hv Ht Hin.
  destruct (at2_is_Some _ _ _ ox oy (v_shaped st Hv) Hin) as [c Hc].
  destruct (v_clustered st Hv ox oy c Hc) as (r & Hr & Hlt & Hok).
  unfold handleHover_dom. cbn [game page]. unfold getCell. rewrite Hc, Hr.
  destruct (Z.ltb_spec 1 (Z.of_nat (length (deref (heap st) r)))) as [Hn|Hn].
  - destruct (cluster_members _ _ _ _ ox oy c r (v_shaped st Hv)
      (v_clustered st Hv) Hc Hr) as [_ Hmem].
    { intros H. rewrite H in Hn. simpl in Hn. lia. }
    destruct (mark_spec _ _ true (deref (heap st) r) rows Ht)
      as (rows' & -> & Ht' & Hs' & Hm').
    { intros p Hp. by destruct (Hmem p Hp). }
    eexists _, rows'. split; [done|]. done.
  - eexists _, rows. split; [done|]. split; [done|]. split; [done|].
    split; [done|]. intros p Hp. unfold hoverArray. cbn.
    rewrite deref_alloc_new. rewrite decide_False; [done|]. apply not_elem_of_nil.
Qed.

Lemma handleClick_dom_spec (css : string -> bool) (ox oy : Z) (st : State)
    (rows : list (list Td)) :
  valid st -> tablePage (width st) (height st) rows ->
  markedAs (width st) (height st) (hoverArray st) rows ->
  inb (width st) (height st) (ox, oy) ->
  exists st' rows',
    handleClick_dom css ox oy (mkWorld st rows) = Normal (mkWorld st' rows') /\
    tablePage (width st) (height st) rows' /\
    (cssColors css (colorsOf (board st)) ->
     paintedAs (width st) (height st) (colorsOf (board st)) rows ->
     paintedAs (width st) (height st) (colorsOf (board st')) rows') /\
    markedAs (width st) (height st) (hoverArray st') rows'.
Proof.
  intros Hv Ht Hm Hin.
  destruct (v_hover st Hv) as (r & Hr & Hlt & _).
  destruct (decide (2 <= length (hoverArray st))%nat) as [Hn|Hn].
  2: { exists st, rows. split; [|done]. unfold handleClick_dom. cbn [game page].
       unfold hoverArray in Hn. rewrite Hr in *.
       by destruct (Z.ltb_spec (Z.of_nat (length (deref (heap st) r))) 2); [|lia]. }
  destruct (handleClick_stages st Hv Hn)
    as (st2' & Hv2 & Hall & _ & _ & _ & Hw2 & Hh2 & _).
  destruct (hover_members st Hv) as [_ Hmem].
  { intros H. rewrite H in Hn. simpl in Hn. lia. }
  unfold hoverArray in Hn, Hmem, Hm. rewrite Hr in Hn, Hmem, Hm.
  destruct (clickLoop_spec (deref (heap st) r) st (v_shaped st Hv)
    (clustered_tidy (width st) (height st) _ _ (v_clustered st Hv)) (v_width st Hv))
    as (st1 & Hloop & Hc1 & Hs1 & _ & He1 & _ & Hsame1).
  destruct Hsame1 as (Hw1 & Hh1 & Hr1 & _).
  rewrite Hr in Hr1.
  assert (deref (heap st1) r = deref (heap st) r) as Hd1 by by apply extends_deref.
  destruct (updateGame_dom_spec css st1 r rows)
    as (st2 & rows2 & Hug & Ht2 & Hcol2 & Hp2 & Hm2).
  { by rewrite Hw1, Hh1. }
  { done. }
  { intros p Hp1. rewrite Hw1, Hh1. rewrite Hd1 in Hp1. by destruct (Hmem p Hp1). }
  { by rewrite Hw1, Hh1. }
  rewrite Hw1, Hh1, Hd1 in *.
  assert (st2' = st2) as ->.
  { pose proof (updateGame_dom_game _ _ _ Hug) as Hug'. simpl in Hug'.
    specialize (Hall (-1) (-1)). unfold handleClick in Hall.
    rewrite Hr in Hall.
    destruct (Z.ltb_spec (Z.of_nat (length (deref (heap st) r))) 2); [lia|].
    rewrite Hloop in Hall. cbn [andThen id] in Hall. rewrite Hug' in Hall.
    cbn [andThen id] in Hall. rewrite !handleHover_nowhere in Hall. congruence. }
  destruct (handleHover_dom_spec ox oy st2 rows2 Hv2)
    as (st' & rows' & Hhov & Hb' & Ht' & Hs' & Hm');
    [by rewrite Hw2, Hh2|by rewrite Hw2, Hh2|].
  rewrite Hw2, Hh2 in *.
  exists st', rows'. split; [|split; [done|split]].
  - unfold handleClick_dom. cbn [game page]. rewrite Hr.
    destruct (Z.ltb_spec (Z.of_nat (length (deref (heap st) r))) 2); [lia|].
    rewrite Hloop, Hug. cbn [andThen id]. done.
  - intros Hcss _ p Hpin. rewrite Hs', Hb', Hcol2.
    apply (painted_setColor css (width st) (height st) _ rows rows2);
      try done.
    + by apply shaped_colorsOf.
    + rewrite Hc1. by apply cssColors_settle.
  - intros p Hpin. rewrite (Hm' p Hpin), (Hm2 p Hpin), (Hm p Hpin).
    destruct (decide (p ∈ hoverArray st')).
    + by rewrite (bool_decide_eq_true_2 (p ∈ hoverArray st')).
    + rewrite (bool_decide_eq_false_2 (p ∈ hoverArray st')) by done.
      destruct (decide (p ∈ deref (heap st) r)); [done|].
      by rewrite bool_decide_eq_false_2.
Qed.

Lemma createHTMLTable_cell (w h x y : Z) (td : Td) :
  at2 (createHTMLTable w h []) y x = Some td ->
  td = mkTd (cellId x y) (Hover x y) Out (Click x y) None false /\
  inb w h (x, y).
Proof.
  unfold createHTMLTable. simpl. intros (row & Hy & Hx & Hrow & Hcell)%at2_Some.
  change (map ?f ?l) with (f <$> l) in Hrow.
  rewrite list_lookup_fmap in Hrow.
  destruct (zrange h !! Z.to_nat y) as [y'|] eqn:Hy'; [|done].
  apply lookup_zrange in Hy' as [-> Hyh]. simpl in Hrow. injection Hrow as <-.
  unfold newRow in Hcell. change (map ?f ?l) with (f <$> l) in Hcell.
  rewrite list_lookup_fmap in Hcell.
  destruct (zrange w !! Z.to_nat x) as [x'|] eqn:Hx'; [|done].
  apply lookup_zrange in Hx' as [-> Hxw]. simpl in Hcell. injection Hcell as <-.
  rewrite !Z2Nat.id in * by done. split; [done|]. unfold inb. simpl. lia.
Qed.

Lemma tablePage_new (w h : Z) :
  tablePage w h (createHTMLTable w h []) /\
  markedAs w h [] (createHTMLTable w h []).
Proof.
  assert (shaped h w (createHTMLTable w h [])) as Hs.
  { unfold createHTMLTable. simpl. split; [by rewrite length_map, length_zrange|].
    apply Forall_forall. intros row Hrow.
    change (map ?f ?l) with (f <$> l) in Hrow.
    apply list_elem_of_fmap in Hrow as (y & -> & _).
    unfold newRow. by rewrite length_map, length_zrange. }
  split; [split; [done|]|].
  - intros x y td Htd. by apply createHTMLTable_cell in Htd as [-> _].
  - intros [x y] Hp. unfold markedAt. simpl.
    destruct (at2_is_Some h w _ y x Hs) as [td Htd]; [by destruct Hp|].
    rewrite Htd. by apply createHTMLTable_cell in Htd as [-> _].
Qed.

Lemma construct_dom_spec (css : string -> bool) (w h : Z)
    (pick : Z -> Z -> string) :
  0 <= w -> 0 <= h -> boardSizes w h = true ->
  exists st rows,
    construct_dom css w h pick [] = Normal (mkWorld st rows) /\
    construct w h pick = Normal st /\
    tablePage w h rows /\
    (cssPick css w h pick -> paintedAs w h (colorsOf (board st)) rows) /\
    markedAs w h [] rows.
Proof.
  intros Hw Hh Hsz.
  assert (exists wd, construct_dom css w h pick [] = Normal wd /\
            tablePage w h (page wd) /\
            (cssPick css w h pick ->
             paintedAs w h (colorsOf (board (game wd))) (page wd)) /\
            markedAs w h [] (page wd)) as (wd & Hrun & Ht & Hp & Hm).
  { unfold construct_dom, randomBoard. rewrite Hsz.
    destruct (newColumns_spec pick h (zrange w) [[]]) as (b & hp & -> & Hc & He).
    assert (shaped w h b) as Hs.
    { apply shaped_colorsOf. rewrite Hc. split.
      - by rewrite length_map, length_zrange.
      - apply Forall_forall. intros col Hcol.
        change (map ?f ?l) with (f <$> l) in Hcol.
        apply list_elem_of_fmap in Hcol as (x & -> & _).
        by rewrite length_map, length_zrange. }
    assert (deref hp 0 = []) as Hnil.
    { by rewrite (extends_deref [[]] hp) by (done || simpl; lia). }
    destruct (tablePage_new w h) as [Ht0 Hm0].
    destruct (updateGame_dom_spec css
      (mkState w h b hp (Some 0%nat) 0 (h * w) None None 0 0) 0%nat
      (createHTMLTable w h [])) as (st & rows & Hug & Ht & Hcol & Hp & Hm);
      [done|done| |done|].
    { simpl. rewrite Hnil. by intros p ?%elem_of_nil. }
    rewrite Hug.
    cbn [andThen id game page]. eexists. split; [done|].
    simpl in *. split; [done|]. split.
    - intros Hpick. rewrite Hcol.
      apply (painted_setColor css w h _ (createHTMLTable w h []) rows);
        try done.
      + by apply shaped_colorsOf.
      + rewrite Hc. by apply cssColors_new.
    - intros p Hpin. rewrite (Hm p Hpin), Hnil.
      rewrite decide_False by apply not_elem_of_nil. by apply Hm0. }
  destruct wd as [st rows]. apply construct_dom_game in Hrun as Hrun'.
  simpl in *. exists st, rows. split; [done|]. split; [done|].
  split; [done|]. done.
Qed.

(** ** The table that createHTMLTable builds *)

(** X12: createHTMLTable appends one row for every row of the board and
    one cell for every column; the cell of column x in row y has the id
    c-x-y, no colour, no "hovering", and its listeners call handleHover,
    handleOut and handleClick with x and y; two cells of the table with the
    same id are the same cell. *)
Theorem createHTMLTable_cells (w h : Z) :
  length (createHTMLTable w h []) = Z.to_nat h /\
  (forall x y, inb w h (x, y) ->
     at2 (createHTMLTable w h []) y x =
       Some (mkTd (cellId x y) (Hover x y) Out (Click x y) None false)) /\
  (forall x y td, at2 (createHTMLTable w h []) y x = Some td -> inb w h (x, y)) /\
  (forall x y x' y' td td',
     at2 (createHTMLTable w h []) y x = Some td ->
     at2 (createHTMLTable w h []) y' x' = Some td' ->
     td_id td = td_id td' -> x = x' /\ y = y').
Proof.
  destruct (tablePage_new w h) as [[Hs Hids] _].
  split; [by destruct Hs|]. split; [|split].
  - intros x y [Hx Hy]. simpl in *.
    destruct (at2_is_Some h w _ y x Hs) as [td Htd]; [by split|].
    rewrite Htd. by apply createHTMLTable_cell in Htd as [-> _].
  - intros x y td Htd. by apply createHTMLTable_cell in Htd as [_ ?].
  - intros x y x' y' td td' Htd Htd' Heq.
    apply createHTMLTable_cell in Htd as [-> [Hx _]].
    apply createHTMLTable_cell in Htd' as [-> [Hx' _]].
    simpl in *. apply cellId_inj in Heq; [done|lia|lia].
Qed.

Example cell_ids :
  map (map td_id) (createHTMLTable 3 2 []) =
  [["c-0-0"; "c-1-0"; "c-2-0"]; ["c-0-1"; "c-1-1"; "c-2-1"]] /\
  cellId 1 23 = "c-1-23" /\ cellId 12 3 = "c-12-3".
Proof. vm_compute. by repeat split. Qed.

(** ** draw *)

(** X13: on the table of a board of the same width and height draw ends
    normally.  It assigns the colour of every cell of the board to the style
    of the cell of the table at its position: afterwards that cell has no
    colour when the cell of the board is empty, the colour of the tile when
    that is a CSS colour, and the colour it had before when the colour of
    the tile is a string that is no CSS colour (none, when it is the empty
    string).  So on a board with CSS colours every cell of the table has
    the colour of the cell of the board at its position.  The class
    "hovering" is where it was. *)
Theorem draw_paints_board (css : string -> bool) (w h : Z)
    (b : list (list Cell)) (rows : list (list Td)) :
  tablePage w h rows -> shaped w h b ->
  exists rows',
    draw_dom css w h b rows = Normal rows' /\ tablePage w h rows' /\
    (forall p c, inb w h p -> colorAt (colorsOf b) p = Some c ->
       shownAt rows' p = setColor css c <$> shownAt rows p) /\
    (cssColors css (colorsOf b) ->
     forall p, inb w h p -> shownAt rows' p = colorAt (colorsOf b) p) /\
    (forall p, markedAt rows' p = markedAt rows p).
Proof.
  intros Ht Hs.
  destruct (draw_dom_spec css w h b rows Ht Hs) as (rows' & Hrun & Ht' & Hp & Hm).
  exists rows'. split; [done|]. split; [done|]. split; [done|]. split; [|done].
  intros Hcss. apply (painted_setColor css w h _ rows rows'); try done.
  by apply shaped_colorsOf.
Qed.

(** A colour that is no CSS colour leaves the cell of the table as it is,
    and the empty string takes its colour away. *)
Example draw_keeps_the_colour :
  let td := mkTd "c-0-0" (Hover 0 0) Out (Click 0 0) (Some "red") false in
  vocabulary "no-colour" = false /\
  draw_dom vocabulary 1 1 [[mkCell (Some "no-colour") (Some 0%nat)]] [[td]] =
    Normal [[td]] /\
  draw_dom vocabulary 1 1 [[mkCell (Some "blue") (Some 0%nat)]] [[td]] =
    Normal [[paint vocabulary (Some "blue") td]] /\
  backgroundColor (paint vocabulary (Some "blue") td) = Some "blue" /\
  backgroundColor (paint vocabulary (Some "") td) = None /\
  backgroundColor (paint vocabulary None td) = None.
Proof. vm_compute. by repeat split. Qed.

(** ** mouseover and mouseout *)

Lemma tablePage_ext (w h : Z) (rows1 rows2 : list (list Td)) :
  tablePage w h rows1 -> tablePage w h rows2 ->
  (forall p, inb w h p ->
     shownAt rows1 p = shownAt rows2 p /\ markedAt rows1 p = markedAt rows2 p) ->
  rows1 = rows2.
Proof.
  intros [[Hl1 Hc1] Hid1] [[Hl2 Hc2] Hid2] Heq.
  rewrite Forall_forall in Hc1, Hc2.
  apply list_eq. intros j.
  destruct (rows1 !! j) as [row1|] eqn:Hr1.
  2: { symmetry. apply lookup_ge_None. apply lookup_ge_None in Hr1. lia. }
  destruct (lookup_lt_is_Some_2 rows2 j) as [row2 Hr2].
  { apply lookup_lt_Some in Hr1. lia. }
  rewrite Hr2. f_equal.
  pose proof (Hc1 row1 (list_elem_of_lookup_2 _ _ _ Hr1)) as Hlen1.
  pose proof (Hc2 row2 (list_elem_of_lookup_2 _ _ _ Hr2)) as Hlen2.
  apply list_eq. intros i.
  destruct (row1 !! i) as [td1|] eqn:Ht1.
  2: { symmetry. apply lookup_ge_None. apply lookup_ge_None in Ht1. lia. }
  destruct (lookup_lt_is_Some_2 row2 i) as [td2 Ht2].
  { apply lookup_lt_Some in Ht1. lia. }
  rewrite Ht2. f_equal.
  assert (at2 rows1 (Z.of_nat j) (Z.of_nat i) = Some td1) as Hat1.
  { apply at2_Some. exists row1. rewrite !Nat2Z.id. repeat split; try done; lia. }
  assert (at2 rows2 (Z.of_nat j) (Z.of_nat i) = Some td2) as Hat2.
  { apply at2_Some. exists row2. rewrite !Nat2Z.id. repeat split; try done; lia. }
  destruct (Hid1 _ _ _ Hat1) as (Ha1 & Hb1 & Hd1 & He1).
  destruct (Hid2 _ _ _ Hat2) as (Ha2 & Hb2 & Hd2 & He2).
  destruct (Heq (Z.of_nat i, Z.of_nat j)) as [Hshown Hmarked].
  { apply lookup_lt_Some in Hr1, Ht1. unfold inb. simpl. lia. }
  unfold shownAt, markedAt in *. simpl in *. rewrite Hat1, Hat2 in *.
  simpl in *. destruct td1, td2. simpl in *. congruence.
Qed.

(** X15: on a table without a highlighted cell, in a state of a game,
    handleHover on a cell of the board highlights the cells of the new
    hoverCluster and no other, and changes no colour; the handleOut that
    follows takes the highlights away again: the table is as it was. *)
Theorem hover_out_round_trip (w h : Z) (pick : Z -> Z -> string) (st : State)
    (rows : list (list Td)) (ox oy : Z) :
  0 <= w -> 0 <= h -> reachable w h pick st ->
  tablePage w h rows -> markedAs w h [] rows -> inb w h (ox, oy) ->
  exists st1 rows1 st2,
    handleHover_dom ox oy (mkWorld st rows) = Normal (mkWorld st1 rows1) /\
    (forall p, inb w h p ->
       markedAt rows1 p = Some (bool_decide (p ∈ hoverArray st1))) /\
    (forall p, shownAt rows1 p = shownAt rows p) /\
    handleOut_dom (mkWorld st1 rows1) = Normal (mkWorld st2 rows) /\
    board st2 = board st /\ score st2 = score st /\
    hoverCluster st2 = hoverCluster st1.
Proof.
  intros Hw Hh Hreach Ht Hm Hin.
  destruct (reachable_valid w h pick st Hw Hh Hreach) as (Hv & Hw0 & Hh0).
  rewrite <- Hw0, <- Hh0 in *.
  destruct (handleHover_dom_spec ox oy st rows Hv Ht Hin)
    as (st1 & rows1 & Hhov & Hb1 & Ht1 & Hs1 & Hm1).
  assert (reachable (width st) (height st) pick st1) as Hreach1.
  { apply (reach_step _ _ _ st (Hover ox oy)); [done|]. left.
    by apply (handleHover_dom_game ox oy (mkWorld st rows) (mkWorld st1 rows1)). }
  destruct (reachable_valid _ _ pick st1 Hw Hh Hreach1) as (Hv1 & Hw1 & Hh1).
  destruct (v_hover st1 Hv1) as (r & Hr & Hlt & _).
  assert (forall p, p ∈ deref (heap st1) r -> inb (width st) (height st) p) as Hmem.
  { intros p Hp. destruct (hover_members st1 Hv1) as [_ Hmem].
    - unfold hoverArray. rewrite Hr. intros Hnil. rewrite Hnil in Hp.
      by apply elem_of_nil in Hp.
    - rewrite <- Hw1, <- Hh1. apply Hmem. unfold hoverArray. by rewrite Hr. }
  destruct (handleOut_dom_spec _ _ st1 r rows1 Hr Hmem Ht1)
    as (rows2 & Hout & Ht2 & Hs2 & Hm2).
  assert (rows2 = rows) as ->.
  { apply (tablePage_ext (width st) (height st)); [done|done|].
    intros p Hp. split; [by rewrite Hs2, Hs1|].
    rewrite (Hm2 p Hp), (Hm1 p Hp), (Hm p Hp).
    unfold hoverArray. rewrite Hr.
    destruct (decide (p ∈ deref (heap st1) r)); [|done].
    rewrite bool_decide_eq_false_2; [done|]. apply not_elem_of_nil. }
  eexists st1, rows1, _. split; [done|]. split.
  { intros p Hp. rewrite (Hm1 p Hp), (Hm p Hp).
    destruct (decide (p ∈ hoverArray st1)).
    - by rewrite (bool_decide_eq_true_2 (p ∈ hoverArray st1)).
    - rewrite (bool_decide_eq_false_2 (p ∈ hoverArray st1)) by done.
      rewrite bool_decide_eq_false_2; [done|]. apply not_elem_of_nil. }
  split; [done|]. split; [exact Hout|].
  assert (score st1 = score st) as Hsc.
  { destruct (handleHover_inb ox oy st Hv Hin)
      as (c & r0 & st1' & _ & _ & Hrun' & _ & _ & Hsc & _).
    pose proof (handleHover_dom_game ox oy (mkWorld st rows) (mkWorld st1 rows1)
      Hhov) as Hrun. simpl in Hrun. congruence. }
  by destruct (deref (heap st1) r).
Qed.

(** ** The page in the browser *)

Lemma session_inv (css : string -> bool) (w h : Z) (pick : Z -> Z -> string)
    (ptr : option (Z * Z)) (wd : World) :
  0 <= w -> 0 <= h -> session css w h pick ptr wd ->
  reachable w h pick (game wd) /\ tablePage w h (page wd) /\
  (cssPick css w h pick ->
   paintedAs w h (colorsOf (board (game wd))) (page wd)) /\
  markedAs w h (highlighted ptr (game wd)) (page wd) /\
  forall p, ptr = Some p -> inb w h p.
Proof.
  intros Hw Hh Hses.
  induction Hses as [wd Hnew|p td wd wd' Hses IH Htd Hrun
                    |p td wd wd' Hses IH Htd Hrun|p td wd wd' Hses IH Htd Hrun].
  - destruct (construct_dom_spec css w h pick Hw Hh)
      as (st & rows & Hrun & Hcon & Ht & Hp & Hm).
    { apply construct_dom_game in Hnew. by apply construct_sizes in Hnew. }
    rewrite Hrun in Hnew. injection Hnew as <-. simpl.
    split; [by apply reach_init|]. done.
  - destruct IH as (Hreach & Ht & Hp & Hm & _). destruct wd as [st rows].
    simpl in *.
    destruct (reachable_valid w h pick st Hw Hh Hreach) as (Hv & Hw0 & Hh0).
    pose proof Ht as [Hsh Hids]. destruct (Hids _ _ _ Htd) as (_ & Hmo & _).
    assert (inb w h p) as Hin.
    { apply (at2_inb h w) in Htd; [|done]. destruct Htd. by split. }
    rewrite Hmo in Hrun. simpl in Hrun. rewrite <- Hw0, <- Hh0 in *.
    destruct (handleHover_dom_spec (fst p) (snd p) st rows Hv Ht)
      as (st' & rows' & Hhov & Hb' & Ht' & Hs' & Hm'); [by destruct p|].
    rewrite Hhov in Hrun. injection Hrun as <-. simpl.
    split.
    { apply (reach_step _ _ _ st (Hover (fst p) (snd p))); [done|]. left.
      by apply (handleHover_dom_game _ _ (mkWorld st rows) (mkWorld st' rows')). }
    split; [done|]. split.
    { intros Hpick q Hq. rewrite Hs', Hb'. exact (Hp Hpick q Hq). }
    split; [|by intros q [= <-]].
    intros q Hq. rewrite (Hm' q Hq), (Hm q Hq).
    destruct (decide (q ∈ hoverArray st')).
    + by rewrite (bool_decide_eq_true_2 (q ∈ hoverArray st')).
    + rewrite (bool_decide_eq_false_2 (q ∈ hoverArray st')) by done.
      rewrite bool_decide_eq_false_2; [done|]. apply not_elem_of_nil.
  - destruct IH as (Hreach & Ht & Hp & Hm & Hptr). destruct wd as [st rows].
    simpl in *.
    destruct (reachable_valid w h pick st Hw Hh Hreach) as (Hv & Hw0 & Hh0).
    pose proof Ht as [Hsh Hids]. destruct (Hids _ _ _ Htd) as (_ & _ & _ & Hck).
    pose proof (Hptr p eq_refl) as Hin.
    rewrite Hck in Hrun. simpl in Hrun. rewrite <- Hw0, <- Hh0 in *.
    destruct (handleClick_dom_spec css (fst p) (snd p) st rows Hv Ht Hm)
      as (st' & rows' & Hcl & Ht' & Hp' & Hm'); [by destruct p|].
    rewrite Hcl in Hrun. injection Hrun as <-. simpl.
    split.
    { apply (reach_step _ _ _ st (Click (fst p) (snd p))); [done|]. left.
      by apply (handleClick_dom_game css _ _ (mkWorld st rows) (mkWorld st' rows')). }
    split; [done|]. split; [|done].
    intros Hpick. apply Hp'; [|by apply Hp].
    by apply (reachable_cssColors css (width st) (height st) pick).
  - destruct IH as (Hreach & Ht & Hp & Hm & Hptr). destruct wd as [st rows].
    simpl in *.
    destruct (reachable_valid w h pick st Hw Hh Hreach) as (Hv & Hw0 & Hh0).
    pose proof Ht as [Hsh Hids]. destruct (Hids _ _ _ Htd) as (_ & _ & Hmt & _).
    rewrite Hmt in Hrun. simpl in Hrun.
    destruct (v_hover st Hv) as (r & Hr & Hlt & _).
    assert (forall q, q ∈ deref (heap st) r -> inb w h q) as Hmem.
    { intros q Hq. destruct (hover_members st Hv) as [_ Hmem].
      - unfold hoverArray. rewrite Hr. intros Hnil. rewrite Hnil in Hq.
        by apply elem_of_nil in Hq.
      - rewrite <- Hw0, <- Hh0. apply Hmem. unfold hoverArray. by rewrite Hr. }
    destruct (handleOut_dom_spec w h st r rows Hr Hmem Ht)
      as (rows' & Hrun' & Ht' & Hs' & Hm').
    rewrite Hrun' in Hrun. injection Hrun as <-. simpl.
    split.
    { apply (reach_step _ _ _ st Out); [done|]. left.
      by apply (handleOut_dom_game (mkWorld st rows) (mkWorld _ rows')). }
    split; [done|]. split.
    { intros Hpick q Hq. rewrite Hs'.
      replace (board _) with (board st) by by destruct (deref (heap st) r).
      exact (Hp Hpick q Hq). }
    split; [|done].
    intros q Hq. rewrite (Hm' q Hq), (Hm q Hq). unfold hoverArray. rewrite Hr.
    destruct (decide (q ∈ deref (heap st) r)).
    + rewrite bool_decide_eq_false_2; [done|]. apply not_elem_of_nil.
    + rewrite (bool_decide_eq_false_2 (q ∈ deref (heap st) r)) by done.
      rewrite bool_decide_eq_false_2; [done|]. apply not_elem_of_nil.
Qed.

(** X16: in the browser, where the pointer enters a cell of the table,
    clicks on it and leaves it, the page shows the game: the state is a
    state of a game, the highlighted cells are the cells of hoverCluster
    while the pointer is over a cell, and none when it is not; and when the
    colours drawn for the cells are CSS colours, every cell of the table has
    the colour of the cell of the board at its position. *)
Theorem session_shows (css : string -> bool) (w h : Z)
    (pick : Z -> Z -> string) (ptr : option (Z * Z)) (wd : World) :
  0 <= w -> 0 <= h -> session css w h pick ptr wd ->
  reachable w h pick (game wd) /\ tablePage w h (page wd) /\
  (cssPick css w h pick ->
   forall p, inb w h p ->
     shownAt (page wd) p = colorAt (colorsOf (board (game wd))) p) /\
  (forall p, inb w h p ->
     markedAt (page wd) p = Some (bool_decide (p ∈ highlighted ptr (game wd)))) /\
  (forall p, ptr = Some p -> inb w h p).
Proof. apply session_inv. Qed.

(** X17: in the browser no listener ends with an exception: the mouseover
    of every cell ends normally when the pointer is over none, and so do
    the click and the mouseout of the cell the pointer is over. *)
Theorem session_listeners_end (css : string -> bool)
    (w h : Z) (pick : Z -> Z -> string)
    (ptr : option (Z * Z)) (wd : World) (p : Z * Z) (td : Td) :
  0 <= w -> 0 <= h -> session css w h pick ptr wd ->
  at2 (page wd) (snd p) (fst p) = Some td ->
  (ptr = None -> exists wd', handle_dom css (mouseover td) wd = Normal wd') /\
  (ptr = Some p ->
     (exists wd', handle_dom css (click td) wd = Normal wd') /\
     (exists wd', handle_dom css (mouseout td) wd = Normal wd')).
Proof.
  intros Hw Hh Hses Htd.
  destruct (session_inv css w h pick ptr wd Hw Hh Hses)
    as (Hreach & Ht & _ & Hm & Hptr).
  destruct wd as [st rows]. simpl in *.
  destruct (reachable_valid w h pick st Hw Hh Hreach) as (Hv & Hw0 & Hh0).
  pose proof Ht as [Hsh Hids].
  destruct (Hids _ _ _ Htd) as (_ & Hmo & Hmt & Hck).
  assert (inb w h p) as Hin.
  { apply (at2_inb h w) in Htd; [|done]. destruct Htd. by split. }
  rewrite Hmo, Hmt, Hck. simpl. rewrite <- Hw0, <- Hh0 in *. split.
  - intros ->.
    destruct (handleHover_dom_spec (fst p) (snd p) st rows Hv Ht)
      as (st' & rows' & Hhov & _); [by destruct p|]. eauto.
  - intros ->. split.
    + destruct (handleClick_dom_spec css (fst p) (snd p) st rows Hv Ht Hm)
        as (st' & rows' & Hcl & _); [by destruct p|]. eauto.
    + destruct (v_hover st Hv) as (r & Hr & Hlt & _).
      destruct (handleOut_dom_spec (width st) (height st) st r rows Hr)
        as (rows' & Hrun' & _); [|done|eauto].
      intros q Hq. destruct (hover_members st Hv) as [_ Hmem].
      * unfold hoverArray. rewrite Hr. intros Hnil. rewrite Hnil in Hq.
        by apply elem_of_nil in Hq.
      * apply Hmem. unfold hoverArray. by rewrite Hr.
Qed.

(** X18: in every state of a game, whatever events came before, the call
    that a listener of a cell of the table makes ends normally. *)
Theorem table_listeners_end (w h : Z) (pick : Z -> Z -> string) (st : State)
    (x y : Z) (td : Td) (e : event) :
  0 <= w -> 0 <= h -> reachable w h pick st ->
  at2 (createHTMLTable w h []) y x = Some td ->
  e ∈ [mouseover td; mouseout td; click td] ->
  exists st', handle e st = Normal st'.
Proof.
  intros Hw Hh Hreach Htd He.
  destruct (reachable_valid w h pick st Hw Hh Hreach) as (Hv & Hw0 & Hh0).
  apply createHTMLTable_cell in Htd as [-> Hin]. simpl in He.
  rewrite <- Hw0, <- Hh0 in Hin.
  apply elem_of_cons in He as [->|He]; [|apply elem_of_cons in He as [->|He]].
  - destruct (handleHover_inb x y st Hv Hin) as (c & r & st' & _ & _ & Hrun & _).
    eauto.
  - simpl. unfold handleOut. destruct (v_hover st Hv) as (r & -> & _).
    destruct (deref (heap st) r); eauto.
  - apply list_elem_of_singleton in He as ->. simpl.
    destruct (decide (2 <= length (hoverArray st))%nat) as [Hn|Hn].
    + destruct (handleClick_after x y st Hv Hn)
        as (st' & _ & _ & _ & _ & _ & _ & _ & Hnormal & _). eauto.
    + destruct (v_hover st Hv) as (r & Hr & _).
      unfold hoverArray in Hn. rewrite Hr in Hn.
      rewrite (handleClick_small x y st r Hr) by lia. eauto.
Qed.

(** ** The theorems on the page at the board of three columns *)

Example pages_three_columns :
  map (map backgroundColor) (page world32) =
    [[Some "red"; Some "blue"; Some "red"];
     [Some "red"; Some "blue"; Some "green"]] /\
  map (map hovering) (page world32h) =
    [[false; true; false]; [false; true; false]] /\
  map (map backgroundColor) (page world32c) =
    [[Some "red"; Some "red"; None]; [Some "red"; Some "green"; None]] /\
  map (map hovering) (page world32c) =
    [[true; true; false]; [true; false; false]] /\
  map (map hovering) (page world32o) =
    [[false; false; false]; [false; false; false]] /\
  game world32c = game32c.
Proof. vm_compute. by repeat split. Qed.

Lemma vocabulary_threeColumns : cssPick vocabulary 3 2 threeColumns.
Proof.
  intros x y _. unfold threeColumns.
  destruct (x =? 1); [reflexivity|]. by destruct ((x =? 2) && (y =? 1)).
Qed.

Lemma vocabulary_redRedBlue : cssPick vocabulary 3 2 redRedBlue.
Proof. intros x y _. unfold redRedBlue. by destruct (x =? 2). Qed.

(** draw on the new table, for the board of three columns, whose colours
    are CSS colours. *)
Lemma draw_paints_board_witness :
  tablePage 3 2 (createHTMLTable 3 2 []) /\ shaped 3 2 (board game32) /\
  cssColors vocabulary (colorsOf (board game32)) /\
  exists rows',
    draw_dom vocabulary 3 2 (board game32) (createHTMLTable 3 2 []) =
      Normal rows' /\
    tablePage 3 2 rows' /\
    (forall p c, inb 3 2 p -> colorAt (colorsOf (board game32)) p = Some c ->
       shownAt rows' p =
         setColor vocabulary c <$> shownAt (createHTMLTable 3 2 []) p) /\
    (cssColors vocabulary (colorsOf (board game32)) ->
     forall p, inb 3 2 p ->
       shownAt rows' p = colorAt (colorsOf (board game32)) p) /\
    (forall p, markedAt rows' p = markedAt (createHTMLTable 3 2 []) p).
Proof.
  split; [apply tablePage_new|]. split; [by split; [|repeat constructor]|].
  split.
  { apply (reachable_cssColors vocabulary 3 2 threeColumns); [lia|lia| |].
    - apply vocabulary_threeColumns.
    - apply reach_init. vm_compute. reflexivity. }
  apply (draw_paints_board vocabulary 3 2 (board game32) (createHTMLTable 3 2 [])).
  - apply tablePage_new.
  - by split; [|repeat constructor].
Defined.

(** The pointer enters the blue column and leaves it. *)
Lemma hover_out_round_trip_witness :
  0 <= 3 /\ 0 <= 2 /\ reachable 3 2 threeColumns game32 /\
  tablePage 3 2 (page world32) /\ markedAs 3 2 [] (page world32) /\
  inb 3 2 (1, 0) /\
  exists st1 rows1 st2,
    handleHover_dom 1 0 (mkWorld game32 (page world32)) =
      Normal (mkWorld st1 rows1) /\
    (forall p, inb 3 2 p ->
       markedAt rows1 p = Some (bool_decide (p ∈ hoverArray st1))) /\
    (forall p, shownAt rows1 p = shownAt (page world32) p) /\
    handleOut_dom (mkWorld st1 rows1) = Normal (mkWorld st2 (page world32)) /\
    board st2 = board game32 /\ score st2 = score game32 /\
    hoverCluster st2 = hoverCluster st1.
Proof.
  assert (session vocabulary 3 2 threeColumns None world32) as Hses.
  { apply session_new. vm_compute. reflexivity. }
  destruct (session_inv vocabulary 3 2 threeColumns None world32)
    as (_ & Ht & _ & Hm & _);
    [lia|lia|exact Hses|].
  split; [lia|]. split; [lia|]. split.
  { apply reach_init. vm_compute. reflexivity. }
  split; [exact Ht|]. split; [exact Hm|]. split; [unfold inb; simpl; lia|].
  apply (hover_out_round_trip 3 2 threeColumns game32 (page world32) 1 0);
    [lia|lia| |exact Ht|exact Hm|unfold inb; simpl; lia].
  apply reach_init. vm_compute. reflexivity.
Defined.

(** The pointer over the blue column. *)
Lemma session_shows_witness :
  0 <= 3 /\ 0 <= 2 /\
  session vocabulary 3 2 threeColumns (Some (1, 0)) world32h /\
  cssPick vocabulary 3 2 threeColumns /\
  reachable 3 2 threeColumns (game world32h) /\
  tablePage 3 2 (page world32h) /\
  (cssPick vocabulary 3 2 threeColumns ->
   forall p, inb 3 2 p ->
     shownAt (page world32h) p = colorAt (colorsOf (board (game world32h))) p) /\
  (forall p, inb 3 2 p ->
     markedAt (page world32h) p =
       Some (bool_decide (p ∈ highlighted (Some (1, 0)) (game world32h)))) /\
  (forall p, Some (1, 0) = Some p -> inb 3 2 p).
Proof.
  assert (session vocabulary 3 2 threeColumns (Some (1, 0)) world32h) as Hses.
  { apply (session_over _ _ _ _ (1, 0)
             (mkTd "c-1-0" (Hover 1 0) Out (Click 1 0) (Some "blue") false)
             world32).
    - apply session_new. vm_compute. reflexivity.
    - vm_compute. reflexivity.
    - vm_compute. reflexivity. }
  split; [lia|]. split; [lia|]. split; [exact Hses|].
  split; [apply vocabulary_threeColumns|].
  apply (session_shows vocabulary 3 2 threeColumns (Some (1, 0)) world32h);
    [lia|lia|].
  exact Hses.
Defined.

(** The listeners of the blue cell on top, the pointer over it. *)
Lemma session_listeners_end_witness :
  0 <= 3 /\ 0 <= 2 /\ session vocabulary 3 2 threeColumns (Some (1, 0)) world32h /\
  at2 (page world32h) 0 1 =
    Some (mkTd "c-1-0" (Hover 1 0) Out (Click 1 0) (Some "blue") true) /\
  (Some (1, 0) = None ->
     exists wd', handle_dom vocabulary (Hover 1 0) world32h = Normal wd') /\
  (Some (1, 0) = Some (1, 0) ->
     (exists wd', handle_dom vocabulary (Click 1 0) world32h = Normal wd') /\
     (exists wd', handle_dom vocabulary Out world32h = Normal wd')).
Proof.
  assert (session vocabulary 3 2 threeColumns (Some (1, 0)) world32h) as Hses.
  { apply (session_over _ _ _ _ (1, 0)
             (mkTd "c-1-0" (Hover 1 0) Out (Click 1 0) (Some "blue") false)
             world32).
    - apply session_new. vm_compute. reflexivity.
    - vm_compute. reflexivity.
    - vm_compute. reflexivity. }
  split; [lia|]. split; [lia|]. split; [exact Hses|].
  split; [vm_compute; reflexivity|].
  apply (session_listeners_end vocabulary 3 2 threeColumns (Some (1, 0))
           world32h (1, 0)
           (mkTd "c-1-0" (Hover 1 0) Out (Click 1 0) (Some "blue") true));
    [lia|lia|exact Hses|].
  vm_compute. reflexivity.
Defined.

(** The click on the blue column, with the pointer over it. *)
Lemma table_listeners_end_witness :
  0 <= 3 /\ 0 <= 2 /\ reachable 3 2 threeColumns game32h /\
  at2 (createHTMLTable 3 2 []) 0 1 =
    Some (mkTd "c-1-0" (Hover 1 0) Out (Click 1 0) None false) /\
  Click 1 0 ∈ [Hover 1 0; Out; Click 1 0] /\
  exists st', handle (Click 1 0) game32h = Normal st'.
Proof.
  split; [lia|]. split; [lia|]. split.
  { apply (reach_step _ _ _ game32 (Hover 1 0)).
    - apply reach_init. vm_compute. reflexivity.
    - left. vm_compute. reflexivity. }
  split; [vm_compute; reflexivity|].
  split; [by right; right; left|].
  apply (table_listeners_end 3 2 threeColumns game32h 1 0
           (mkTd "c-1-0" (Hover 1 0) Out (Click 1 0) None false) (Click 1 0));
    [lia|lia| | |].
  - apply (reach_step _ _ _ game32 (Hover 1 0)).
    + apply reach_init. vm_compute. reflexivity.
    + left. vm_compute. reflexivity.
  - vm_compute. reflexivity.
  - by right; right; left.
Defined.

(** ** The length of a game *)

Lemma handle_numCells (e : event) (st st' : State) :
  valid st -> after (handle e st) st' ->
  numCells st' = numCells st \/ numCells st' + 2 <= numCells st.
Proof.
  intros Hv.
  assert (forall ox oy s s', after (handleHover ox oy s) s' ->
            numCells s' = numCells s) as Hhover.
  { intros ox oy s s'. unfold handleHover.
    destruct (getCell (board s) ox oy) as [c|]; [|by intros [[= <-]|[= <-]]].
    destruct (cluster c) as [r|]; [|by intros [[= <-]|[= <-]]].
    destruct (1 <? _); by intros [[= <-]|[= <-]]. }
  destruct e as [x y| |x y]; simpl.
  - intros Hafter. left. by apply (Hhover x y).
  - unfold handleOut. destruct (hoverCluster st) as [r|]; [|by intros [[= <-]|[= <-]]; left].
    destruct (deref (heap st) r); intros [[= <-]|[= <-]]; by left.
  - destruct (decide (2 <= length (hoverArray st))%nat) as [Hn|Hn].
    + destruct (handleClick_stages st Hv Hn)
        as (st2 & _ & Hall & _ & Hnum & _).
      rewrite Hall. intros Hafter. right.
      rewrite (Hhover x y st2 st' Hafter), Hnum. lia.
    + destruct (v_hover st Hv) as (r & Hr & _).
      unfold hoverArray in Hn. rewrite Hr in Hn.
      rewrite (handleClick_small x y st r Hr) by lia.
      intros [[= <-]|[= <-]]. by left.
Qed.

Lemma after_stateOf (e : event) (st : State) :
  after (handle e st) (stateOf (handle e st)).
Proof.
  pose proof (proj2 never_out_of_fuel e st) as Hne.
  destruct (handle e st); [by left|by right|done].
Qed.

(** X19: a game is short: the events that take tiles from the board take
    two or more each, so that among any events whatever, played from any
    state of a game, there are at most numCells / 2 of them, which is at
    most width * height / 2. *)
Theorem game_length (w h : Z) (pick : Z -> Z -> string) (st : State)
    (es : list event) :
  0 <= w -> 0 <= h -> reachable w h pick st ->
  runs st es (play es st) /\
  2 * Z.of_nat (removals es st) <= numCells st - numCells (play es st) /\
  0 <= numCells (play es st) /\ numCells st <= w * h.
Proof.
  intros Hw Hh Hreach.
  destruct (reachable_valid w h pick st Hw Hh Hreach) as (Hv & Hw0 & Hh0).
  pose proof (s_cells st (reachable_steady w h pick st Hw Hh Hreach)) as Hcells.
  rewrite Hw0, Hh0 in Hcells.
  assert (runs st es (play es st) /\
          2 * Z.of_nat (removals es st) <= numCells st - numCells (play es st) /\
          0 <= numCells (play es st)) as (Hruns & Hcount & Hpos); [|by repeat split; try lia].
  clear Hreach Hw0 Hh0 Hcells. revert st Hv.
  induction es as [|e es IH]; intros st Hv.
  { simpl. split; [apply runs_nil|]. pose proof (v_numCells st Hv) as Hn.
    unfold tilesOf in Hn. split; lia. }
  pose proof (after_stateOf e st) as Hafter.
  destruct (handle_valid e st Hv) as (st1 & Hafter1 & Hv1 & _).
  rewrite (after_inj _ _ _ Hafter1 Hafter) in Hv1.
  destruct (IH _ Hv1) as (Hruns & Hcount & Hpos).
  cbn [play removals]. split; [exact (runs_cons _ _ _ _ _ Hafter Hruns)|].
  split; [|done].
  cbv zeta.
  destruct (handle_numCells e st _ Hv Hafter) as [Heq|Hlt];
    destruct (Z.ltb_spec (numCells (stateOf (handle e st))) (numCells st)); lia.
Qed.

(** Two removals on the board of three columns. *)
Lemma game_length_witness :
  0 <= 3 /\ 0 <= 2 /\ reachable 3 2 threeColumns game32 /\
  let es := [Hover 1 0; Click 1 0; Out; Click 0 0] in
  runs game32 es (play es game32) /\
  2 * Z.of_nat (removals es game32) <=
    numCells game32 - numCells (play es game32) /\
  0 <= numCells (play es game32) /\ numCells game32 <= 3 * 2.
Proof.
  split; [lia|]. split; [lia|]. split.
  { apply reach_init. vm_compute. reflexivity. }
  apply (game_length 3 2 threeColumns game32
           [Hover 1 0; Click 1 0; Out; Click 0 0]); [lia|lia|].
  apply reach_init. vm_compute. reflexivity.
Defined.

Example two_removals :
  removals [Hover 1 0; Click 1 0; Out; Click 0 0] game32 = 2%nat /\
  colorsOf (board (play [Hover 1 0; Click 1 0; Out; Click 0 0] game32)) =
    [[None; Some "green"]; [None; None]; [None; None]] /\
  score (play [Hover 1 0; Click 1 0; Out; Click 0 0] game32) = 13.
Proof. vm_compute. by repeat split. Qed.

(** ** Rows after the table *)

Lemma updateCell_frame (id : string) (f : Td -> Td)
    (rows rows' more : list (list Td)) :
  updateCell id f rows = Some rows' ->
  updateCell id f (rows ++ more) = Some (rows' ++ more).
Proof.
  revert rows'. induction rows as [|row rows IH]; intros rows'; [done|]. simpl.
  destruct (updateRow id f row) as [row'|]; [by intros [= <-]|].
  destruct (updateCell id f rows) as [rows1|]; [|done].
  simpl. intros [= <-]. by rewrite (IH rows1).
Qed.

Lemma forEach_frame {I : Type}
    (body : I -> list (list Td) -> completion (list (list Td)))
    (more : list (list Td)) (idx : list I) :
  (forall i rows rows', body i rows = Normal rows' ->
     body i (rows ++ more) = Normal (rows' ++ more)) ->
  forall rows rows', forEach body idx rows = Normal rows' ->
    forEach body idx (rows ++ more) = Normal (rows' ++ more).
Proof.
  intros Hbody. induction idx as [|i idx IH]; intros rows rows'; simpl.
  - by intros [= <-].
  - destruct (body i rows) as [rows1| |] eqn:Hi; [|done|done].
    rewrite (Hbody _ _ _ Hi). apply IH.
Qed.

Lemma drawCell_frame (css : string -> bool) (b : list (list Cell)) (y x : Z)
    (rows rows' more : list (list Td)) :
  drawCell css b y x rows = Normal rows' ->
  drawCell css b y x (rows ++ more) = Normal (rows' ++ more).
Proof.
  unfold drawCell. destruct (getCell b x y) as [c|]; [|done].
  destruct (updateCell _ _ rows) as [rows1|] eqn:Hu; [|done].
  intros [= <-]. by rewrite (updateCell_frame _ _ _ _ more Hu).
Qed.

Lemma draw_dom_frame (css : string -> bool) (w h : Z) (b : list (list Cell))
    (rows rows' more : list (list Td)) :
  draw_dom css w h b rows = Normal rows' ->
  draw_dom css w h b (rows ++ more) = Normal (rows' ++ more).
Proof.
  unfold draw_dom. apply forEach_frame. intros y rows0 rows1.
  apply forEach_frame. intros x rows2 rows3. apply drawCell_frame.
Qed.

Lemma markCell_frame (v : bool) (p : Z * Z) (rows rows' more : list (list Td)) :
  markCell v p rows = Normal rows' ->
  markCell v p (rows ++ more) = Normal (rows' ++ more).
Proof.
  unfold markCell. destruct (updateCell _ _ rows) as [rows1|] eqn:Hu; [|done].
  intros [= <-]. by rewrite (updateCell_frame _ _ _ _ more Hu).
Qed.

Lemma handleHover_dom_frame (ox oy : Z) (st st' : State)
    (rows rows' more : list (list Td)) :
  handleHover_dom ox oy (mkWorld st rows) = Normal (mkWorld st' rows') ->
  handleHover_dom ox oy (mkWorld st (rows ++ more)) =
    Normal (mkWorld st' (rows' ++ more)).
Proof.
  unfold handleHover_dom. cbn [game page].
  destruct (getCell (board st) ox oy) as [c|]; [|done].
  destruct (cluster c) as [r|]; [|done].
  destruct (1 <? Z.of_nat (length (deref (heap st) r))).
  - destruct (forEach (markCell true) _ rows) as [rows1| |] eqn:Hm; [|done|done].
    intros [= <- <-].
    by rewrite (forEach_frame (markCell true) more _
                  (fun i r r' => markCell_frame true i r r' more) _ _ Hm).
  - by intros [= <- <-].
Qed.

Lemma outLoop_frame (hc : list (Z * Z)) (more : list (list Td)) :
  forall st rows st' rows',
    forEach outCell hc (mkWorld st rows) = Normal (mkWorld st' rows') ->
    forEach outCell hc (mkWorld st (rows ++ more)) =
      Normal (mkWorld st' (rows' ++ more)).
Proof.
  induction hc as [|p hc IH]; intros st rows st' rows'; simpl.
  - by intros [= <- <-].
  - unfold outCell at 1 3. cbn [game page].
    destruct (markCell false p rows) as [rows1| |] eqn:Hm; [|done|done].
    rewrite (markCell_frame _ _ _ _ more Hm). apply IH.
Qed.

Lemma handleOut_dom_frame (st st' : State) (rows rows' more : list (list Td)) :
  handleOut_dom (mkWorld st rows) = Normal (mkWorld st' rows') ->
  handleOut_dom (mkWorld st (rows ++ more)) =
    Normal (mkWorld st' (rows' ++ more)).
Proof.
  unfold handleOut_dom. cbn [game page].
  destruct (hoverCluster st) as [r|]; [|done]. apply outLoop_frame.
Qed.

Lemma updateGame_dom_frame (css : string -> bool)
    (st st' : State) (rows rows' more : list (list Td)) :
  updateGame_dom css (mkWorld st rows) = Normal (mkWorld st' rows') ->
  updateGame_dom css (mkWorld st (rows ++ more)) =
    Normal (mkWorld st' (rows' ++ more)).
Proof.
  unfold updateGame_dom.
  destruct (handleOut_dom (mkWorld st rows)) as [[st1 rows1]| |] eqn:Hout;
    [|done|done].
  rewrite (handleOut_dom_frame _ _ _ _ more Hout). cbn [andThen id game page].
  destruct (hoverCluster st1) as [r|]; [|done].
  destruct (draw_dom css _ _ _ rows1) as [rows2| |] eqn:Hd1; [|done|done].
  rewrite (draw_dom_frame _ _ _ _ _ _ more Hd1).
  destruct (updateClusters _ _ _ _) as [s| |]; [|done|done].
  destruct (draw_dom css _ _ _ rows2) as [rows3| |] eqn:Hd2; [|done|done].
  rewrite (draw_dom_frame _ _ _ _ _ _ more Hd2).
  destruct (checkWin _ _ _ _) as [[|]|]; [| |done]; by intros [= <- <-].
Qed.

Lemma handleClick_dom_frame (css : string -> bool) (ox oy : Z) (st st' : State)
    (rows rows' more : list (list Td)) :
  handleClick_dom css ox oy (mkWorld st rows) = Normal (mkWorld st' rows') ->
  handleClick_dom css ox oy (mkWorld st (rows ++ more)) =
    Normal (mkWorld st' (rows' ++ more)).
Proof.
  unfold handleClick_dom. cbn [game page].
  destruct (hoverCluster st) as [r|]; [|done].
  destruct (Z.of_nat (length (deref (heap st) r)) <? 2);
    [by intros [= <- <-]|].
  destruct (forEach _ _ st) as [st1| |]; [|done|done].
  destruct (updateGame_dom css (mkWorld st1 rows)) as [[st2 rows2]| |] eqn:Hug;
    [|done|done].
  rewrite (updateGame_dom_frame _ _ _ _ _ more Hug). cbn [andThen id].
  apply handleHover_dom_frame.
Qed.

(** X20: the methods write to the first cell of the page that has the id
    they look for, and to no other: rows that follow the table in #board
    are never written.  A method that ends normally on the table ends
    normally on the table followed by other rows, with the same result, and
    leaves these rows as they are. *)
Theorem rows_after_the_table (css : string -> bool) (e : event) (st st' : State)
    (rows rows' more : list (list Td)) :
  handle_dom css e (mkWorld st rows) = Normal (mkWorld st' rows') ->
  handle_dom css e (mkWorld st (rows ++ more)) =
    Normal (mkWorld st' (rows' ++ more)).
Proof.
  destruct e as [x y| |x y]; simpl.
  - apply handleHover_dom_frame.
  - apply handleOut_dom_frame.
  - apply handleClick_dom_frame.
Qed.

(** X21: a second game on the same page.  When #board holds the table of
    a game of the same width and height, from 0 to 2^32 - 1, the constructor
    ends normally, but it assigns the colours of the new board to the cells
    of that table, which shows the new board when the colours drawn are CSS
    colours: the table it has appended itself has the same ids, and stays
    as createHTMLTable made it, without a colour. *)
Theorem second_game_on_the_page (css : string -> bool) (w h : Z)
    (pick : Z -> Z -> string) (rows : list (list Td)) :
  0 <= w -> 0 <= h -> w < 2 ^ 32 -> h < 2 ^ 32 -> tablePage w h rows ->
  exists st rows',
    construct_dom css w h pick rows =
      Normal (mkWorld st (rows' ++ createHTMLTable w h [])) /\
    construct w h pick = Normal st /\
    tablePage w h rows' /\
    (forall p c, inb w h p -> colorAt (colorsOf (board st)) p = Some c ->
       shownAt rows' p = setColor css c <$> shownAt rows p) /\
    (cssPick css w h pick ->
     forall p, inb w h p -> shownAt rows' p = colorAt (colorsOf (board st)) p) /\
    (forall p, inb w h p -> shownAt (createHTMLTable w h []) p = Some None).
Proof.
  intros Hw Hh Hw32 Hh32 Ht.
  pose proof (boardSizes_lt w h Hw32 Hh32) as Hsz.
  assert (exists wd rows', construct_dom css w h pick rows = Normal wd /\
            page wd = rows' ++ createHTMLTable w h [] /\
            tablePage w h rows' /\
            (forall p c, inb w h p ->
               colorAt (colorsOf (board (game wd))) p = Some c ->
               shownAt rows' p = setColor css c <$> shownAt rows p))
    as (wd & rows' & Hrun & Hpage & Ht' & Hp').
  { unfold construct_dom, randomBoard. rewrite Hsz.
    destruct (newColumns_spec pick h (zrange w) [[]]) as (b & hp & -> & Hc & He).
    assert (shaped w h b) as Hs.
    { apply shaped_colorsOf. rewrite Hc. split.
      - by rewrite length_map, length_zrange.
      - apply Forall_forall. intros col Hcol.
        change (map ?f ?l) with (f <$> l) in Hcol.
        apply list_elem_of_fmap in Hcol as (x & -> & _).
        by rewrite length_map, length_zrange. }
    assert (deref hp 0 = []) as Hnil.
    { by rewrite (extends_deref [[]] hp) by (done || simpl; lia). }
    destruct (updateGame_dom_spec css
      (mkState w h b hp (Some 0%nat) 0 (h * w) None None 0 0) 0%nat rows)
      as (st & rows' & Hug & Ht' & Hcol & Hp' & _); [done|done| |done|].
    { simpl. rewrite Hnil. by intros p ?%elem_of_nil. }
    unfold createHTMLTable at 1.
    rewrite (updateGame_dom_frame _ _ _ _ _ (map (newRow w) (zrange h)) Hug).
    cbn [andThen id game page]. eexists _, rows'. split; [done|].
    split; [done|]. split; [done|]. simpl in *. intros p c Hp Hcp.
    apply Hp'; [done|]. by rewrite <- Hcol. }
  destruct wd as [st rows0]. simpl in *. subst rows0.
  pose proof (construct_dom_game _ _ _ _ _ _ Hrun) as Hcon. simpl in Hcon.
  exists st, rows'. split; [done|]. split; [done|]. split; [done|].
  split; [done|]. split.
  - intros Hpick.
    apply (painted_setColor css w h _ rows rows'); try done.
    + destruct (reachable_valid w h pick st Hw Hh (reach_init _ _ _ _ Hcon))
        as (Hv & Hw0 & Hh0).
      apply shaped_colorsOf. rewrite <- Hw0, <- Hh0. apply (v_shaped st Hv).
    + apply (reachable_cssColors css w h pick st Hw Hh Hpick).
      by apply reach_init.
  - intros [x y] Hin. unfold shownAt. simpl.
    destruct (tablePage_new w h) as [[Hs _] _].
    destruct (at2_is_Some h w _ y x Hs) as [td Htd]; [by destruct Hin|].
    rewrite Htd. by apply createHTMLTable_cell in Htd as [-> _].
Qed.

(** The pointer enters the blue column, on a page with a second table. *)
Lemma rows_after_the_table_witness :
  handle_dom vocabulary (Hover 1 0) (mkWorld (game world32) (page world32)) =
    Normal (mkWorld (game world32h) (page world32h)) /\
  handle_dom vocabulary (Hover 1 0)
    (mkWorld (game world32) (page world32 ++ createHTMLTable 3 2 [])) =
    Normal (mkWorld (game world32h) (page world32h ++ createHTMLTable 3 2 [])).
Proof.
  split; [vm_compute; reflexivity|].
  apply (rows_after_the_table vocabulary (Hover 1 0) (game world32)
           (game world32h)
           (page world32) (page world32h) (createHTMLTable 3 2 [])).
  vm_compute. reflexivity.
Defined.

(** A second game of three columns on the page of the first. *)
Lemma second_game_on_the_page_witness :
  0 <= 3 /\ 0 <= 2 /\ 3 < 2 ^ 32 /\ 2 < 2 ^ 32 /\
  tablePage 3 2 (page world32h) /\ cssPick vocabulary 3 2 redRedBlue /\
  exists st rows',
    construct_dom vocabulary 3 2 redRedBlue (page world32h) =
      Normal (mkWorld st (rows' ++ createHTMLTable 3 2 [])) /\
    construct 3 2 redRedBlue = Normal st /\
    tablePage 3 2 rows' /\
    (forall p c, inb 3 2 p -> colorAt (colorsOf (board st)) p = Some c ->
       shownAt rows' p = setColor vocabulary c <$> shownAt (page world32h) p) /\
    (cssPick vocabulary 3 2 redRedBlue ->
     forall p, inb 3 2 p -> shownAt rows' p = colorAt (colorsOf (board st)) p) /\
    (forall p, inb 3 2 p -> shownAt (createHTMLTable 3 2 []) p = Some None).
Proof.
  assert (session vocabulary 3 2 threeColumns (Some (1, 0)) world32h) as Hses.
  { apply (session_over _ _ _ _ (1, 0)
             (mkTd "c-1-0" (Hover 1 0) Out (Click 1 0) (Some "blue") false)
             world32).
    - apply session_new. vm_compute. reflexivity.
    - vm_compute. reflexivity.
    - vm_compute. reflexivity. }
  destruct (session_inv vocabulary 3 2 threeColumns (Some (1, 0)) world32h)
    as (_ & Ht & _); [lia|lia|exact Hses|].
  split; [lia|]. split; [lia|]. split; [lia|]. split; [lia|].
  split; [exact Ht|]. split; [apply vocabulary_redRedBlue|].
  apply (second_game_on_the_page vocabulary 3 2 redRedBlue (page world32h));
    [lia|lia|lia|lia|].
  exact Ht.
Defined.

Example second_game_pages :
  map (map backgroundColor)
      (page (worldOf (construct_dom vocabulary 3 2 redRedBlue (page world32h)))) =
    [[Some "red"; Some "red"; Some "blue"]; [Some "red"; Some "red"; Some "blue"];
     [None; None; None]; [None; None; None]] /\
  map (map hovering)
      (page (worldOf (construct_dom vocabulary 3 2 redRedBlue (page world32h)))) =
    [[false; true; false]; [false; true; false];
     [false; false; false]; [false; false; false]].
Proof. vm_compute. by repeat split. Qed.

End SameGame.
